(** * Parking occupancy engine: a shallow embedding of the analysis core

    The development follows the Python sources of the backend:
    - [app/tasks/video_tasks.py]: [OccupancyTracker], [calculate_iou],
      [process_video_task], [_process_video_frames];
    - [app/api/v1/endpoints/videos.py]: [calculate_iou],
      [check_containment], [get_current_parking_status],
      [get_lots_parking_status], [get_video_analytics];
    - [app/api/v1/endpoints/detections.py]: the best-slot loop of
      [get_detections_by_frames], [get_occupancy_stats];
    - [app/api/v1/endpoints/events.py]: [get_current_occupancy_stats].

    Conventions.  Python floats are idealised as rationals ([Q]), except
    in module [PyFloat], which follows [calculate_iou] and
    [check_containment] through infinite and undefined areas; a UUID is a
    number ([N]) and, being an object, is always truthy; a [dict] whose
    iteration order is observed is an insertion-ordered association list
    ([PyDict]); a [dict] or [set] that is only looked up is a [gmap] or a
    [gset]; an exception is an explicit [Raise] result. *)

From Stdlib Require Import ZArith QArith Qround Qminmax Qabs Lqa.
From stdpp Require Import base option list gmap fin_sets sorting strings.

Definition UUID : Type := N.

(** [str(u)]: the 32 lower-case hexadecimal digits of the 128-bit number,
    in groups of 8, 4, 4, 4 and 12. *)
Definition hex_digit (n : N) : Ascii.ascii :=
  default Ascii.zero (String.get (N.to_nat n) "0123456789abcdef").

Fixpoint hex_digits (k : nat) (n : N) : string :=
  match k with
  | O => EmptyString
  | S k' =>
      hex_digits k' (n / 16)%N +:+ String (hex_digit (n mod 16)%N) EmptyString
  end.

Definition uuid_str (u : UUID) : string :=
  let h := hex_digits 32 u in
  String.substring 0 8 h +:+ "-" +:+ String.substring 8 4 h +:+ "-" +:+
  String.substring 12 4 h +:+ "-" +:+ String.substring 16 4 h +:+ "-" +:+
  String.substring 20 12 h.

(** ** Python values shared by the endpoints *)

(** A call either returns or raises [exc(msg)]. *)
Inductive result (A : Type) : Type :=
  | Return (a : A)
  | Raise (exc msg : string).
Arguments Return {A} a.
Arguments Raise {A} exc msg.

(** The builtins [all] and [any] on a list of booleans. *)
Definition all (l : list bool) : bool := forallb (λ b, b) l.
Definition any (l : list bool) : bool := existsb (λ b, b) l.

(** ** [OccupancyTracker] (video_tasks.py) *)

Module Tracker.

Record OccupancyTracker : Type := mkTracker {
  confirm_frames : Z;
  state : gmap UUID (list bool)
}.

(** [OccupancyTracker(confirm_frames)] *)
Definition init (confirm_frames : Z) : OccupancyTracker :=
  mkTracker confirm_frames ∅.

(** [list.pop(0)] on a non-empty list. *)
Definition pop0 (w : list bool) : list bool := tail w.

(** The window of [slot_id] once [is_occupied] has been appended and the
    oldest sample evicted: the value of [self.state[slot_id]] at the two
    [len] tests of [update]. *)
Definition window_after (t : OccupancyTracker) (slot_id : UUID)
    (is_occupied : bool) : list bool :=
  let w0 := default [] (state t !! slot_id) in
  let w1 := w0 ++ [is_occupied] in
  if (Z.of_nat (length w1) >? confirm_frames t)%Z then pop0 w1 else w1.

(** The value returned by [update] for a given window. *)
Definition verdict (confirm_frames : Z) (w : list bool) : option string :=
  if (Z.of_nat (length w) =? confirm_frames)%Z then
    if all w then Some "occupied"%string
    else if negb (any w) then Some "free"%string
    else None
  else None.

(** [update(slot_id, is_occupied)]: the returned status and the mutated
    tracker. *)
Definition update (t : OccupancyTracker) (slot_id : UUID)
    (is_occupied : bool) : option string * OccupancyTracker :=
  let w := window_after t slot_id is_occupied in
  (verdict (confirm_frames t) w,
   mkTracker (confirm_frames t) (<[slot_id := w]> (state t))).

(** Feeding an ordered sequence of samples of one slot; the results of the
    successive calls, in order. *)
Fixpoint feed (t : OccupancyTracker) (slot_id : UUID)
    (samples : list bool) : list (option string) * OccupancyTracker :=
  match samples with
  | [] => ([], t)
  | b :: rest =>
      let '(r, t1) := update t slot_id b in
      let '(rs, t2) := feed t1 slot_id rest in
      (r :: rs, t2)
  end.

(** How many calls returned a given status. *)
Definition emitted (s : string) (rs : list (option string)) : nat :=
  length (filter (λ r, r = Some s) rs).

(** The status confirmed by the calls made so far: the last non-[None]
    result, if any. *)
Definition confirmed (rs : list (option string)) : option string :=
  last (filter (λ r, r ≠ None) rs) ≫= id.

End Tracker.

(** ** Geometry (videos.py, detections.py, video_tasks.py) *)

(** Comparisons of floats, as booleans. *)
Definition Qgeb (x y : Q) : bool := Qle_bool y x.
Definition Qgtb (x y : Q) : bool := negb (Qle_bool x y).

(** [try: body except Exception: handler], for a body whose only effect is
    to raise. *)
Definition try_except {A : Type} (body : option A) (handler : A) : A :=
  default handler body.

(** The part of Shapely the engine calls.  [intersection_area a b] stands
    for [a.intersection(b).area] and [union_area a b] for [a.union(b).area];
    [None] is a GEOS exception. *)
Record Shapely : Type := {
  Polygon : Type;
  box : Q → Q → Q → Q → Polygon;
  area : Polygon → Q;
  intersection_area : Polygon → Polygon → option Q;
  union_area : Polygon → Polygon → option Q
}.

(** What the engine may expect of areas computed by a correct overlay: an
    intersection lies inside both operands and inside the union, and both
    operations are commutative. *)
Class ShapelyLaws (G : Shapely) : Prop := {
  area_nonneg (a : Polygon G) : (0 <= area G a)%Q;
  intersection_nonneg a b i :
    intersection_area G a b = Some i → (0 <= i)%Q;
  intersection_le_area a b i :
    intersection_area G a b = Some i → (i <= area G a)%Q;
  intersection_le_union a b i u :
    intersection_area G a b = Some i → union_area G a b = Some u →
    (i <= u)%Q;
  intersection_comm a b : intersection_area G a b = intersection_area G b a;
  union_comm a b : union_area G a b = union_area G b a
}.

Section geometry.
Context (G : Shapely).
Local Open Scope Q_scope.

(** [bbox_normalized], the JSON object of a detection. *)
Record BBox : Type := mkBBox { x1 : Q; y1 : Q; x2 : Q; y2 : Q }.

Definition bbox_to_polygon (bbox_norm : BBox) : Polygon G :=
  box G (x1 bbox_norm) (y1 bbox_norm) (x2 bbox_norm) (y2 bbox_norm).

Definition calculate_iou (poly1 poly2 : Polygon G) : Q :=
  try_except
    (intersection ← intersection_area G poly1 poly2;
     union ← union_area G poly1 poly2;
     Some (if Qgtb union 0 then intersection / union else 0))
    0.

Definition check_containment (slot_poly lot_poly : Polygon G)
    (threshold : Q) : bool :=
  try_except
    (intersection ← intersection_area G slot_poly lot_poly;
     let slot_area := area G slot_poly in
     if Qeq_bool slot_area 0 then Some false
     else
       let coverage := intersection / slot_area in
       Some (Qgeb coverage threshold))
    false.

(** The local [coverage] of [check_containment], with the result of its
    two early exits read as a coverage of [0]. *)
Definition coverage (slot_poly lot_poly : Polygon G) : Q :=
  match intersection_area G slot_poly lot_poly with
  | Some intersection =>
      if Qeq_bool (area G slot_poly) 0 then 0
      else intersection / area G slot_poly
  | None => 0
  end.

End geometry.

Arguments calculate_iou {G} poly1 poly2.
Arguments check_containment {G} slot_poly lot_poly threshold.
Arguments coverage {G} slot_poly lot_poly.
Arguments bbox_to_polygon {G} bbox_norm.

(** ** A kernel for axis-aligned rectangles

    [shapely.geometry.box] builds the rectangle spanned by two corners; the
    overlay of two such rectangles is computed exactly here.  Areas are kept
    in lowest terms, so that equal areas are equal terms. *)

Module BoxKernel.
Local Open Scope Q_scope.

Record Rect : Type := mkRect { minx : Q; miny : Q; maxx : Q; maxy : Q }.

(** Length of the interval spanned by two abscissae, in either order. *)
Definition span (a1 a2 : Q) : Q := Qmax a1 a2 - Qmin a1 a2.

(** Length of the common part of two such intervals. *)
Definition overlap (a1 a2 b1 b2 : Q) : Q :=
  Qmax 0 (Qmin (Qmax a1 a2) (Qmax b1 b2) - Qmax (Qmin a1 a2) (Qmin b1 b2)).

Definition rect_area (r : Rect) : Q :=
  span (minx r) (maxx r) * span (miny r) (maxy r).

Definition rect_inter (a b : Rect) : Q :=
  overlap (minx a) (maxx a) (minx b) (maxx b) *
  overlap (miny a) (maxy a) (miny b) (maxy b).

Definition kernel : Shapely := {|
  Polygon := Rect;
  box := mkRect;
  area := λ r, Qred (rect_area r);
  intersection_area := λ a b, Some (Qred (rect_inter a b));
  union_area := λ a b,
    Some (Qred (rect_area a + rect_area b - rect_inter a b))
|}.

End BoxKernel.

(** ** Python containers and builtins *)

(** A [dict] whose iteration order is observed: the items in insertion
    order, every key once. *)
Module PyDict.
Section dict.
Context {K V : Type} `{EqDecision K}.

Definition dict : Type := list (K * V).

Definition items (d : dict) : list (K * V) := d.
Definition keys (d : dict) : list K := d.*1.
Definition values (d : dict) : list V := d.*2.

(** [d.get(k)] *)
Fixpoint get (d : dict) (k : K) : option V :=
  match d with
  | [] => None
  | (k', v) :: d' => if decide (k = k') then Some v else get d' k
  end.

(** [d[k] = v]: an existing key keeps its place. *)
Fixpoint setitem (d : dict) (k : K) (v : V) : dict :=
  match d with
  | [] => [(k, v)]
  | (k', v') :: d' =>
      if decide (k = k') then (k, v) :: d' else (k', v') :: setitem d' k v
  end.

(** [{k: v for (k, v) in kvs}] *)
Definition of_items (kvs : list (K * V)) : dict :=
  foldl (λ d kv, setitem d kv.1 kv.2) [] kvs.

End dict.
Arguments dict : clear implicits.
End PyDict.

(** The grouping idiom of the endpoints,
    [if k not in d: d[k] = init(x)] followed by [d[k] = upd(d[k], x)]. *)
Definition group_step {A K V : Type} `{EqDecision K} (key : A → K)
    (init : A → V) (upd : V → A → V) (d : PyDict.dict K V) (x : A)
    : PyDict.dict K V :=
  PyDict.setitem d (key x)
    (upd (default (init x) (PyDict.get d (key x))) x).

(** [sorted(l, key=..)] and [l.sort(key=.., reverse=True)]: a stable sort;
    [before x y] says that [x] may stand before [y]. *)
Section py_sorted.
Context {A : Type} (before : A → A → bool).

Fixpoint insert_sorted (x : A) (l : list A) : list A :=
  match l with
  | [] => [x]
  | y :: l' => if before x y then x :: y :: l' else y :: insert_sorted x l'
  end.

Definition py_sorted (l : list A) : list A := foldr insert_sorted [] l.

End py_sorted.

(** [round(x)] to the nearest integer, ties to the even one. *)
Definition round_half_even (x : Q) : Z :=
  let f := Qfloor x in
  match (x - inject_Z f ?= 1 # 2)%Q with
  | Lt => f
  | Gt => (f + 1)%Z
  | Eq => if Z.even f then f else (f + 1)%Z
  end.

(** [round(x, ndigits)] *)
Definition py_round (x : Q) (ndigits : nat) : Q :=
  (inject_Z (round_half_even (x * inject_Z (10 ^ Z.of_nat ndigits)))
   / inject_Z (10 ^ Z.of_nat ndigits))%Q.

(** [a / b] on two [int]s. *)
Definition int_div (a b : Z) : Q := (inject_Z a / inject_Z b)%Q.

(** [len] as an [int]. *)
Definition len {A : Type} (l : list A) : Z := Z.of_nat (length l).

(** ** Rows of the database *)

Section rows.
Context {G : Shapely}.

(** The [polygon] column holds a GeoJSON ring; a row carries the polygon
    [polygon_from_geojson] builds from it.  A ring from which Shapely
    builds no polygon (fewer than four points, say) makes the call that
    reaches it raise: such rows are not described, and a function that
    builds polygons is described for its calls that get past this point. *)
Record ParkingSlot : Type := mkSlot {
  slot_id : UUID;
  slot_camera_id : UUID;
  slot_name : string;
  slot_polygon : Polygon G
}.

Record ParkingLot : Type := mkLot {
  lot_id : UUID;
  lot_camera_id : UUID;
  lot_name : string;
  lot_polygon : Polygon G
}.

End rows.
Arguments ParkingSlot : clear implicits.
Arguments ParkingLot : clear implicits.

(** Times are seconds on some clock. *)
Definition datetime : Type := Q.
Bind Scope Q_scope with datetime.

Record Detection : Type := mkDetection {
  det_id : UUID;
  det_video_id : UUID;
  det_camera_id : UUID;
  frame_number : Z;
  frame_time : datetime;
  offset_seconds : Q;
  class_id : Z;
  class_name : string;
  confidence : Q;
  bbox : BBox;
  bbox_normalized : BBox;
  track_id : option Z
}.

Record Video : Type := mkVideo {
  video_id : UUID;
  video_camera_id : UUID;
  filename : string;
  processed : bool;
  processing_started_at : option datetime;
  processing_finished_at : option datetime;
  processing_error : option string
}.

Record OccupancyEvent : Type := mkEvent {
  event_id : UUID;
  event_parking_lot_id : UUID;
  event_parking_slot_id : option UUID;
  event_frame_time : datetime;
  event_status : string
}.

(** ** The slot matcher (detections.py, "Find best matching slot") *)

Section matcher.
Context {G : Shapely}.

(** [slot_polygons = {slot.id: (polygon_from_geojson(slot.polygon),
    slot.name) for slot in parking_slots}] *)
Definition slot_polygons_of (parking_slots : list (ParkingSlot G))
    : PyDict.dict UUID (Polygon G * string) :=
  PyDict.of_items
    (map (λ slot, (slot_id slot, (slot_polygon slot, slot_name slot)))
       parking_slots).

(** The three locals of the loop. *)
Record Best : Type := mkBest {
  best_slot_id : option UUID;
  best_slot_name : option string;
  best_iou : Q
}.

Definition best_init : Best := mkBest None None 0.

(** One iteration of [for slot_id, (slot_polygon, slot_name) in
    slot_polygons.items()]. *)
Definition best_step (detection_polygon : Polygon G) (iou_threshold : Q)
    (best : Best) (item : UUID * (Polygon G * string)) : Best :=
  let '(slot_id, (slot_polygon, slot_name)) := item in
  let iou := calculate_iou detection_polygon slot_polygon in
  if Qgtb iou (best_iou best) && Qgeb iou iou_threshold
  then mkBest (Some slot_id) (Some slot_name) iou
  else best.

Definition best_slot (detection_polygon : Polygon G)
    (slot_polygons : PyDict.dict UUID (Polygon G * string))
    (iou_threshold : Q) : Best :=
  foldl (best_step detection_polygon iou_threshold) best_init
    (PyDict.items slot_polygons).

(** What the three locals of the best-slot loop say about the items
    iterated so far. *)
Definition best_of (detection_polygon : Polygon G) (iou_threshold : Q)
    (items : list (UUID * (Polygon G * string))) (best : Best) : Prop :=
  match best_slot_id best with
  | Some sid =>
      (∃ pre poly name post,
         items = pre ++ (sid, (poly, name)) :: post ∧
         best_slot_name best = Some name ∧
         best_iou best = calculate_iou detection_polygon poly ∧
         ∀ item, item ∈ pre →
           (calculate_iou detection_polygon item.2.1 < best_iou best)%Q) ∧
      (iou_threshold <= best_iou best)%Q ∧
      (0 < best_iou best)%Q ∧
      ∀ item, item ∈ items →
        (calculate_iou detection_polygon item.2.1 <= best_iou best)%Q
  | None =>
      best_slot_name best = None ∧
      best_iou best = 0%Q ∧
      ∀ item, item ∈ items →
        ¬ ((0 < calculate_iou detection_polygon item.2.1)%Q ∧
           (iou_threshold <= calculate_iou detection_polygon item.2.1)%Q)
  end.

(** ** Occupied slots of a set of detections
    (videos.py "Check occupancy", detections.py "Check which slot this
    detection belongs to") *)

(** The inner loop: every slot whose IoU with the detection reaches the
    threshold is added. *)
Definition mark_slots (detection_polygon : Polygon G)
    (slot_polygons : PyDict.dict UUID (Polygon G * string))
    (iou_threshold : Q) (occupied_slots : gset UUID) : gset UUID :=
  foldl
    (λ occ '(slot_id, (slot_polygon, slot_name)),
       if Qgeb (calculate_iou detection_polygon slot_polygon) iou_threshold
       then {[slot_id]} ∪ occ else occ)
    occupied_slots (PyDict.items slot_polygons).

Definition occupied_slots_of (detections : list Detection)
    (slot_polygons : PyDict.dict UUID (Polygon G * string))
    (iou_threshold : Q) : gset UUID :=
  foldl
    (λ occ detection,
       mark_slots (bbox_to_polygon (bbox_normalized detection))
         slot_polygons iou_threshold occ)
    ∅ detections.

(** The occupied slots of [get_frame_detections] (detections.py): the only
    aggregation that goes through the best-slot loop,
    [if best_slot_id: occupied_slot_ids.add(best_slot_id)]. *)
Definition occupied_slot_ids_of (detections : list Detection)
    (slot_polygons : PyDict.dict UUID (Polygon G * string))
    (iou_threshold : Q) : gset UUID :=
  foldl
    (λ occ detection,
       match
         best_slot_id
           (best_slot (bbox_to_polygon (bbox_normalized detection))
              slot_polygons iou_threshold)
       with
       | Some slot_id => {[slot_id]} ∪ occ
       | None => occ
       end)
    ∅ detections.

End matcher.

(** ** The database and its queries *)

Record DB (G : Shapely) : Type := mkDB {
  videos : list Video;
  parking_slots : list (ParkingSlot G);
  parking_lots : list (ParkingLot G);
  detections : list Detection;
  occupancy_events : list OccupancyEvent
}.
Arguments videos {G} _.
Arguments parking_slots {G} _.
Arguments parking_lots {G} _.
Arguments detections {G} _.
Arguments occupancy_events {G} _.
Arguments mkDB {G} _ _ _ _ _.

(** [ORDER BY key DESC] on a nullable column: PostgreSQL puts NULL first. *)
Definition desc_nulls_first (a b : option Q) : bool :=
  match a, b with
  | None, _ => true
  | Some _, None => false
  | Some x, Some y => Qgeb x y
  end.

Section queries.
Context {G : Shapely}.

(** [select(ParkingSlot).where(ParkingSlot.camera_id == camera_id)] *)
Definition select_slots (db : DB G) (camera_id : UUID)
    : list (ParkingSlot G) :=
  filter (λ slot, slot_camera_id slot = camera_id) (parking_slots db).

(** [select(ParkingLot).where(ParkingLot.camera_id == camera_id)] *)
Definition select_lots (db : DB G) (camera_id : UUID) : list (ParkingLot G) :=
  filter (λ lot, lot_camera_id lot = camera_id) (parking_lots db).

(** [select(Video).where(Video.id == video_id)], [scalar_one_or_none] *)
Definition select_video (db : DB G) (id : UUID) : option Video :=
  head (filter (λ v, video_id v = id) (videos db)).

(** The latest processed video of a camera:
    [.where(camera_id == .., processed == True)
     .order_by(processing_finished_at.desc()).limit(1)]. *)
Definition latest_processed_video (db : DB G) (camera_id : UUID)
    : option Video :=
  head
    (py_sorted
       (λ v w, desc_nulls_first (processing_finished_at v)
                 (processing_finished_at w))
       (filter (λ v, video_camera_id v = camera_id ∧ processed v = true)
          (videos db))).

(** [select(Detection).where(Detection.video_id == video_id)] *)
Definition select_detections (db : DB G) (id : UUID) : list Detection :=
  filter (λ d, det_video_id d = id) (detections db).

(** [.order_by(Detection.frame_number)] *)
Definition order_by_frame_number (ds : list Detection) : list Detection :=
  py_sorted (λ d e, (frame_number d <=? frame_number e)%Z) ds.

(** [select(func.max(Detection.frame_number))]: NULL on no row. *)
Definition max_frame_number (ds : list Detection) : option Z :=
  foldr
    (λ d acc,
       Some (match acc with
             | None => frame_number d
             | Some m => Z.max (frame_number d) m
             end))
    None ds.

End queries.

(** ** [get_current_parking_status] (videos.py) *)

Section current_status.
Context {G : Shapely}.

Record SlotStatus : Type := mkSlotStatus {
  ss_id : UUID;
  ss_name : string;
  ss_status : string;
  ss_polygon : option (Polygon G)
}.

Record Summary : Type := mkSummary {
  sum_total_slots : Z;
  sum_occupied : Z;
  sum_free : Z;
  sum_occupancy_rate : Q
}.

Record CurrentStatus : Type := mkCurrentStatus {
  cs_camera_id : UUID;
  cs_status : string;
  cs_message : option string;
  cs_video_id : option UUID;
  cs_last_updated : option datetime;
  cs_frame_number : option Z;
  cs_slots : list SlotStatus;
  cs_summary : Summary
}.

Definition get_current_parking_status (db : DB G) (camera_id : UUID)
    (iou_threshold : Q) : CurrentStatus :=
  match latest_processed_video db camera_id with
  | None =>
      mkCurrentStatus camera_id "no_data"
        (Some "No processed videos found for this camera"%string)
        None None None [] (mkSummary 0 0 0 0)
  | Some video =>
      let parking_slots := select_slots db camera_id in
      if bool_decide (parking_slots = []) then
        mkCurrentStatus camera_id "no_slots"
          (Some "No parking slots defined for this camera"%string)
          (Some (video_id video)) None None [] (mkSummary 0 0 0 0)
      else
        match max_frame_number (select_detections db (video_id video)) with
        | None =>
            mkCurrentStatus camera_id "no_detections"
              (Some "No detections found in video"%string)
              (Some (video_id video)) None None
              (map (λ slot,
                      mkSlotStatus (slot_id slot) (slot_name slot)
                        "unknown" None)
                 parking_slots)
              (mkSummary (len parking_slots) 0 (len parking_slots) 0)
        | Some latest_frame =>
            let detections :=
              filter (λ d, frame_number d = latest_frame)
                (select_detections db (video_id video)) in
            let slot_polygons := slot_polygons_of parking_slots in
            let occupied_slots :=
              occupied_slots_of detections slot_polygons iou_threshold in
            let slots_status :=
              map (λ slot,
                     let is_occupied :=
                       bool_decide (slot_id slot ∈ occupied_slots) in
                     mkSlotStatus (slot_id slot) (slot_name slot)
                       (if is_occupied then "occupied" else "free")
                       (Some (slot_polygon slot)))
                parking_slots in
            let occupied_count := Z.of_nat (size occupied_slots) in
            let total_slots := len parking_slots in
            mkCurrentStatus camera_id "ok" None (Some (video_id video))
              (processing_finished_at video) (Some latest_frame)
              slots_status
              (mkSummary total_slots occupied_count
                 (total_slots - occupied_count)
                 (if (total_slots >? 0)%Z
                  then py_round (int_div occupied_count total_slots) 2
                  else 0))
        end
  end.

End current_status.
Arguments SlotStatus : clear implicits.
Arguments CurrentStatus : clear implicits.

(** ** [get_occupancy_stats] (detections.py) *)

Section occupancy_stats.
Context {G : Shapely}.

(** A value of [frame_occupancy]. *)
Record FrameOccupancy : Type := mkFrameOccupancy {
  fo_frame_number : Z;
  fo_frame_time : datetime;
  fo_occupied_slots : gset UUID;
  fo_detections : Z
}.

(** [frame_occupancy[frame_num] = {..}] for a frame seen for the first
    time. *)
Definition new_frame_occupancy (detection : Detection) : FrameOccupancy :=
  mkFrameOccupancy (frame_number detection) (frame_time detection) ∅ 0.

(** The rest of the loop body: the slots reached by the detection are added
    to the entry of its frame and its counter is incremented. *)
Definition count_detection
    (slot_polygons : PyDict.dict UUID (Polygon G * string))
    (iou_threshold : Q) (entry : FrameOccupancy) (detection : Detection)
    : FrameOccupancy :=
  mkFrameOccupancy (fo_frame_number entry) (fo_frame_time entry)
    (mark_slots (bbox_to_polygon (bbox_normalized detection))
       slot_polygons iou_threshold (fo_occupied_slots entry))
    (fo_detections entry + 1).

(** [for detection in detections: ..] under "Analyze occupancy per
    frame". *)
Definition frame_occupancy_of (detections : list Detection)
    (slot_polygons : PyDict.dict UUID (Polygon G * string))
    (iou_threshold : Q) : PyDict.dict Z FrameOccupancy :=
  foldl
    (group_step frame_number new_frame_occupancy
       (count_detection slot_polygons iou_threshold))
    [] detections.

(** An item of the ["timeline"]. *)
Record TimelineEntry : Type := mkTimelineEntry {
  te_frame_number : Z;
  te_frame_time : datetime;
  te_total_slots : Z;
  te_occupied_slots : Z;
  te_free_slots : Z;
  te_occupancy_rate : Q;
  te_total_detections : Z
}.

Record OccupancyStats : Type := mkOccupancyStats {
  os_video_id : UUID;
  os_camera_id : UUID;
  os_total_slots : Z;
  os_frames_analyzed : Z;
  os_average_occupancy_rate : Q;
  os_timeline : list TimelineEntry
}.

Definition sum_Q (l : list Q) : Q := foldl Qplus 0%Q l.

Definition get_occupancy_stats (db : DB G) (video_id camera_id : UUID)
    (iou_threshold : Q) : OccupancyStats :=
  let detections := order_by_frame_number (select_detections db video_id) in
  let parking_slots := select_slots db camera_id in
  let slot_polygons := slot_polygons_of parking_slots in
  let frame_occupancy :=
    frame_occupancy_of detections slot_polygons iou_threshold in
  let total_slots := len parking_slots in
  let occupancy_timeline :=
    map (λ frame_data,
           let occupied_count :=
             Z.of_nat (size (fo_occupied_slots frame_data)) in
           mkTimelineEntry (fo_frame_number frame_data)
             (fo_frame_time frame_data) total_slots occupied_count
             (total_slots - occupied_count)
             (if (total_slots >? 0)%Z
              then int_div occupied_count total_slots else 0)
             (fo_detections frame_data))
      (py_sorted (λ x y, (fo_frame_number x <=? fo_frame_number y)%Z)
         (PyDict.values frame_occupancy)) in
  let avg_occupancy :=
    if bool_decide (occupancy_timeline = []) then 0%Q
    else (sum_Q (map te_occupancy_rate occupancy_timeline)
          / inject_Z (len occupancy_timeline))%Q in
  mkOccupancyStats video_id camera_id total_slots (len occupancy_timeline)
    avg_occupancy occupancy_timeline.

End occupancy_stats.

(** ** Slot to lot membership and [get_lots_parking_status] (videos.py) *)

Section lots_status.
Context {G : Shapely}.

(** [lot_polygons = {lot.id: (polygon_from_geojson(lot.polygon), lot.name)
    for lot in parking_lots}] *)
Definition lot_polygons_of (parking_lots : list (ParkingLot G))
    : PyDict.dict UUID (Polygon G * string) :=
  PyDict.of_items
    (map (λ lot, (lot_id lot, (lot_polygon lot, lot_name lot))) parking_lots).

(** The inner loop of "Map slots to lots using containment check": the
    first lot, in the order of [lot_polygons.items()], that contains the
    slot; the loop breaks there. *)
Definition first_containing_lot (slot_poly : Polygon G)
    (lot_polygons : PyDict.dict UUID (Polygon G * string)) : option UUID :=
  fst <$>
    List.find (λ '(lot_id, (lot_poly, lot_name)),
                 check_containment slot_poly lot_poly 0.5)
      (PyDict.items lot_polygons).

Definition slot_to_lot_map_of (parking_slots : list (ParkingSlot G))
    (lot_polygons : PyDict.dict UUID (Polygon G * string))
    : gmap UUID UUID :=
  foldl
    (λ slot_to_lot_map slot,
       match first_containing_lot (slot_polygon slot) lot_polygons with
       | Some lot_id => <[slot_id slot := lot_id]> slot_to_lot_map
       | None => slot_to_lot_map
       end)
    ∅ parking_slots.

(** A value of [lot_data]. *)
Record LotData : Type := mkLotData {
  ld_name : string;
  ld_capacity : Z;
  ld_occupied : Z
}.

(** One iteration of [for slot in parking_slots] under "Aggregate by
    lots". *)
Definition lot_data_step (slot_to_lot_map : gmap UUID UUID)
    (occupied_slots : gset UUID) (lot_data : PyDict.dict UUID LotData)
    (slot : ParkingSlot G) : PyDict.dict UUID LotData :=
  match slot_to_lot_map !! slot_id slot with
  | Some lot_id =>
      match PyDict.get lot_data lot_id with
      | Some data =>
          PyDict.setitem lot_data lot_id
            (mkLotData (ld_name data) (ld_capacity data + 1)
               (if bool_decide (slot_id slot ∈ occupied_slots)
                then ld_occupied data + 1 else ld_occupied data))
      | None => lot_data
      end
  | None => lot_data
  end.

Definition lot_data_of (parking_lots : list (ParkingLot G))
    (parking_slots : list (ParkingSlot G))
    (slot_to_lot_map : gmap UUID UUID) (occupied_slots : gset UUID)
    : PyDict.dict UUID LotData :=
  foldl (lot_data_step slot_to_lot_map occupied_slots)
    (PyDict.of_items
       (map (λ lot, (lot_id lot, mkLotData (lot_name lot) 0 0)) parking_lots))
    parking_slots.

(** The conditional expression under ["status"]. *)
Definition lot_status_label (occupancy_rate : Q) : string :=
  if Qgeb occupancy_rate 0.95 then "full"
  else if Qgeb occupancy_rate 0.7 then "busy"
  else if Qgeb occupancy_rate 0.3 then "moderate"
  else "free".

(** An item of ["lots"]; the [no_detections] variant has no [free] and no
    [status]. *)
Record LotStatus : Type := mkLotStatus {
  ls_id : UUID;
  ls_name : string;
  ls_capacity : Z;
  ls_occupied : Z;
  ls_free : option Z;
  ls_occupancy_rate : Q;
  ls_status : option string
}.

Record LotsSummary : Type := mkLotsSummary {
  lsum_total_lots : Z;
  lsum_total_capacity : Z;
  lsum_total_occupied : Z;
  lsum_total_free : option Z;
  lsum_avg_occupancy_rate : Q
}.

Record LotsStatus : Type := mkLotsStatus {
  lots_camera_id : UUID;
  lots_status : string;
  lots_video_id : option UUID;
  lots_frame_number : option Z;
  lots_lots : list LotStatus;
  lots_summary : LotsSummary
}.

(** The item appended to [lots_status] for one item of [lot_data]. *)
Definition lot_status_of (item : UUID * LotData) : LotStatus :=
  let '(lot_id, data) := item in
  let capacity := ld_capacity data in
  let occupied := ld_occupied data in
  let occupancy_rate :=
    if (capacity >? 0)%Z then int_div occupied capacity else 0%Q in
  mkLotStatus lot_id (ld_name data) capacity occupied
    (Some (capacity - occupied)%Z) (py_round occupancy_rate 2)
    (Some (lot_status_label occupancy_rate)).

Definition sum_Z (l : list Z) : Z := foldl Z.add 0%Z l.

Definition get_lots_parking_status (db : DB G) (camera_id : UUID)
    (iou_threshold : Q) : LotsStatus :=
  match latest_processed_video db camera_id with
  | None =>
      mkLotsStatus camera_id "no_data" None None []
        (mkLotsSummary 0 0 0 None 0)
  | Some video =>
      let parking_lots := select_lots db camera_id in
      let parking_slots := select_slots db camera_id in
      if bool_decide (parking_lots = []) then
        mkLotsStatus camera_id "no_lots" (Some (video_id video)) None []
          (mkLotsSummary 0 0 0 None 0)
      else
        match max_frame_number (select_detections db (video_id video)) with
        | None =>
            mkLotsStatus camera_id "no_detections" (Some (video_id video))
              None
              (map (λ lot,
                      mkLotStatus (lot_id lot) (lot_name lot) 0 0 None 0 None)
                 parking_lots)
              (mkLotsSummary (len parking_lots) 0 0 None 0)
        | Some latest_frame =>
            let detections :=
              filter (λ d, frame_number d = latest_frame)
                (select_detections db (video_id video)) in
            let lot_polygons := lot_polygons_of parking_lots in
            let slot_polygons := slot_polygons_of parking_slots in
            let slot_to_lot_map :=
              slot_to_lot_map_of parking_slots lot_polygons in
            let occupied_slots :=
              occupied_slots_of detections slot_polygons iou_threshold in
            let lot_data :=
              lot_data_of parking_lots parking_slots slot_to_lot_map
                occupied_slots in
            let total_capacity :=
              sum_Z (map ld_capacity (PyDict.values lot_data)) in
            let total_occupied :=
              sum_Z (map ld_occupied (PyDict.values lot_data)) in
            let lots_status :=
              py_sorted
                (λ x y, Qgeb (ls_occupancy_rate x) (ls_occupancy_rate y))
                (map lot_status_of (PyDict.items lot_data)) in
            let avg_occupancy :=
              if (total_capacity >? 0)%Z
              then int_div total_occupied total_capacity else 0%Q in
            mkLotsStatus camera_id "ok" (Some (video_id video))
              (Some latest_frame) lots_status
              (mkLotsSummary (len parking_lots) total_capacity
                 total_occupied (Some (total_capacity - total_occupied)%Z)
                 (py_round avg_occupancy 2))
        end
  end.

End lots_status.

(** ** [get_video_analytics] (videos.py): timeline, slot and lot statistics

    The vehicle-class breakdown of the response is left out. *)

Section video_analytics.
Context {G : Shapely}.

(** A value of [frame_data]. *)
Record FrameData : Type := mkFrameData {
  fd_frame_number : Z;
  fd_frame_time : datetime;
  fd_offset_seconds : Q;
  fd_occupied_slots : gset UUID;
  fd_total_vehicles : Z
}.

(** [frame_data[frame_num] = {..}] for a frame seen for the first time. *)
Definition new_frame_data (detection : Detection) : FrameData :=
  mkFrameData (frame_number detection) (frame_time detection)
    (offset_seconds detection) ∅ 0.

(** The rest of the loop body under "Analyze occupancy per frame". *)
Definition count_vehicle
    (slot_polygons : PyDict.dict UUID (Polygon G * string))
    (iou_threshold : Q) (data : FrameData) (detection : Detection)
    : FrameData :=
  mkFrameData (fd_frame_number data) (fd_frame_time data)
    (fd_offset_seconds data)
    (mark_slots (bbox_to_polygon (bbox_normalized detection))
       slot_polygons iou_threshold (fd_occupied_slots data))
    (fd_total_vehicles data + 1).

Definition frame_data_of (detections : list Detection)
    (slot_polygons : PyDict.dict UUID (Polygon G * string))
    (iou_threshold : Q) : PyDict.dict Z FrameData :=
  foldl
    (group_step frame_number new_frame_data
       (count_vehicle slot_polygons iou_threshold))
    [] detections.

(** An item of ["occupancy_timeline"]. *)
Record AnalyticsFrame : Type := mkAnalyticsFrame {
  af_frame_number : Z;
  af_frame_time : datetime;
  af_offset_seconds : Q;
  af_occupied_slots : Z;
  af_free_slots : Z;
  af_occupancy_rate : Q;
  af_total_vehicles : Z
}.

(** The unrounded [occupancy_rate] of a frame. *)
Definition frame_rate (total_slots : Z) (data : FrameData) : Q :=
  if (total_slots >? 0)%Z
  then int_div (Z.of_nat (size (fd_occupied_slots data))) total_slots
  else 0%Q.

(** "Build timeline": the frames of [frame_data] by ascending key. *)
Definition sorted_frames (frame_data : PyDict.dict Z FrameData)
    : list FrameData :=
  omap (PyDict.get frame_data)
    (py_sorted Z.leb (PyDict.keys frame_data)).

Definition analytics_timeline (total_slots : Z)
    (frame_data : PyDict.dict Z FrameData) : list AnalyticsFrame :=
  map (λ data,
         let occupied := Z.of_nat (size (fd_occupied_slots data)) in
         mkAnalyticsFrame (fd_frame_number data) (fd_frame_time data)
           (fd_offset_seconds data) occupied (total_slots - occupied)
           (py_round (frame_rate total_slots data) 2)
           (fd_total_vehicles data))
    (sorted_frames frame_data).

(** "Calculate slot-level statistics": in how many frames each slot was
    occupied.  The increment of a key that is absent cannot occur: only
    keys of [slot_polygons] are ever marked. *)
Definition slot_occupancy_of
    (slot_polygons : PyDict.dict UUID (Polygon G * string))
    (frame_data : PyDict.dict Z FrameData) : gmap UUID Z :=
  foldl
    (λ slot_occupancy data,
       foldr (λ slot_id acc, alter Z.succ slot_id acc) slot_occupancy
         (elements (fd_occupied_slots data)))
    (list_to_map (map (λ slot_id, (slot_id, 0%Z)) (PyDict.keys slot_polygons)))
    (PyDict.values frame_data).

(** The status expression shared by the slot and the lot statistics of this
    endpoint. *)
Definition rate_label (occupancy_rate : Q) : string :=
  if Qgtb occupancy_rate 0.7 then "busy"
  else if Qgtb occupancy_rate 0.3 then "moderate"
  else "free".

Record SlotStatistic : Type := mkSlotStatistic {
  sst_slot_id : UUID;
  sst_slot_name : string;
  sst_occupied_frames : Z;
  sst_total_frames : Z;
  sst_occupancy_rate : Q;
  sst_status : string
}.

Definition slot_statistics_of (parking_slots : list (ParkingSlot G))
    (slot_occupancy : gmap UUID Z) (total_frames : Z)
    : list SlotStatistic :=
  py_sorted (λ x y, Qgeb (sst_occupancy_rate x) (sst_occupancy_rate y))
    (map (λ slot,
            let occupied_frames :=
              default 0%Z (slot_occupancy !! slot_id slot) in
            let occupancy_rate :=
              if (total_frames >? 0)%Z
              then int_div occupied_frames total_frames else 0%Q in
            mkSlotStatistic (slot_id slot) (slot_name slot) occupied_frames
              total_frames (py_round occupancy_rate 2)
              (rate_label occupancy_rate))
       parking_slots).

(** A value of [lot_occupancy]. *)
Record LotOccupancy : Type := mkLotOccupancy {
  lo_occupied_frames : Z;
  lo_total_slots : Z
}.

(** "Aggregate slot statistics by lots", first loop. *)
Definition lot_occupancy_of (parking_lots : list (ParkingLot G))
    (parking_slots : list (ParkingSlot G))
    (slot_to_lot_map : gmap UUID UUID) (slot_occupancy : gmap UUID Z)
    : gmap UUID LotOccupancy :=
  foldl
    (λ lot_occupancy slot,
       match slot_to_lot_map !! slot_id slot with
       | Some lot_id =>
           alter
             (λ d, mkLotOccupancy
                     (lo_occupied_frames d
                      + default 0%Z (slot_occupancy !! slot_id slot))
                     (lo_total_slots d + 1))
             lot_id lot_occupancy
       | None => lot_occupancy
       end)
    (list_to_map
       (map (λ lot, (lot_id lot, mkLotOccupancy 0 0)) parking_lots))
    parking_slots.

Record LotStatistic : Type := mkLotStatistic {
  lst_lot_id : UUID;
  lst_lot_name : string;
  lst_total_slots : Z;
  lst_occupancy_rate : Q;
  lst_status : string
}.

(** The unrounded [occupancy_rate] of a lot with at least one slot. *)
Definition lot_rate (d : LotOccupancy) (total_frames : Z) : Q :=
  let avg_occupied_frames :=
    int_div (lo_occupied_frames d) (lo_total_slots d) in
  if (total_frames >? 0)%Z
  then (avg_occupied_frames / inject_Z total_frames)%Q else 0%Q.

(** "Aggregate slot statistics by lots", second loop and the final sort. *)
Definition lot_statistics_of (parking_lots : list (ParkingLot G))
    (lot_occupancy : gmap UUID LotOccupancy) (total_frames : Z)
    : list LotStatistic :=
  py_sorted (λ x y, Qgeb (lst_occupancy_rate x) (lst_occupancy_rate y))
    (omap
       (λ lot,
          d ← lot_occupancy !! lot_id lot;
          if (lo_total_slots d >? 0)%Z then
            Some (mkLotStatistic (lot_id lot) (lot_name lot)
                    (lo_total_slots d)
                    (py_round (lot_rate d total_frames) 2)
                    (rate_label (lot_rate d total_frames)))
          else None)
       parking_lots).

Record VideoAnalytics : Type := mkVideoAnalytics {
  va_video_id : UUID;
  va_total_detections : Z;
  va_frames_analyzed : option Z;
  va_average_occupancy_rate : Q;
  va_peak_occupancy_rate : Q;
  va_total_parking_slots : Z;
  va_occupancy_timeline : list AnalyticsFrame;
  va_slot_statistics : list SlotStatistic;
  va_lot_statistics : option (list LotStatistic)
}.

(** [l[-n:] if len(l) > n else l] *)
Definition last_n {A : Type} (n : nat) (l : list A) : list A :=
  drop (length l - n) l.

Definition get_video_analytics (db : DB G) (id : UUID) (iou_threshold : Q)
    : result VideoAnalytics :=
  match select_video db id with
  | None => Raise "HTTPException" "404"
  | Some video =>
      let total_detections := len (select_detections db id) in
      if (total_detections =? 0)%Z then
        Return (mkVideoAnalytics id 0 None 0 0 0 [] [] None)
      else
        let detections := order_by_frame_number (select_detections db id) in
        let parking_slots := select_slots db (video_camera_id video) in
        let slot_polygons := slot_polygons_of parking_slots in
        let frame_data :=
          frame_data_of detections slot_polygons iou_threshold in
        let unique_frames : gset Z :=
          list_to_set (map frame_number detections) in
        let total_slots := len parking_slots in
        let occupancy_timeline := analytics_timeline total_slots frame_data in
        let occupancy_rates :=
          map (frame_rate total_slots) (sorted_frames frame_data) in
        let slot_occupancy := slot_occupancy_of slot_polygons frame_data in
        let total_frames := Z.of_nat (size unique_frames) in
        let avg_occupancy :=
          if bool_decide (occupancy_rates = []) then 0%Q
          else (sum_Q occupancy_rates / inject_Z (len occupancy_rates))%Q in
        let peak_occupancy :=
          match occupancy_rates with
          | [] => 0%Q
          | r :: rs => foldl Qmax r rs
          end in
        let parking_lots := select_lots db (video_camera_id video) in
        let lot_polygons := lot_polygons_of parking_lots in
        let slot_to_lot_map :=
          slot_to_lot_map_of parking_slots lot_polygons in
        let lot_statistics :=
          if bool_decide (parking_lots = []) then []
          else
            lot_statistics_of parking_lots
              (lot_occupancy_of parking_lots parking_slots slot_to_lot_map
                 slot_occupancy)
              total_frames in
        Return
          (mkVideoAnalytics id total_detections (Some total_frames)
             (py_round avg_occupancy 2) (py_round peak_occupancy 2)
             total_slots (last_n 50 occupancy_timeline)
             (slot_statistics_of parking_slots slot_occupancy total_frames)
             (Some lot_statistics))
  end.

End video_analytics.

(** ** [get_current_occupancy_stats] (events.py) *)

Section event_stats.
Context {G : Shapely}.

Record CurrentOccupancyStats : Type := mkCurrentOccupancyStats {
  st_total_slots : Z;
  st_occupied_slots : Z;
  st_free_slots : Z;
  st_unknown_slots : Z;
  st_occupancy_rate : Q
}.

(** The latest event of a slot:
    [.where(parking_slot_id == slot_id).order_by(frame_time.desc()).limit(1)],
    restricted to [parking_lot_id] when one is given. *)
Definition latest_event (db : DB G) (slot_id : UUID)
    (parking_lot_id : option UUID) : option OccupancyEvent :=
  let of_slot :=
    filter (λ e, event_parking_slot_id e = Some slot_id)
      (occupancy_events db) in
  let rows :=
    match parking_lot_id with
    | Some lot => filter (λ e, event_parking_lot_id e = lot) of_slot
    | None => of_slot
    end in
  head
    (py_sorted (λ e f, Qgeb (event_frame_time e) (event_frame_time f)) rows).

(** The three counters [occupied], [free], [unknown]. *)
Definition count_step (db : DB G) (parking_lot_id : option UUID)
    (counters : Z * Z * Z) (slot_id : UUID) : Z * Z * Z :=
  let '(occupied, free, unknown) := counters in
  match latest_event db slot_id parking_lot_id with
  | Some latest_event =>
      if String.eqb (event_status latest_event) "occupied"
      then (occupied + 1, free, unknown)%Z
      else if String.eqb (event_status latest_event) "free"
      then (occupied, free + 1, unknown)%Z
      else (occupied, free, unknown + 1)%Z
  | None => (occupied, free, unknown + 1)%Z
  end.

Definition get_current_occupancy_stats (db : DB G) (camera_id : option UUID)
    (parking_lot_id : option UUID) : CurrentOccupancyStats :=
  let slots :=
    match camera_id with
    | Some c => select_slots db c
    | None => parking_slots db
    end in
  let slot_ids := map slot_id slots in
  if bool_decide (slot_ids = []) then mkCurrentOccupancyStats 0 0 0 0 0
  else
    let '(occupied, free, unknown) :=
      foldl (count_step db parking_lot_id) (0, 0, 0)%Z slot_ids in
    let total := len slot_ids in
    let occupancy_rate :=
      if (total >? 0)%Z then (int_div occupied total * 100)%Q else 0%Q in
    mkCurrentOccupancyStats total occupied free unknown occupancy_rate.

End event_stats.

(** ** [process_video_task] and [_process_video_frames] (video_tasks.py)

    The decoder and the detector are taken as given: a stored file is the
    sequence of its frames, each with the boxes the detector reports on
    it. *)

Section pipeline.
Context {G : Shapely}.

(** A box reported by the detector: [xyxy], [conf], [cls], [id]. *)
Record RawBox : Type := mkRawBox {
  rb_x1 : Q; rb_y1 : Q; rb_x2 : Q; rb_y2 : Q;
  rb_conf : Q;
  rb_cls : Z;
  rb_id : option Z
}.

Record VideoFile : Type := mkVideoFile {
  vf_fps : Q;
  vf_frame_width : Q;
  vf_frame_height : Q;
  vf_frames : list (list RawBox)
}.

(** Defaults of [app/config.py]. *)
Definition FRAME_STRIDE : Z := 30.
Definition IOU_THRESHOLD : Q := 0.3.
Definition CONFIDENCE_THRESHOLD : Q := 0.5.

(** [x or default] on an optional number: [None] and zero are falsy. *)
Definition or_default_Z (x : option Z) (d : Z) : Z :=
  match x with
  | Some v => if (v =? 0)%Z then d else v
  | None => d
  end.

Definition or_default_Q (x : option Q) (d : Q) : Q :=
  match x with
  | Some v => if Qeq_bool v 0 then d else v
  | None => d
  end.

Definition vehicle_classes : list (Z * string) :=
  [(0, "pedestrian"); (1, "people"); (2, "bicycle"); (3, "car");
   (4, "van"); (5, "truck"); (6, "tricycle"); (7, "awning-tricycle");
   (8, "bus"); (9, "motor")]%Z.

(** The rows added for one processed frame; [first_id] numbers them. *)
Definition frame_detections (video : Video) (file : VideoFile)
    (video_start_time : datetime) (confidence_threshold : Q)
    (frame_idx : Z) (boxes : list RawBox) (first_id : UUID)
    : list Detection :=
  let offset_seconds :=
    if Qgtb (vf_fps file) 0 then (inject_Z frame_idx / vf_fps file)%Q
    else 0%Q in
  let frame_time := (video_start_time + offset_seconds)%Q in
  imap
    (λ i '(box_data, class_name),
       mkDetection (first_id + N.of_nat i)%N (video_id video)
         (video_camera_id video) frame_idx frame_time offset_seconds
         (rb_cls box_data) class_name (rb_conf box_data)
         (mkBBox (rb_x1 box_data) (rb_y1 box_data) (rb_x2 box_data)
            (rb_y2 box_data))
         (mkBBox (rb_x1 box_data / vf_frame_width file)
            (rb_y1 box_data / vf_frame_height file)
            (rb_x2 box_data / vf_frame_width file)
            (rb_y2 box_data / vf_frame_height file))%Q
         (rb_id box_data))
    (omap
       (λ box_data,
          class_name ← PyDict.get vehicle_classes (rb_cls box_data);
          if Qgeb (rb_conf box_data) confidence_threshold
          then Some (box_data, class_name) else None)
       boxes).

(** The frame loop: for every frame that is processed, its index and the
    rows it adds. *)
Fixpoint frames_loop (video : Video) (file : VideoFile)
    (video_start_time : datetime) (frame_stride : Z)
    (confidence_threshold : Q) (frames : list (list RawBox))
    (frame_idx : Z) (first_id : UUID) : list (Z * list Detection) :=
  match frames with
  | [] => []
  | boxes :: rest =>
      if bool_decide ((frame_idx `mod` frame_stride)%Z ≠ 0%Z) then
        frames_loop video file video_start_time frame_stride
          confidence_threshold rest (frame_idx + 1)%Z first_id
      else
        let rows :=
          frame_detections video file video_start_time confidence_threshold
            frame_idx boxes first_id in
        (frame_idx, rows) ::
        frames_loop video file video_start_time frame_stride
          confidence_threshold rest (frame_idx + 1)%Z
          (first_id + N.of_nat (length rows))%N
  end.

(** [str(settings.VIDEO_STORAGE_PATH)] for the default
    [Path("./data/videos")] of [app/config.py]. *)
Definition VIDEO_STORAGE_PATH : string := "data/videos".

(** [str(settings.VIDEO_STORAGE_PATH / name)] for a plain file name, as
    the upload endpoint generates them. *)
Definition video_path_of (name : string) : string :=
  VIDEO_STORAGE_PATH +:+ "/" +:+ name.

(** [_process_video_frames]: the processed frames with their rows, or
    [FileNotFoundError].  [storage] tells which files exist under the
    storage directory and what the decoder and the detector make of them;
    the updates of [video.fps] and [video.duration_seconds] are left
    out. *)
Definition _process_video_frames (storage : string → option VideoFile)
    (video : Video) (video_start_time : datetime) (frame_stride : Z)
    (confidence_threshold : Q) (first_id : UUID)
    : result (list (Z * list Detection)) :=
  match storage (filename video) with
  | None =>
      Raise "FileNotFoundError"
        ("Video file not found: " +:+ video_path_of (filename video))
  | Some file =>
      Return
        (frames_loop video file video_start_time frame_stride
           confidence_threshold (vf_frames file) 0 first_id)
  end.

Record TaskResult : Type := mkTaskResult {
  tr_success : bool;
  tr_video_id : UUID;
  tr_events_created : Z;
  tr_processing_time : Q
}.

(** [video.attr = ..; await session.commit()] *)
Definition commit_video (db : DB G) (video : Video) : DB G :=
  mkDB
    (map (λ v, if bool_decide (video_id v = video_id video) then video else v)
       (videos db))
    (parking_slots db) (parking_lots db) (detections db)
    (occupancy_events db).

Definition add_detections (db : DB G) (rows : list Detection) : DB G :=
  mkDB (videos db) (parking_slots db) (parking_lots db)
    (detections db ++ rows) (occupancy_events db).

(** What [process_video_task] leaves behind: the outcome of the call, the
    database, and the frames that were processed. *)
Record TaskRun : Type := mkTaskRun {
  run_outcome : result TaskResult;
  run_db : DB G;
  run_frames : list Z
}.

(** [started], [finished] are the readings of [datetime.utcnow()];
    [upload_time] stands for [video.video_start_time or video.upload_time];
    [id] is [UUID(video_id)] for the canonical string [video_id] that the
    upload endpoint passes ([str(video.id)]).  The rows carry the polygons
    that [polygon_from_geojson] builds, and [storage] the answers of the
    decoder and the detector: a run in which one of these calls raises is
    not described, so that what is stated of a run that returns holds of
    the task, and a run that raises here raises in the task as well. *)
Definition process_video_task (db : DB G)
    (storage : string → option VideoFile)
    (started finished upload_time : datetime) (first_id : UUID)
    (id : UUID) (frame_stride : option Z)
    (iou_threshold confidence_threshold : option Q) : TaskRun :=
  let frame_stride := or_default_Z frame_stride FRAME_STRIDE in
  let iou_threshold := or_default_Q iou_threshold IOU_THRESHOLD in
  let confidence_threshold :=
    or_default_Q confidence_threshold CONFIDENCE_THRESHOLD in
  match select_video db id with
  | None =>
      mkTaskRun
        (Raise "ValueError" ("Video " +:+ uuid_str id +:+ " not found")) db []
  | Some video =>
      let video1 :=
        mkVideo (video_id video) (video_camera_id video) (filename video)
          (processed video) (Some started) (processing_finished_at video)
          (processing_error video) in
      let db1 := commit_video db video1 in
      let failed (exc msg : string) :=
        mkTaskRun (Raise exc msg)
          (commit_video db1
             (mkVideo (video_id video) (video_camera_id video)
                (filename video) false (Some started) (Some finished)
                (Some msg)))
          [] in
      let parking_lots := select_lots db1 (video_camera_id video) in
      let parking_slots := select_slots db1 (video_camera_id video) in
      if bool_decide (parking_slots = []) then
        failed "ValueError" "No parking slots defined for this camera"
      else
        match
          _process_video_frames storage video1 upload_time frame_stride
            confidence_threshold first_id
        with
        | Raise exc msg => failed exc msg
        | Return frames =>
            let rows := concat (frames.*2) in
            mkTaskRun
              (Return
                 (mkTaskResult true id (len rows) (finished - started)%Q))
              (commit_video (add_detections db1 rows)
                 (mkVideo (video_id video) (video_camera_id video)
                    (filename video) true (Some started) (Some finished)
                    (processing_error video)))
              (frames.*1)
        end
  end.

End pipeline.

(** ** A small installation, for the examples

    One camera looks at a lot with two adjacent slots; in the only frame
    with detections a car stands across the line between the two slots. *)

Module Example.
Import BoxKernel.

Definition camera : UUID := 1%N.

Definition slot_a : ParkingSlot kernel :=
  @mkSlot kernel 11%N camera "A1" (mkRect 0 0 0.4 0.5).

Definition slot_b : ParkingSlot kernel :=
  @mkSlot kernel 12%N camera "A2" (mkRect 0.4 0 0.8 0.5).

Definition lot : ParkingLot kernel :=
  @mkLot kernel 21%N camera "North" (mkRect 0 0 1 0.5).

Definition video : Video :=
  mkVideo 31%N camera "north.mp4" true (Some 0%Q) (Some 60%Q) None.

Definition car : Detection :=
  mkDetection 41%N 31%N camera 0 0 0 3 "car" 0.9
    (mkBBox 200 0 600 500) (mkBBox 0.2 0 0.6 0.5) None.

Definition db : DB kernel :=
  mkDB [video] [slot_a; slot_b] [lot] [car] [].

(** The same installation before the video is processed.  The stored file
    has two frames; the detector reports the car on the first one and
    nothing on the second. *)
Definition clip : VideoFile :=
  mkVideoFile 30 1000 1000 [[mkRawBox 200 0 600 500 0.9 3 None]; []].

Definition storage (name : string) : option VideoFile :=
  if String.eqb name "north.mp4" then Some clip else None.

Definition uploaded : DB kernel :=
  mkDB [mkVideo 31%N camera "north.mp4" false None None None]
    [slot_a; slot_b] [lot] [] [].

(** Processing every frame ([frame_stride = 1]). *)
Definition run : TaskRun :=
  process_video_task uploaded storage 0 60 0 41%N 31%N (Some 1%Z) None None.

(** A second camera, for which no slot has been drawn yet; one of its
    videos is marked processed, another has just been uploaded. *)
Definition bare_camera : UUID := 2%N.

Definition bare : DB kernel :=
  mkDB
    [mkVideo 32%N bare_camera "south.mp4" true (Some 0%Q) (Some 60%Q) None;
     mkVideo 33%N bare_camera "north.mp4" false None None None]
    [] [] [] [].

Definition bare_run : TaskRun :=
  process_video_task bare storage 0 60 0 41%N 33%N None None None.

End Example.

(** * Further endpoints and helpers of the cited files *)

(** ** [get_video_processing_status] (videos.py)

    [task_id] is left out of the response, as it is of [Video]. *)

Section processing_status.
Context {G : Shapely}.

Record VideoProcessingStatus : Type := mkVideoProcessingStatus {
  vps_video_id : UUID;
  vps_processed : bool;
  vps_processing_started_at : option datetime;
  vps_processing_finished_at : option datetime;
  vps_processing_error : option string;
  vps_progress_percentage : option Q
}.

Definition get_video_processing_status (db : DB G) (id : UUID)
    : result VideoProcessingStatus :=
  match select_video db id with
  | None => Raise "HTTPException" "404"
  | Some video =>
      let progress :=
        if bool_decide (is_Some (processing_started_at video))
           && negb (processed video)
        then Some 50%Q
        else if processed video then Some 100%Q
        else None in
      Return
        (mkVideoProcessingStatus (video_id video) (processed video)
           (processing_started_at video) (processing_finished_at video)
           (processing_error video) progress)
  end.

End processing_status.

(** ** [get_frame_detections] (detections.py) *)

Section frame_detections.
Context {G : Shapely}.

(** An entry of ["detections"]. *)
Record FrameDetection : Type := mkFrameDetection {
  fde_id : UUID;
  fde_class_name : string;
  fde_confidence : Q;
  fde_bbox : BBox;
  fde_bbox_normalized : BBox;
  fde_parking_slot_id : option UUID;
  fde_parking_slot_name : option string;
  fde_iou : option Q;
  fde_is_in_slot : bool
}.

(** ["occupancy"]: the two responses do not have the same keys. *)
Inductive FrameOccupancyInfo : Type :=
  | empty_frame_occupancy (occupied_slots : list UUID) (total_detections : Z)
  | frame_occupancy (occupied_slots : gset UUID)
      (occupied_count free_count : Z) (occupancy_rate : Q).

Record FrameDetectionsResponse : Type := mkFrameDetectionsResponse {
  fdr_frame_number : Z;
  fdr_frame_time : option datetime;
  fdr_offset_seconds : option Q;
  fdr_total_vehicles : Z;
  fdr_detections : list FrameDetection;
  fdr_occupancy : FrameOccupancyInfo
}.

(** The body of [for detection in detections] that builds the entry. *)
Definition frame_detection_of
    (slot_polygons : PyDict.dict UUID (Polygon G * string))
    (iou_threshold : Q) (detection : Detection) : FrameDetection :=
  let best :=
    best_slot (bbox_to_polygon (bbox_normalized detection)) slot_polygons
      iou_threshold in
  mkFrameDetection (det_id detection) (class_name detection)
    (confidence detection) (bbox detection) (bbox_normalized detection)
    (best_slot_id best) (best_slot_name best)
    (match best_slot_id best with
     | Some _ => Some (best_iou best)
     | None => None
     end)
    (bool_decide (is_Some (best_slot_id best))).

Definition get_frame_detections (db : DB G) (id : UUID) (frame : Z)
    (camera_id : UUID) (iou_threshold : Q) : FrameDetectionsResponse :=
  let detections :=
    filter (λ d, frame_number d = frame) (select_detections db id) in
  match detections with
  | [] =>
      mkFrameDetectionsResponse frame None None 0 []
        (empty_frame_occupancy [] 0)
  | first_detection :: _ =>
      let parking_slots := select_slots db camera_id in
      let slot_polygons := slot_polygons_of parking_slots in
      let detections_with_slots :=
        map (frame_detection_of slot_polygons iou_threshold) detections in
      let occupied_slot_ids :=
        occupied_slot_ids_of detections slot_polygons iou_threshold in
      mkFrameDetectionsResponse frame
        (Some (frame_time first_detection))
        (Some (offset_seconds first_detection))
        (len detections) detections_with_slots
        (frame_occupancy occupied_slot_ids
           (Z.of_nat (size occupied_slot_ids))
           (len parking_slots - Z.of_nat (size occupied_slot_ids))
           (if bool_decide (parking_slots = []) then 0
            else int_div (Z.of_nat (size occupied_slot_ids))
                   (len parking_slots)))
  end.

End frame_detections.
Arguments FrameDetectionsResponse : clear implicits.

(** ** [get_detections_by_frames] (detections.py)
    [created_at], a column the rows above leave out, is only a sort key
    here. *)

Section detections_by_frames.
Context {G : Shapely} (created_at : Detection → datetime).

Record DetectionWithSlot : Type := mkDetectionWithSlot {
  dws_detection : Detection;
  dws_created_at : datetime;
  dws_parking_slot_id : option UUID;
  dws_parking_slot_name : option string;
  dws_iou : option Q;
  dws_is_in_slot : bool
}.

Record FrameDetections : Type := mkFrameDetections {
  fds_frame_number : Z;
  fds_frame_time : datetime;
  fds_offset_seconds : Q;
  fds_detections : list DetectionWithSlot;
  fds_total_vehicles : Z
}.

(** [select(Detection.frame_number).where(..).distinct()
     .order_by(Detection.frame_number).limit(limit).offset(offset)] *)
Definition select_frame_numbers (ds : list Detection) (limit offset : Z)
    : list Z :=
  take (Z.to_nat limit)
    (drop (Z.to_nat offset)
       (py_sorted Z.leb (remove_dups (frame_number <$> ds)))).

(** [.order_by(Detection.frame_number, Detection.created_at)] *)
Definition order_by_frame_and_creation (ds : list Detection)
    : list Detection :=
  py_sorted
    (λ d e,
       (frame_number d <? frame_number e)%Z ||
       ((frame_number d =? frame_number e)%Z &&
        Qle_bool (created_at d) (created_at e)))
    ds.

Definition detection_with_slot
    (slot_polygons : PyDict.dict UUID (Polygon G * string))
    (iou_threshold : Q) (detection : Detection) : DetectionWithSlot :=
  let best :=
    best_slot (bbox_to_polygon (bbox_normalized detection)) slot_polygons
      iou_threshold in
  mkDetectionWithSlot detection (created_at detection)
    (best_slot_id best) (best_slot_name best)
    (match best_slot_id best with
     | Some _ => Some (best_iou best)
     | None => None
     end)
    (bool_decide (is_Some (best_slot_id best))).

(** [frames_data[detection.frame_number] = {..}] for a new frame. *)
Definition new_frame_detections (detection : Detection) : FrameDetections :=
  mkFrameDetections (frame_number detection) (frame_time detection)
    (offset_seconds detection) [] 0.

(** [.. ["detections"].append(detection_with_slot)] and
    [.. ["total_vehicles"] += 1] *)
Definition append_detection
    (slot_polygons : PyDict.dict UUID (Polygon G * string))
    (iou_threshold : Q) (data : FrameDetections) (detection : Detection)
    : FrameDetections :=
  mkFrameDetections (fds_frame_number data) (fds_frame_time data)
    (fds_offset_seconds data)
    (fds_detections data ++
     [detection_with_slot slot_polygons iou_threshold detection])
    (fds_total_vehicles data + 1).

Definition get_detections_by_frames (db : DB G) (id camera_id : UUID)
    (iou_threshold : Q) (limit offset : Z) : list FrameDetections :=
  let frame_numbers :=
    select_frame_numbers (select_detections db id) limit offset in
  if bool_decide (frame_numbers = []) then []
  else
    let detections :=
      order_by_frame_and_creation
        (filter (λ d, frame_number d ∈ frame_numbers)
           (select_detections db id)) in
    let slot_polygons := slot_polygons_of (select_slots db camera_id) in
    let frames_data :=
      foldl
        (group_step frame_number new_frame_detections
           (append_detection slot_polygons iou_threshold))
        [] detections in
    py_sorted (λ x y, (fds_frame_number x <=? fds_frame_number y)%Z)
      (PyDict.values frames_data).

End detections_by_frames.

(** ** The vehicle-class breakdown of [get_video_analytics] (videos.py) *)

(** A value of [vehicle_counts]. *)
Record VehicleCount : Type := mkVehicleCount {
  vc_count : Z;
  vc_total_confidence : Q
}.

(** [vehicle_counts[class_name]["count"] += 1] and
    [.. ["total_confidence"] += detection.confidence] *)
Definition count_class (data : VehicleCount) (detection : Detection)
    : VehicleCount :=
  mkVehicleCount (vc_count data + 1)
    (vc_total_confidence data + confidence detection).

(** "Aggregate by vehicle class" *)
Definition vehicle_counts_of (detections : list Detection)
    : PyDict.dict string VehicleCount :=
  foldl (group_step class_name (λ _, mkVehicleCount 0 0) count_class) []
    detections.

(** An item of ["vehicle_breakdown"]. *)
Record VehicleBreakdown : Type := mkVehicleBreakdown {
  vb_class_name : string;
  vb_count : Z;
  vb_percentage : Q;
  vb_avg_confidence : Q
}.

(** The comprehension over
    [sorted(vehicle_counts.items(), key=lambda x: x[1]["count"],
    reverse=True)]. *)
Definition vehicle_breakdown_of (detections : list Detection)
    (total_detections : Z) : list VehicleBreakdown :=
  map (λ '(class_name, data),
         mkVehicleBreakdown class_name (vc_count data)
           (py_round (int_div (vc_count data) total_detections * 100) 1)
           (py_round (vc_total_confidence data / inject_Z (vc_count data))
              2))
    (py_sorted (λ x y, (vc_count y.2 <=? vc_count x.2)%Z)
       (PyDict.items (vehicle_counts_of detections))).

(** ** [debug_slot_lot_mapping] (videos.py) *)

Section debug_mapping.
Context {G : Shapely}.

(** An item of ["lot_matches"]. *)
Record LotMatch : Type := mkLotMatch {
  lm_lot_id : UUID;
  lm_lot_name : string;
  lm_iou : Q;
  lm_coverage : Q;
  lm_meets_threshold : bool
}.

(** An item of ["slot_mapping"]. *)
Record SlotInfo : Type := mkSlotInfo {
  si_slot_id : UUID;
  si_slot_name : string;
  si_slot_polygon : Polygon G;
  si_lot_matches : list LotMatch
}.

(** The two shapes of the response. *)
Inductive DebugMapping : Type :=
  | debug_error (error : string)
  | debug_mapping (camera_id : UUID) (total_lots total_slots : Z)
      (lots : list (UUID * string * Polygon G))
      (slot_mapping : list SlotInfo).

(** The body of [for lot_id, (lot_poly, lot_name) in lot_polygons.items()].
    The intersection is computed outside of any [try]: [None] is the
    exception leaving the endpoint. *)
Definition lot_match_of (slot_poly : Polygon G)
    (item : UUID * (Polygon G * string)) : option LotMatch :=
  let '(lot_id, (lot_poly, lot_name)) := item in
  let iou := calculate_iou slot_poly lot_poly in
  intersection ← intersection_area G slot_poly lot_poly;
  let coverage :=
    if Qgtb (area G slot_poly) 0
    then (intersection / area G slot_poly)%Q else 0%Q in
  Some (mkLotMatch lot_id lot_name (py_round iou 4) (py_round coverage 4)
          (Qgeb coverage 0.5)).

(** The body of [for slot in parking_slots], with the final
    [.sort(key=lambda x: x["iou"], reverse=True)]. *)
Definition slot_info_of
    (lot_polygons : PyDict.dict UUID (Polygon G * string))
    (slot : ParkingSlot G) : option SlotInfo :=
  lot_matches ←
    mapM (lot_match_of (slot_polygon slot)) (PyDict.items lot_polygons);
  Some (mkSlotInfo (slot_id slot) (slot_name slot) (slot_polygon slot)
          (py_sorted (λ x y, Qgeb (lm_iou x) (lm_iou y)) lot_matches)).

Definition debug_slot_lot_mapping (db : DB G) (camera_id : UUID)
    : result DebugMapping :=
  let parking_lots := select_lots db camera_id in
  let parking_slots := select_slots db camera_id in
  if bool_decide (parking_lots = []) then
    Return (debug_error "No parking lots found for this camera")
  else if bool_decide (parking_slots = []) then
    Return (debug_error "No parking slots found for this camera")
  else
    let lot_polygons := lot_polygons_of parking_lots in
    match mapM (slot_info_of lot_polygons) parking_slots with
    | Some results =>
        Return
          (debug_mapping camera_id (len parking_lots) (len parking_slots)
             (map (λ lot, (lot_id lot, lot_name lot, lot_polygon lot))
                parking_lots)
             results)
    | None => Raise "GEOSException" "intersection"
    end.

End debug_mapping.
Arguments SlotInfo : clear implicits.
Arguments DebugMapping : clear implicits.

(** ** Areas in double precision: [calculate_iou] and [check_containment]

    Shapely returns an area as a double, and the two functions divide such
    areas.  To follow what happens when an area leaves the range of the
    doubles, a float is here a rational number, an infinity or NaN.  The
    range is that of IEEE 754 binary64; the rounding of a number within the
    range is not modelled: it is kept as it is, in lowest terms. *)

Module PyFloat.
Local Open Scope Q_scope.

Inductive float : Type :=
  | finite (q : Q)
  | inf
  | neg_inf
  | nan.

(** A number of magnitude [2^1024 - 2^970] or more rounds to an
    infinity. *)
Definition overflow_threshold : Q := inject_Z (2 ^ 1024 - 2 ^ 970).
Arguments overflow_threshold : simpl never.

Definition of_Q (q : Q) : float :=
  if Qle_bool overflow_threshold q then inf
  else if Qle_bool q (- overflow_threshold) then neg_inf
  else finite (Qred q).

(** [x > 0], [x == 0] and [x >= y] for a number [y]; a comparison with NaN
    is false. *)
Definition gt0 (x : float) : bool :=
  match x with
  | finite q => Qgtb q 0
  | inf => true
  | neg_inf | nan => false
  end.

Definition eq0 (x : float) : bool :=
  match x with
  | finite q => Qeq_bool q 0
  | inf | neg_inf | nan => false
  end.

Definition geb (x : float) (y : Q) : bool :=
  match x with
  | finite q => Qgeb q y
  | inf => true
  | neg_inf | nan => false
  end.

(** [x / y]: [None] is the [ZeroDivisionError] of a zero divisor. *)
Definition div (x y : float) : option float :=
  match y with
  | finite d =>
      if Qeq_bool d 0 then None
      else
        Some (match x with
              | finite n => of_Q (n / d)
              | inf => if Qgtb d 0 then inf else neg_inf
              | neg_inf => if Qgtb d 0 then neg_inf else inf
              | nan => nan
              end)
  | inf | neg_inf =>
      Some (match x with
            | finite _ => finite 0
            | inf | neg_inf | nan => nan
            end)
  | nan => Some nan
  end.

(** The part of Shapely the two functions call, with areas as floats;
    [None] is a GEOS exception. *)
Record Shapely : Type := {
  Polygon : Type;
  area : Polygon → float;
  intersection_area : Polygon → Polygon → option float;
  union_area : Polygon → Polygon → option float
}.

Section geometry.
Context (G : Shapely).

Definition calculate_iou (poly1 poly2 : Polygon G) : float :=
  try_except
    (intersection ← intersection_area G poly1 poly2;
     union ← union_area G poly1 poly2;
     if gt0 union then div intersection union else Some (finite 0))
    (finite 0).

Definition check_containment (slot_poly lot_poly : Polygon G)
    (threshold : Q) : bool :=
  try_except
    (intersection ← intersection_area G slot_poly lot_poly;
     let slot_area := area G slot_poly in
     if eq0 slot_area then Some false
     else
       coverage ← div intersection slot_area;
       Some (geb coverage threshold))
    false.

End geometry.

Arguments calculate_iou {G} poly1 poly2.
Arguments check_containment {G} slot_poly lot_poly threshold.

(** The rectangles of [BoxKernel]: the overlay is exact and the area of its
    result is converted to a double. *)
Definition box_kernel : Shapely := {|
  Polygon := BoxKernel.Rect;
  area := λ r, of_Q (BoxKernel.rect_area r);
  intersection_area := λ a b, Some (of_Q (BoxKernel.rect_inter a b));
  union_area := λ a b,
    Some (of_Q (BoxKernel.rect_area a + BoxKernel.rect_area b
                - BoxKernel.rect_inter a b))
|}.



End PyFloat.

(** * Properties *)

(** ** The occupancy tracker *)

Section tracker_facts.
Import Tracker.

Lemma window_after_lookup t sid b :
  state (update t sid b).2 !! sid = Some (window_after t sid b).
Proof. unfold update; simpl. by rewrite lookup_insert_eq. Qed.

Lemma update_other_slot t sid sid' b :
  sid ≠ sid' → state (update t sid b).2 !! sid' = state t !! sid'.
Proof. intros Hne. unfold update; simpl. by rewrite lookup_insert_ne. Qed.

Lemma update_confirm_frames t sid b :
  confirm_frames (update t sid b).2 = confirm_frames t.
Proof. reflexivity. Qed.

(** [update] answers ["occupied"] exactly when the window it leaves behind
    is full and all true, whatever it answered before. *)
Lemma update_occupied_iff t sid b :
  (update t sid b).1 = Some "occupied"%string ↔
  Z.of_nat (length (window_after t sid b)) = confirm_frames t ∧
  all (window_after t sid b) = true.
Proof.
  unfold update, verdict; simpl.
  destruct (Z.eqb_spec (Z.of_nat (length (window_after t sid b)))
              (confirm_frames t)) as [Hlen|Hlen].
  - destruct (all (window_after t sid b)); [by split|].
    destruct (negb (any (window_after t sid b)));
      (split; [done | by intros [_ ?]]).
  - split; [done | by intros [? _]].
Qed.

(** A slot whose window is already full and all true answers ["occupied"]
    again on the next true sample: the answer does not depend on the status
    confirmed before. *)
Lemma update_occupied_again t sid w :
  state t !! sid = Some w →
  Z.of_nat (length w) = confirm_frames t →
  (0 < confirm_frames t)%Z →
  all w = true →
  (update t sid true).1 = Some "occupied"%string.
Proof.
  intros Hw Hlen Hpos Hall. apply update_occupied_iff.
  unfold window_after. rewrite Hw; simpl.
  rewrite length_app; simpl.
  destruct (Z.gtb_spec (Z.of_nat (length w + 1)) (confirm_frames t)); [|lia].
  destruct w as [|b w]; simpl in *; [lia|].
  rewrite length_app; simpl. split; [lia|].
  unfold all in *. rewrite forallb_app. simpl in Hall.
  apply andb_prop in Hall as [_ ->]. done.
Qed.

(** C1 (the code departs from the claim): with [confirm_frames = 3] the
    samples [true, true, true, false, true, true, true] of one slot make
    [update] return ["occupied"] on the third call and again on the seventh,
    twice in all and never ["free"], although the status confirmed by the
    first six calls was ["occupied"] already; likewise a fourth [true] in a row returns
    ["occupied"] a second time. *)
Theorem update_duplicates_occupied :
  (feed (init 3) 7%N [true; true; true; false; true; true; true]).1
    = [None; None; Some "occupied"%string; None; None; None;
       Some "occupied"%string] ∧
  emitted "occupied"
    (feed (init 3) 7%N [true; true; true; false; true; true; true]).1 = 2 ∧
  emitted "free"
    (feed (init 3) 7%N [true; true; true; false; true; true; true]).1 = 0 ∧
  confirmed (feed (init 3) 7%N [true; true; true; false; true; true]).1
    = Some "occupied"%string ∧
  (feed (init 3) 7%N [true; true; true; true]).1
    = [None; None; Some "occupied"%string; Some "occupied"%string].
Proof. by vm_compute. Qed.

End tracker_facts.

(** ** Float comparisons *)

Lemma Qgeb_ge x y : Qgeb x y = true ↔ (y <= x)%Q.
Proof. apply Qle_bool_iff. Qed.

Lemma Qgtb_gt x y : Qgtb x y = true ↔ (y < x)%Q.
Proof.
  unfold Qgtb. rewrite negb_true_iff, <- not_true_iff_false, Qle_bool_iff.
  split; [apply Qnot_le_lt | apply Qlt_not_le].
Qed.

Lemma Qgtb_le x y : Qgtb x y = false ↔ (x <= y)%Q.
Proof.
  unfold Qgtb. rewrite negb_false_iff. apply Qle_bool_iff.
Qed.

Lemma Qgeb_lt x y : Qgeb x y = false ↔ (x < y)%Q.
Proof.
  unfold Qgeb. rewrite <- not_true_iff_false, Qle_bool_iff.
  split; [apply Qnot_le_lt | apply Qlt_not_le].
Qed.

(** ** The rectangle kernel satisfies the laws *)

Section box_kernel_facts.
Import BoxKernel.
Local Open Scope Q_scope.

Ltac minmax_specs :=
  repeat match goal with
  | |- context [Qmax ?a ?b] =>
      lazymatch goal with
      | _ : _ ∧ Qmax a b == _ |- _ => fail
      | _ => destruct (Q.max_spec a b) as [?|?]
      end
  | |- context [Qmin ?a ?b] =>
      lazymatch goal with
      | _ : _ ∧ Qmin a b == _ |- _ => fail
      | _ => destruct (Q.min_spec a b) as [?|?]
      end
  end.

Ltac minmax_cases :=
  minmax_specs;
  repeat match goal with H : _ ∧ _ |- _ => destruct H end.

Lemma span_nonneg a1 a2 : 0 <= span a1 a2.
Proof. unfold span. minmax_cases; lra. Qed.

Lemma overlap_nonneg a1 a2 b1 b2 : 0 <= overlap a1 a2 b1 b2.
Proof. unfold overlap. apply Q.le_max_l. Qed.

Lemma overlap_le_span a1 a2 b1 b2 : overlap a1 a2 b1 b2 <= span a1 a2.
Proof. unfold overlap, span. minmax_cases; lra. Qed.

Lemma overlap_comm a1 a2 b1 b2 : overlap a1 a2 b1 b2 == overlap b1 b2 a1 a2.
Proof.
  unfold overlap.
  rewrite (Q.min_comm (Qmax a1 a2)), (Q.max_comm (Qmin a1 a2)). reflexivity.
Qed.

Lemma overlap_self a1 a2 : overlap a1 a2 a1 a2 == span a1 a2.
Proof. unfold overlap, span. minmax_cases; lra. Qed.

Lemma rect_area_nonneg r : 0 <= rect_area r.
Proof. apply Qmult_le_0_compat; apply span_nonneg. Qed.

Lemma rect_inter_nonneg a b : 0 <= rect_inter a b.
Proof. apply Qmult_le_0_compat; apply overlap_nonneg. Qed.

Lemma rect_inter_le_area a b : rect_inter a b <= rect_area a.
Proof.
  apply Qmult_le_compat_nonneg;
    (split; [apply overlap_nonneg | apply overlap_le_span]).
Qed.

Lemma rect_inter_comm a b : rect_inter a b == rect_inter b a.
Proof.
  unfold rect_inter.
  rewrite (overlap_comm (minx a)), (overlap_comm (miny a)). reflexivity.
Qed.

Lemma rect_inter_self a : rect_inter a a == rect_area a.
Proof. unfold rect_inter, rect_area. by rewrite !overlap_self. Qed.

Lemma kernel_laws : ShapelyLaws kernel.
Proof.
  split; simpl.
  - intros a. rewrite Qred_correct. apply rect_area_nonneg.
  - intros a b i [= <-]. rewrite Qred_correct. apply rect_inter_nonneg.
  - intros a b i [= <-]. rewrite !Qred_correct. apply rect_inter_le_area.
  - intros a b i u [= <-] [= <-]. rewrite !Qred_correct.
    pose proof (rect_inter_le_area a b).
    pose proof (rect_inter_le_area b a) as Hb.
    rewrite (rect_inter_comm b a) in Hb.
    pose proof (rect_inter_nonneg a b). lra.
  - intros a b. f_equal. apply Qred_complete, rect_inter_comm.
  - intros a b. f_equal. apply Qred_complete.
    rewrite (rect_inter_comm a b). ring.
Qed.

(** A rectangle overlaid with itself: both areas are the area of the
    rectangle. *)
Lemma kernel_self_overlay (a : Polygon kernel) :
  intersection_area kernel a a = Some (area kernel a) ∧
  union_area kernel a a = Some (area kernel a).
Proof.
  simpl. split; f_equal; apply Qred_complete.
  - apply rect_inter_self.
  - rewrite rect_inter_self. ring.
Qed.

End box_kernel_facts.

(** ** IoU and containment *)

Section geometry_facts.
Context (G : Shapely).
Local Open Scope Q_scope.

Lemma calculate_iou_unfold (a b : Polygon G) :
  calculate_iou a b =
  match intersection_area G a b, union_area G a b with
  | Some i, Some u => if Qgtb u 0 then i / u else 0
  | _, _ => 0
  end.
Proof.
  unfold calculate_iou, try_except.
  destruct (intersection_area G a b); simpl; [|done].
  by destruct (union_area G a b).
Qed.

Lemma check_containment_unfold (a b : Polygon G) thr :
  check_containment a b thr =
  match intersection_area G a b with
  | Some i => if Qeq_bool (area G a) 0 then false else Qgeb (i / area G a) thr
  | None => false
  end.
Proof.
  unfold check_containment, try_except.
  destruct (intersection_area G a b); simpl; [|done].
  by destruct (Qeq_bool (area G a) 0).
Qed.

(** [check_containment] answers [True] exactly when the overlay succeeded,
    the slot has a non-zero area and the covered fraction reaches the
    threshold. *)
Lemma check_containment_true_iff (a b : Polygon G) thr :
  check_containment a b thr = true ↔
  ∃ i, intersection_area G a b = Some i ∧ ¬ area G a == 0 ∧
       thr <= i / area G a.
Proof.
  rewrite check_containment_unfold.
  destruct (intersection_area G a b) as [i|].
  - destruct (Qeq_bool (area G a) 0) eqn:Hz.
    + apply Qeq_bool_iff in Hz. split; [done|].
      by intros (? & _ & Hnz & _).
    + apply Qeq_bool_neq in Hz. rewrite Qgeb_ge. split.
      * intros Hle. by exists i.
      * by intros (? & [= <-] & _ & Hle).
  - split; [done|]. by intros (? & ? & _).
Qed.

Lemma check_containment_coverage (a b : Polygon G) thr :
  check_containment a b thr = true → thr <= coverage a b.
Proof.
  rewrite check_containment_true_iff. intros (i & Hi & Hnz & Hle).
  unfold coverage. rewrite Hi.
  destruct (Qeq_bool (area G a) 0) eqn:Hz; [|done].
  by apply Qeq_bool_iff in Hz.
Qed.

Lemma ratio_in_unit i u : 0 <= i → i <= u → 0 < u → 0 <= i / u <= 1.
Proof.
  intros Hi Hiu Hu. split.
  - apply Qle_shift_div_l; [done|]. lra.
  - apply Qle_shift_div_r; [done|]. lra.
Qed.

Context `{!ShapelyLaws G}.

Lemma calculate_iou_in_unit (a b : Polygon G) : 0 <= calculate_iou a b <= 1.
Proof.
  rewrite calculate_iou_unfold.
  destruct (intersection_area G a b) as [i|] eqn:Hi; [|lra].
  destruct (union_area G a b) as [u|] eqn:Hu; [|lra].
  destruct (Qgtb u 0) eqn:Hpos; [|lra].
  apply Qgtb_gt in Hpos.
  apply ratio_in_unit; [by eapply intersection_nonneg| |done].
  by eapply intersection_le_union.
Qed.

Lemma coverage_in_unit (a b : Polygon G) : 0 <= coverage a b <= 1.
Proof.
  unfold coverage.
  destruct (intersection_area G a b) as [i|] eqn:Hi; [|lra].
  destruct (Qeq_bool (area G a) 0) eqn:Hz; [lra|].
  apply Qeq_bool_neq in Hz. pose proof (area_nonneg a).
  apply ratio_in_unit; [by eapply intersection_nonneg| |lra].
  by eapply intersection_le_area.
Qed.

Lemma calculate_iou_sym (a b : Polygon G) :
  calculate_iou a b = calculate_iou b a.
Proof.
  rewrite !calculate_iou_unfold.
  by rewrite (intersection_comm a b), (union_comm a b).
Qed.

End geometry_facts.

(** ** The slot matcher *)

Section matcher_facts.
Context {G : Shapely}.
Local Open Scope Q_scope.

Lemma best_of_init (det : Polygon G) thr : best_of det thr [] best_init.
Proof.
  unfold best_of; simpl. split; [done|]. split; [done|].
  intros item Hin. by apply elem_of_nil in Hin.
Qed.

Lemma not_reaching_le (x best thr : Q) :
  ¬ (best < x ∧ thr <= x) → thr <= best → x <= best.
Proof.
  intros Hno Hthr.
  destruct (Qlt_le_dec best x) as [Hlt|Hle]; [|done].
  destruct (Qlt_le_dec x thr) as [Ht|Ht]; [lra|]. by destruct Hno.
Qed.

Lemma not_reaching_lt (x y thr : Q) :
  ¬ (0 < x ∧ thr <= x) → 0 < y → thr <= y → x < y.
Proof.
  intros Hno Hy Hthr.
  destruct (Qlt_le_dec 0 x) as [Hp|Hp]; [|lra].
  destruct (Qlt_le_dec x thr) as [Ht|Ht]; [lra|]. by destruct Hno.
Qed.

Lemma best_of_step (det : Polygon G) thr items best item :
  best_of det thr items best →
  best_of det thr (items ++ [item]) (best_step det thr best item).
Proof.
  destruct item as [sid [poly name]]. unfold best_of, best_step.
  set (iou := calculate_iou det poly).
  destruct (Qgtb iou (best_iou best) && Qgeb iou thr) eqn:Hcond.
  - apply andb_prop in Hcond as [Hgt Hge].
    apply Qgtb_gt in Hgt. apply Qgeb_ge in Hge. simpl.
    destruct (best_slot_id best) as [old|].
    + intros (_ & Hthr & Hpos & Hmax).
      split; [|split; [done|split; [lra|]]].
      * exists items, poly, name, []. split; [done|]. split; [done|].
        split; [done|].
        intros it Hit. specialize (Hmax it Hit). lra.
      * intros it [Hit | ->%list_elem_of_singleton]%elem_of_app.
        -- specialize (Hmax it Hit). lra.
        -- simpl. fold iou. lra.
    + intros (_ & Hzero & Hnone). rewrite Hzero in Hgt.
      split; [|split; [done|split; [done|]]].
      * exists items, poly, name, []. split; [done|]. split; [done|].
        split; [done|].
        intros it Hit. by eapply not_reaching_lt; [apply Hnone| |].
      * intros it [Hit | ->%list_elem_of_singleton]%elem_of_app.
        -- apply Qlt_le_weak.
           by eapply not_reaching_lt; [apply Hnone| |].
        -- simpl. fold iou. lra.
  - assert (Hno : ¬ (best_iou best < iou ∧ thr <= iou)).
    { intros [Hgt%Qgtb_gt Hge%Qgeb_ge]. by rewrite Hgt, Hge in Hcond. }
    destruct (best_slot_id best) as [old|].
    + intros ((pre & p & n & post & -> & Hname & Hiou & Hpre)
              & Hthr & Hpos & Hmax).
      split; [|split; [done|split; [done|]]].
      * exists pre, p, n, (post ++ [(sid, (poly, name))]).
        by rewrite <- app_assoc.
      * intros it [Hit | ->%list_elem_of_singleton]%elem_of_app;
          [by apply Hmax|].
        simpl. fold iou. by eapply not_reaching_le.
    + intros (Hname & Hzero & Hnone). split; [done|]. split; [done|].
      intros it [Hit | ->%list_elem_of_singleton]%elem_of_app;
        [by apply Hnone|].
      simpl. fold iou. by rewrite Hzero in Hno.
Qed.

Lemma best_of_foldl (det : Polygon G) thr items :
  best_of det thr items (foldl (best_step det thr) best_init items).
Proof.
  induction items as [|item items IH] using rev_ind.
  - apply best_of_init.
  - rewrite foldl_app. simpl. by apply best_of_step.
Qed.

End matcher_facts.

(** C3: the best-slot loop returns, when it returns a slot, an item of the
    mapping whose IoU with the detection is at least the threshold, is
    positive, is at least the IoU of every slot of the mapping and is
    strictly greater than the IoU of every slot iterated before it; it
    returns no slot exactly when no slot has a positive IoU that reaches
    the threshold. *)
Theorem best_slot_greatest (G : Shapely) (detection_polygon : Polygon G)
    (slot_polygons : PyDict.dict UUID (Polygon G * string))
    (iou_threshold : Q) :
  best_of detection_polygon iou_threshold (PyDict.items slot_polygons)
    (best_slot detection_polygon slot_polygons iou_threshold).
Proof. apply best_of_foldl. Qed.

(** ** Insertion-ordered dictionaries *)

Section pydict_facts.
Context {K V : Type} `{EqDecision K}.
Implicit Types (d : PyDict.dict K V) (k : K) (v : V).

Lemma get_setitem_eq d k v : PyDict.get (PyDict.setitem d k v) k = Some v.
Proof.
  induction d as [|[k' v'] d IH]; simpl.
  - by rewrite decide_True.
  - destruct (decide (k = k')) as [->|Hne]; simpl.
    + by rewrite decide_True.
    + by rewrite decide_False.
Qed.

Lemma get_setitem_ne d k k' v :
  k ≠ k' → PyDict.get (PyDict.setitem d k v) k' = PyDict.get d k'.
Proof.
  intros Hne. induction d as [|[k0 v0] d IH]; simpl.
  - by rewrite decide_False.
  - destruct (decide (k = k0)) as [->|Hne0]; simpl.
    + by rewrite !decide_False.
    + by rewrite IH.
Qed.

Lemma get_None_keys d k : PyDict.get d k = None ↔ k ∉ PyDict.keys d.
Proof.
  unfold PyDict.keys. induction d as [|[k' v'] d IH]; simpl.
  - split; [intros _; apply not_elem_of_nil | done].
  - rewrite not_elem_of_cons. destruct (decide (k = k')) as [->|Hne].
    + split; [done | by intros [? _]].
    + rewrite IH. split; [done | by intros [_ ?]].
Qed.

Lemma get_Some_elem_of d k v : PyDict.get d k = Some v → (k, v) ∈ d.
Proof.
  induction d as [|[k' v'] d IH]; simpl; [done|].
  destruct (decide (k = k')) as [->|Hne].
  - intros [= ->]. apply list_elem_of_here.
  - intros Hg. apply list_elem_of_further. by apply IH.
Qed.

Lemma elem_of_get d k v :
  NoDup (PyDict.keys d) → (k, v) ∈ d → PyDict.get d k = Some v.
Proof.
  unfold PyDict.keys. induction d as [|[k' v'] d IH]; simpl.
  - intros _ Hin. by apply elem_of_nil in Hin.
  - intros [Hnotin Hnd]%NoDup_cons [Heq | Hin]%elem_of_cons.
    + injection Heq as -> ->. by rewrite decide_True.
    + destruct (decide (k = k')) as [->|Hne]; [|by apply IH].
      exfalso. apply Hnotin. apply list_elem_of_fmap. by exists (k', v).
Qed.

Lemma keys_setitem_in d k v :
  k ∈ PyDict.keys d → PyDict.keys (PyDict.setitem d k v) = PyDict.keys d.
Proof.
  unfold PyDict.keys. induction d as [|[k' v'] d IH].
  - intros Hin. by apply elem_of_nil in Hin.
  - cbn [PyDict.setitem]. rewrite fmap_cons. intros Hin.
    destruct (decide (k = k')) as [->|Hne]; rewrite fmap_cons; [done|].
    apply elem_of_cons in Hin as [?|Hin]; [done|]. f_equal. by apply IH.
Qed.

Lemma setitem_fresh d k v :
  k ∉ PyDict.keys d → PyDict.setitem d k v = d ++ [(k, v)].
Proof.
  unfold PyDict.keys. induction d as [|[k' v'] d IH]; [done|].
  rewrite fmap_cons. intros [Hne Hnotin]%not_elem_of_cons.
  cbn [PyDict.setitem]. rewrite decide_False by done.
  by rewrite IH.
Qed.

Lemma keys_setitem d k v :
  PyDict.keys (PyDict.setitem d k v) =
  if decide (k ∈ PyDict.keys d) then PyDict.keys d else PyDict.keys d ++ [k].
Proof.
  destruct (decide (k ∈ PyDict.keys d)) as [Hin|Hnotin].
  - by apply keys_setitem_in.
  - rewrite setitem_fresh by done. unfold PyDict.keys. by rewrite fmap_app.
Qed.

Lemma keys_setitem_NoDup d k v :
  NoDup (PyDict.keys d) → NoDup (PyDict.keys (PyDict.setitem d k v)).
Proof.
  intros Hnd. rewrite keys_setitem. case_decide; [done|].
  apply NoDup_app. split; [done|]. split.
  - intros x Hx [->|Hin]%elem_of_cons; [done|].
    by apply elem_of_nil in Hin.
  - apply NoDup_singleton.
Qed.

Lemma of_items_app_fresh (acc kvs : list (K * V)) :
  NoDup ((acc ++ kvs).*1) →
  foldl (λ d kv, PyDict.setitem d kv.1 kv.2) acc kvs = acc ++ kvs.
Proof.
  revert acc. induction kvs as [|[k v] kvs IH]; intros acc Hnd; simpl.
  - by rewrite app_nil_r.
  - rewrite setitem_fresh.
    + rewrite IH; rewrite <- app_assoc; done.
    + rewrite fmap_app in Hnd. apply NoDup_app in Hnd as (_ & Hdisj & _).
      intros Hin. apply (Hdisj k Hin). simpl. apply list_elem_of_here.
Qed.

(** A comprehension over distinct keys is the list of its items. *)
Lemma of_items_NoDup (kvs : list (K * V)) :
  NoDup (kvs.*1) → PyDict.of_items kvs = kvs.
Proof. intros Hnd. unfold PyDict.of_items. by rewrite of_items_app_fresh. Qed.

End pydict_facts.

(** ** Occupied slots of a frame *)

Section occupied_facts.
Context {G : Shapely}.
Implicit Types (sp : PyDict.dict UUID (Polygon G * string)).
Implicit Types (occ : gset UUID) (sid : UUID).

Lemma elem_of_mark_slots (det : Polygon G) sp thr occ sid :
  sid ∈ mark_slots det sp thr occ ↔
  sid ∈ occ ∨
  ∃ poly name, (sid, (poly, name)) ∈ PyDict.items sp ∧
               (thr <= calculate_iou det poly)%Q.
Proof.
  unfold mark_slots, PyDict.items. revert occ.
  induction sp as [|[k [p n]] sp IH]; intros occ; simpl.
  - split; [by left|]. intros [?|(? & ? & Hin & _)]; [done|].
    by apply elem_of_nil in Hin.
  - rewrite IH. destruct (Qgeb (calculate_iou det p) thr) eqn:Hge.
    + apply Qgeb_ge in Hge. rewrite elem_of_union, elem_of_singleton. split.
      * intros [[->|?]|(poly & name & Hin & Hle)]; [|by left|].
        -- right. exists p, n. split; [apply list_elem_of_here|done].
        -- right. exists poly, name.
           split; [by apply list_elem_of_further|done].
      * intros [?|(poly & name & [Heq|Hin]%elem_of_cons & Hle)].
        -- by left; right.
        -- injection Heq as -> -> ->. by left; left.
        -- right. by exists poly, name.
    + apply Qgeb_lt in Hge. split.
      * intros [?|(poly & name & Hin & Hle)]; [by left|].
        right. exists poly, name.
        split; [by apply list_elem_of_further|done].
      * intros [?|(poly & name & [Heq|Hin]%elem_of_cons & Hle)].
        -- by left.
        -- injection Heq as -> -> ->.
           exfalso. by apply (Qlt_not_le _ _ Hge).
        -- right. by exists poly, name.
Qed.

Lemma occupied_slots_foldl (dets : list Detection) sp thr occ sid :
  sid ∈ foldl
          (λ occ detection,
             mark_slots (bbox_to_polygon (bbox_normalized detection))
               sp thr occ)
          occ dets ↔
  sid ∈ occ ∨
  ∃ d poly name,
    d ∈ dets ∧ (sid, (poly, name)) ∈ PyDict.items sp ∧
    (thr <= calculate_iou (bbox_to_polygon (bbox_normalized d)) poly)%Q.
Proof.
  revert occ. induction dets as [|d dets IH]; intros occ; simpl.
  - split; [by left|]. intros [?|(? & ? & ? & Hin & _)]; [done|].
    by apply elem_of_nil in Hin.
  - rewrite IH, elem_of_mark_slots. split.
    + intros [[?|(poly & name & Hin & Hle)]|(d' & poly & name & Hd & Hin & Hle)].
      * by left.
      * right. exists d, poly, name. split; [apply list_elem_of_here|done].
      * right. exists d', poly, name.
        split; [by apply list_elem_of_further|done].
    + intros [?|(d' & poly & name & [->|Hd]%elem_of_cons & Hin & Hle)].
      * by left; left.
      * left; right. by exists poly, name.
      * right. by exists d', poly, name.
Qed.

(** A slot is marked exactly when some detection reaches the threshold with
    it. *)
Lemma elem_of_occupied_slots_of (dets : list Detection) sp thr sid :
  sid ∈ occupied_slots_of dets sp thr ↔
  ∃ d poly name,
    d ∈ dets ∧ (sid, (poly, name)) ∈ PyDict.items sp ∧
    (thr <= calculate_iou (bbox_to_polygon (bbox_normalized d)) poly)%Q.
Proof.
  unfold occupied_slots_of. rewrite occupied_slots_foldl.
  split; [|by right]. by intros [?%not_elem_of_empty|?].
Qed.

(** Marked slots are keys of the mapping. *)
Lemma occupied_slots_of_keys (dets : list Detection) sp thr :
  occupied_slots_of dets sp thr ⊆ list_to_set (PyDict.keys sp).
Proof.
  intros sid (d & poly & name & _ & Hin & _)%elem_of_occupied_slots_of.
  apply elem_of_list_to_set. unfold PyDict.keys.
  apply list_elem_of_fmap. by exists (sid, (poly, name)).
Qed.

End occupied_facts.

(** ** Grouping by key *)

Section grouping_facts.
Context {A K V : Type} `{EqDecision K}.
Context (key : A → K) (init : A → V) (upd : V → A → V).

Lemma group_get (xs : list A) (k : K) :
  PyDict.get (foldl (group_step key init upd) [] xs) k =
  match filter (λ x, key x = k) xs with
  | [] => None
  | x0 :: rest => Some (foldl upd (upd (init x0) x0) rest)
  end.
Proof.
  induction xs as [|x xs IH] using rev_ind; [done|].
  rewrite foldl_app, filter_app. simpl. unfold group_step at 1.
  rewrite filter_cons, filter_nil.
  destruct (decide (key x = k)) as [<-|Hne].
  - rewrite get_setitem_eq, IH.
    destruct (filter (λ x0, key x0 = key x) xs) as [|x0 rest]; simpl; [done|].
    by rewrite foldl_app.
  - rewrite get_setitem_ne by done. by rewrite app_nil_r.
Qed.

Lemma group_keys_NoDup (xs : list A) :
  NoDup (PyDict.keys (foldl (group_step key init upd) [] xs)).
Proof.
  induction xs as [|x xs IH] using rev_ind; [apply NoDup_nil_2|].
  rewrite foldl_app. simpl. by apply keys_setitem_NoDup.
Qed.

Lemma group_keys_elem_of (xs : list A) (k : K) :
  k ∈ PyDict.keys (foldl (group_step key init upd) [] xs) ↔
  ∃ x, x ∈ xs ∧ key x = k.
Proof.
  destruct (decide (k ∈ PyDict.keys (foldl (group_step key init upd) [] xs)))
    as [Hin|Hnotin].
  - split; [intros _|done].
    destruct (PyDict.get (foldl (group_step key init upd) [] xs) k) eqn:Hget.
    + rewrite group_get in Hget.
      destruct (filter (λ x, key x = k) xs) as [|x0 rest] eqn:Hf; [done|].
      assert (Hx : x0 ∈ filter (λ x, key x = k) xs)
        by (rewrite Hf; apply list_elem_of_here).
      apply list_elem_of_filter in Hx as [? ?]. by exists x0.
    + by apply get_None_keys in Hget.
  - split; [done|]. intros (x & Hx & Hk). exfalso.
    apply get_None_keys in Hnotin. rewrite group_get in Hnotin.
    assert (Hf : x ∈ filter (λ x, key x = k) xs)
      by (by apply list_elem_of_filter).
    destruct (filter (λ x, key x = k) xs); [|done].
    by apply elem_of_nil in Hf.
Qed.

(** The values of a dictionary are the values of its keys, in order. *)
Lemma values_as_keys (d : PyDict.dict K V) :
  NoDup (PyDict.keys d) →
  Some <$> PyDict.values d = PyDict.get d <$> PyDict.keys d.
Proof.
  unfold PyDict.values, PyDict.keys.
  induction d as [|[k v] d IH]; [done|].
  rewrite !fmap_cons. intros [Hnotin Hnd]%NoDup_cons. simpl.
  rewrite decide_True by done. f_equal.
  rewrite IH by done. apply list_fmap_ext.
  intros i k' Hi. simpl. rewrite decide_False; [done|].
  intros ->. apply Hnotin. by eapply list_elem_of_lookup_2.
Qed.

End grouping_facts.

(** ** The stable sort *)

Section py_sorted_facts.
Context {A : Type} (before : A → A → bool).

Lemma insert_sorted_Permutation x l : insert_sorted before x l ≡ₚ x :: l.
Proof.
  induction l as [|y l IH]; simpl; [done|].
  destruct (before x y); [done|]. rewrite IH. apply Permutation_swap.
Qed.

Lemma py_sorted_Permutation l : py_sorted before l ≡ₚ l.
Proof.
  induction l as [|x l IH]; simpl; [done|].
  by rewrite insert_sorted_Permutation, IH.
Qed.

Lemma elem_of_py_sorted x l : x ∈ py_sorted before l ↔ x ∈ l.
Proof. by rewrite py_sorted_Permutation. Qed.

Lemma length_py_sorted l : length (py_sorted before l) = length l.
Proof. by rewrite py_sorted_Permutation. Qed.

Hypothesis before_total : ∀ x y, before x y = true ∨ before y x = true.
Hypothesis before_trans :
  ∀ x y z, before x y = true → before y z = true → before x z = true.

Lemma insert_sorted_StronglySorted x l :
  StronglySorted (λ a b, before a b = true) l →
  StronglySorted (λ a b, before a b = true) (insert_sorted before x l).
Proof.
  induction 1 as [|y l Hsorted IH Hall]; simpl.
  - repeat constructor.
  - destruct (before x y) eqn:Hxy.
    + constructor; [by constructor|]. constructor; [done|].
      eapply Forall_impl; [exact Hall|]. intros z Hyz. by eapply before_trans.
    + constructor; [done|].
      rewrite insert_sorted_Permutation. constructor; [|done].
      by destruct (before_total x y) as [Hc|Hc]; [rewrite Hc in Hxy|].
Qed.

Lemma py_sorted_StronglySorted l :
  StronglySorted (λ a b, before a b = true) (py_sorted before l).
Proof.
  induction l as [|x l IH]; simpl; [constructor|].
  by apply insert_sorted_StronglySorted.
Qed.

End py_sorted_facts.

(** Sorted by a key without repetition is strictly sorted. *)
Lemma StronglySorted_le_NoDup (l : list Z) :
  StronglySorted Z.le l → NoDup l → StronglySorted Z.lt l.
Proof.
  induction 1 as [|x l Hsorted IH Hall]; [constructor|].
  intros [Hnotin Hnd]%NoDup_cons. constructor; [by apply IH|].
  apply Forall_forall. intros y Hy.
  rewrite Forall_forall in Hall. specialize (Hall y Hy).
  assert (x ≠ y) by (by intros ->). lia.
Qed.

Lemma StronglySorted_mono {A : Type} (R R' : A → A → Prop) (l : list A) :
  (∀ x y, R x y → R' x y) → StronglySorted R l → StronglySorted R' l.
Proof.
  intros HR. induction 1 as [|x l Hsorted IH Hall]; [constructor|].
  constructor; [done|]. eapply Forall_impl; [exact Hall|]. apply HR.
Qed.

Lemma StronglySorted_fmap {A B : Type} (f : A → B) (R : B → B → Prop)
    (l : list A) :
  StronglySorted (λ a b, R (f a) (f b)) l → StronglySorted R (f <$> l).
Proof.
  induction 1 as [|x l Hsorted IH Hall]; [constructor|].
  rewrite fmap_cons. constructor; [done|]. by apply Forall_fmap.
Qed.

(** ** The occupancy timeline of [get_occupancy_stats] *)

Section timeline_facts.
Context {G : Shapely}.
Implicit Types (sp : PyDict.dict UUID (Polygon G * string)) (thr : Q).

Lemma foldl_count_detection sp thr e (ds : list Detection) :
  foldl (count_detection sp thr) e ds =
  mkFrameOccupancy (fo_frame_number e) (fo_frame_time e)
    (foldl
       (λ occ d,
          mark_slots (bbox_to_polygon (bbox_normalized d)) sp thr occ)
       (fo_occupied_slots e) ds)
    (fo_detections e + len ds).
Proof.
  revert e. induction ds as [|d ds IH]; intros e.
  - destruct e. unfold len. simpl. f_equal. lia.
  - simpl. rewrite IH. unfold count_detection, len. simpl. f_equal. lia.
Qed.

(** The entry of a frame: its number, the slots reached by the detections
    of the frame and how many these are. *)
Lemma frame_occupancy_entry (dets : list Detection) sp thr f e :
  PyDict.get (frame_occupancy_of dets sp thr) f = Some e →
  filter (λ d, frame_number d = f) dets ≠ [] ∧
  fo_frame_number e = f ∧
  fo_occupied_slots e =
    occupied_slots_of (filter (λ d, frame_number d = f) dets) sp thr ∧
  fo_detections e = len (filter (λ d, frame_number d = f) dets).
Proof.
  unfold frame_occupancy_of. rewrite group_get.
  destruct (filter (λ d, frame_number d = f) dets) as [|d0 rest] eqn:Hf;
    [done|].
  intros [= <-]. split; [done|].
  change (foldl (count_detection sp thr)
            (count_detection sp thr (new_frame_occupancy d0) d0) rest)
    with (foldl (count_detection sp thr) (new_frame_occupancy d0)
            (d0 :: rest)).
  rewrite foldl_count_detection. simpl. split; [|split; [done|lia]].
  assert (Hd0 : d0 ∈ filter (λ d, frame_number d = f) dets)
    by (rewrite Hf; apply list_elem_of_here).
  by apply list_elem_of_filter in Hd0 as [? _].
Qed.

Lemma frame_occupancy_item (dets : list Detection) sp thr f e :
  (f, e) ∈ PyDict.items (frame_occupancy_of dets sp thr) →
  PyDict.get (frame_occupancy_of dets sp thr) f = Some e.
Proof. apply elem_of_get, group_keys_NoDup. Qed.

Lemma frame_occupancy_numbers (dets : list Detection) sp thr :
  fo_frame_number <$> PyDict.values (frame_occupancy_of dets sp thr) =
  PyDict.keys (frame_occupancy_of dets sp thr).
Proof.
  unfold PyDict.values, PyDict.keys. rewrite <- list_fmap_compose.
  apply list_fmap_ext. intros i [f e] Hi. simpl.
  apply list_elem_of_lookup_2, frame_occupancy_item in Hi.
  by apply frame_occupancy_entry in Hi as (_ & ? & _).
Qed.

Lemma order_by_frame_number_Permutation (ds : list Detection) :
  order_by_frame_number ds ≡ₚ ds.
Proof. apply py_sorted_Permutation. Qed.

End timeline_facts.

Section occupancy_stats_facts.
Context {G : Shapely}.
Implicit Types (db : DB G) (thr : Q).

(** What an entry of the timeline of [get_occupancy_stats] holds: the
    counts of the detections of one frame that has some. *)
Lemma timeline_entry db vid cam thr e :
  e ∈ os_timeline (get_occupancy_stats db vid cam thr) →
  let ds :=
    filter (λ d, frame_number d = te_frame_number e)
      (order_by_frame_number (select_detections db vid)) in
  ds ≠ [] ∧
  te_total_detections e = len ds ∧
  te_occupied_slots e =
    Z.of_nat
      (size (occupied_slots_of ds (slot_polygons_of (select_slots db cam))
               thr)).
Proof.
  unfold get_occupancy_stats. cbn [os_timeline].
  intros (fd & -> & Hfd)%list_elem_of_fmap. cbn [te_frame_number
    te_total_detections te_occupied_slots].
  apply elem_of_py_sorted in Hfd. unfold PyDict.values in Hfd.
  apply list_elem_of_fmap in Hfd as ([f fd'] & -> & Hitem). simpl.
  apply frame_occupancy_item, frame_occupancy_entry in Hitem
    as (Hne & -> & -> & ->).
  done.
Qed.

Lemma timeline_frame_numbers db vid cam thr :
  te_frame_number <$> os_timeline (get_occupancy_stats db vid cam thr) ≡ₚ
  PyDict.keys
    (frame_occupancy_of (order_by_frame_number (select_detections db vid))
       (slot_polygons_of (select_slots db cam)) thr).
Proof.
  unfold get_occupancy_stats. cbn [os_timeline].
  rewrite <- list_fmap_compose.
  change (te_frame_number ∘ _) with fo_frame_number.
  rewrite py_sorted_Permutation. by rewrite frame_occupancy_numbers.
Qed.



End occupancy_stats_facts.

(** ** The timeline of [get_video_analytics] *)

Section analytics_timeline_facts.
Context {G : Shapely}.
Implicit Types (sp : PyDict.dict UUID (Polygon G * string)) (thr : Q).

Lemma foldl_count_vehicle sp thr data (ds : list Detection) :
  foldl (count_vehicle sp thr) data ds =
  mkFrameData (fd_frame_number data) (fd_frame_time data)
    (fd_offset_seconds data)
    (foldl
       (λ occ d,
          mark_slots (bbox_to_polygon (bbox_normalized d)) sp thr occ)
       (fd_occupied_slots data) ds)
    (fd_total_vehicles data + len ds).
Proof.
  revert data. induction ds as [|d ds IH]; intros data.
  - destruct data. unfold len. simpl. f_equal. lia.
  - simpl. rewrite IH. unfold count_vehicle, len. simpl. f_equal. lia.
Qed.

Lemma frame_data_entry (dets : list Detection) sp thr f data :
  PyDict.get (frame_data_of dets sp thr) f = Some data →
  filter (λ d, frame_number d = f) dets ≠ [] ∧
  fd_frame_number data = f ∧
  fd_occupied_slots data =
    occupied_slots_of (filter (λ d, frame_number d = f) dets) sp thr ∧
  fd_total_vehicles data = len (filter (λ d, frame_number d = f) dets).
Proof.
  unfold frame_data_of. rewrite group_get.
  destruct (filter (λ d, frame_number d = f) dets) as [|d0 rest] eqn:Hf;
    [done|].
  intros [= <-]. split; [done|].
  change (foldl (count_vehicle sp thr)
            (count_vehicle sp thr (new_frame_data d0) d0) rest)
    with (foldl (count_vehicle sp thr) (new_frame_data d0) (d0 :: rest)).
  rewrite foldl_count_vehicle. simpl. split; [|split; [done|lia]].
  assert (Hd0 : d0 ∈ filter (λ d, frame_number d = f) dets)
    by (rewrite Hf; apply list_elem_of_here).
  by apply list_elem_of_filter in Hd0 as [? _].
Qed.

Lemma elem_of_last_n {A : Type} (n : nat) (l : list A) x :
  x ∈ last_n n l → x ∈ l.
Proof.
  unfold last_n. intros Hx. eapply elem_of_sublist; [exact Hx|].
  apply sublist_drop.
Qed.

(** Every frame of the analytics timeline holds at least one detection. *)
Lemma analytics_timeline_entry (dets : list Detection) sp thr total e :
  e ∈ analytics_timeline total (frame_data_of dets sp thr) →
  filter (λ d, frame_number d = af_frame_number e) dets ≠ [] ∧
  af_total_vehicles e =
    len (filter (λ d, frame_number d = af_frame_number e) dets).
Proof.
  unfold analytics_timeline, sorted_frames.
  intros (data & -> & Hdata)%list_elem_of_fmap. simpl.
  apply list_elem_of_omap in Hdata as (f & _ & Hget).
  by apply frame_data_entry in Hget as (? & -> & _ & ->).
Qed.

End analytics_timeline_facts.

(** ** The endpoints *)

Ltac by_compute := apply (bool_decide_unpack _); vm_compute; exact I.

Section endpoint_facts.
Context {G : Shapely}.
Implicit Types (db : DB G) (thr : Q).

(** The response of [get_current_parking_status] on its last path. *)
Lemma get_current_parking_status_ok db cam thr video latest_frame :
  latest_processed_video db cam = Some video →
  select_slots db cam ≠ [] →
  max_frame_number (select_detections db (video_id video))
    = Some latest_frame →
  let occupied_slots :=
    occupied_slots_of
      (filter (λ d, frame_number d = latest_frame)
         (select_detections db (video_id video)))
      (slot_polygons_of (select_slots db cam)) thr in
  let total_slots := len (select_slots db cam) in
  get_current_parking_status db cam thr =
  mkCurrentStatus cam "ok" None (Some (video_id video))
    (processing_finished_at video) (Some latest_frame)
    (map (λ slot,
            mkSlotStatus (slot_id slot) (slot_name slot)
              (if bool_decide (slot_id slot ∈ occupied_slots)
               then "occupied" else "free")
              (Some (slot_polygon slot)))
       (select_slots db cam))
    (mkSummary total_slots (Z.of_nat (size occupied_slots))
       (total_slots - Z.of_nat (size occupied_slots))
       (if (total_slots >? 0)%Z
        then py_round (int_div (Z.of_nat (size occupied_slots)) total_slots) 2
        else 0%Q)).
Proof.
  intros Hvideo Hslots Hframe. unfold get_current_parking_status.
  rewrite Hvideo. rewrite bool_decide_false by done. by rewrite Hframe.
Qed.

Lemma occupied_slots_of_nil (dets : list Detection) thr :
  occupied_slots_of (G := G) dets [] thr = ∅.
Proof.
  apply set_eq. intros sid. rewrite elem_of_occupied_slots_of.
  split; [|by intros ?%not_elem_of_empty].
  intros (? & ? & ? & _ & Hin & _). by apply elem_of_nil in Hin.
Qed.

End endpoint_facts.

(** What the loop of the per-frame aggregation computes: a detection is
    compared with every slot and marks each slot whose IoU with it reaches
    the threshold, so that a slot counts as occupied in a frame exactly
    when some detection of the frame reaches the threshold with it, both in
    the latest-frame status and in every entry of the occupancy
    timeline. *)
Theorem slot_occupied_iff_reached (G : Shapely) (db : DB G)
    (vid cam : UUID) (iou_threshold : Q) :
  let slot_polygons := slot_polygons_of (select_slots db cam) in
  (∀ (frame : list Detection) sid,
     sid ∈ occupied_slots_of frame slot_polygons iou_threshold ↔
     ∃ d poly name,
       d ∈ frame ∧ (sid, (poly, name)) ∈ PyDict.items slot_polygons ∧
       (iou_threshold
        <= calculate_iou (bbox_to_polygon (bbox_normalized d)) poly)%Q) ∧
  (∀ e,
     e ∈ os_timeline
           (get_occupancy_stats db vid cam iou_threshold) →
     te_occupied_slots e =
       Z.of_nat
         (size
            (occupied_slots_of
               (filter (λ d, frame_number d = te_frame_number e)
                  (order_by_frame_number (select_detections db vid)))
               slot_polygons iou_threshold))) ∧
  (∀ video latest_frame,
     latest_processed_video db cam = Some video →
     select_slots db cam ≠ [] →
     max_frame_number (select_detections db (video_id video))
       = Some latest_frame →
     sum_occupied
       (cs_summary (get_current_parking_status db cam iou_threshold)) =
       Z.of_nat
         (size
            (occupied_slots_of
               (filter (λ d, frame_number d = latest_frame)
                  (select_detections db (video_id video)))
               slot_polygons iou_threshold))).
Proof.
  split; [|split].
  - intros frame sid. apply elem_of_occupied_slots_of.
  - intros e He. by apply timeline_entry in He as (_ & _ & ->).
  - intros video latest_frame Hvideo Hslots Hframe.
    by rewrite (get_current_parking_status_ok _ _ _ _ _ Hvideo Hslots Hframe).
Qed.

(** The single detection of the example frame marks both slots, in the
    latest-frame status and in the timeline. *)
Lemma one_detection_marks_two_slots :
  length (detections Example.db) = 1 ∧
  ¬ (size
       (occupied_slots_of (detections Example.db)
          (slot_polygons_of (parking_slots Example.db)) 0.3) ≤ 1) ∧
  sum_occupied
    (cs_summary
       (get_current_parking_status Example.db Example.camera 0.3)) = 2%Z ∧
  (λ e, (te_total_detections e, te_occupied_slots e)) <$>
    os_timeline (get_occupancy_stats Example.db 31%N Example.camera 0.3)
    = [(1, 2)%Z].
Proof.
  split; [done|]. split; [|split]; [by_compute | by vm_compute..].
Qed.

(** The same frame seen by [get_frame_detections]: the car is given to the
    first of the two slots, the only one marked. *)
Lemma frame_detections_marks_one_slot :
  occupied_slot_ids_of (detections Example.db)
    (slot_polygons_of (parking_slots Example.db)) 0.3 = {[11%N]}.
Proof. by_compute. Qed.



Section commit_facts.
Context {G : Shapely}.

Lemma select_video_id (db : DB G) id video :
  select_video db id = Some video → video_id video = id.
Proof.
  unfold select_video. intros Hhead%head_Some_elem_of.
  by apply list_elem_of_filter in Hhead as [? _].
Qed.

(** A committed video is the one later selected under its identifier. *)
Lemma select_video_commit (db : DB G) video :
  is_Some (select_video db (video_id video)) →
  select_video (commit_video db video) (video_id video) = Some video.
Proof.
  unfold select_video, commit_video. cbn [videos].
  induction (videos db) as [|v vs IH]; [by intros [? ?]|].
  rewrite fmap_cons, !filter_cons.
  destruct (decide (video_id v = video_id video)) as [Hv|Hv].
  - intros _. rewrite bool_decide_true by done. by rewrite decide_True.
  - intros Hrest. rewrite bool_decide_false by done.
    rewrite decide_False by done. by apply IH.
Qed.

End commit_facts.

(** C4 (amended): for a camera without slots the current-status endpoint
    answers with a [no_data] or [no_slots] variant (no slot, all counts
    zero), the occupancy statistics report zero slots and a zero rate for
    every frame, and the video-processing task raises [ValueError] and
    records the failure on the video. *)
Theorem no_slots_outcomes (G : Shapely) (db : DB G) (cam : UUID)
    (Hnone : select_slots db cam = []) :
  (∀ thr,
     let r := get_current_parking_status db cam thr in
     (cs_status r = "no_data"%string ∨ cs_status r = "no_slots"%string) ∧
     cs_slots r = [] ∧ cs_summary r = mkSummary 0 0 0 0) ∧
  (∀ vid thr,
     let r := get_occupancy_stats db vid cam thr in
     os_total_slots r = 0%Z ∧
     ∀ e, e ∈ os_timeline r →
          te_total_slots e = 0%Z ∧ te_occupied_slots e = 0%Z ∧
          te_occupancy_rate e = 0%Q) ∧
  (∀ storage started finished upload_time first_id id stride iou conf video,
     select_video db id = Some video → video_camera_id video = cam →
     let run :=
       process_video_task db storage started finished upload_time first_id
         id stride iou conf in
     run_outcome run =
       Raise "ValueError" "No parking slots defined for this camera" ∧
     run_frames run = [] ∧
     ∃ failed, select_video (run_db run) id = Some failed ∧
               processed failed = false ∧
               processing_error failed =
                 Some "No parking slots defined for this camera"%string).
Proof.
  split; [|split].
  - intros thr. unfold get_current_parking_status.
    destruct (latest_processed_video db cam); [|by auto].
    rewrite Hnone. simpl. by auto.
  - intros vid thr. split; [unfold get_occupancy_stats; by rewrite Hnone|].
    intros e He. pose proof (timeline_entry _ _ _ _ _ He) as (_ & _ & Hocc).
    rewrite Hnone in Hocc.
    change (slot_polygons_of []) with (@nil (UUID * (Polygon G * string)))
      in Hocc.
    rewrite occupied_slots_of_nil, size_empty in Hocc.
    revert He. unfold get_occupancy_stats. cbn [os_timeline]. rewrite Hnone.
    intros (fd & -> & _)%list_elem_of_fmap. simpl in *. by rewrite Hocc.
  - intros storage started finished upload_time first_id id stride iou conf
      video Hvideo Hcam. subst cam.
    unfold process_video_task. rewrite Hvideo.
    change (select_slots (commit_video db ?v) ?c) with (select_slots db c).
    rewrite Hnone. simpl. split; [done|]. split; [done|].
    pose proof (select_video_id _ _ _ Hvideo) as Hid.
    exists (mkVideo (video_id video) (video_camera_id video) (filename video)
              false (Some started) (Some finished)
              (Some "No parking slots defined for this camera"%string)).
    split; [|done]. rewrite <- Hid.
    apply (select_video_commit (commit_video db _)
             (mkVideo (video_id video) _ _ _ _ _ _)).
    simpl. rewrite (select_video_commit db (mkVideo (video_id video) _ _ _ _ _ _));
      [done|]. simpl. rewrite Hid. by rewrite Hvideo.
Qed.

Lemma no_slots_outcomes_witness :
  cs_status (get_current_parking_status Example.bare Example.bare_camera 0.3)
    = "no_slots"%string ∧
  run_outcome Example.bare_run =
    Raise "ValueError" "No parking slots defined for this camera".
Proof.
  destruct (no_slots_outcomes BoxKernel.kernel Example.bare
              Example.bare_camera eq_refl) as (Hstatus & _ & Hrun).
  split.
  - destruct (Hstatus 0.3%Q) as ([Hs|Hs] & _); [by vm_compute in Hs|exact Hs].
  - refine (proj1 (Hrun Example.storage 0%Q 60%Q 0%Q 41%N 33%N None None None
             (mkVideo 33%N Example.bare_camera "north.mp4" false None None
                None) eq_refl eq_refl)).
Defined.

(** C4, the claim as stated fails: the task started for the uploaded video
    of the camera without slots raises. *)
Lemma pipeline_raises_without_slots :
  select_slots Example.bare Example.bare_camera = [] ∧
  run_outcome Example.bare_run =
    Raise "ValueError" "No parking slots defined for this camera" ∧
  ¬ (∃ r, run_outcome Example.bare_run = Return r).
Proof.
  split; [done|]. split; [by vm_compute|].
  intros [r Hr]. by vm_compute in Hr.
Qed.

(** ** Slot to lot membership *)

Section membership_facts.
Context {G : Shapely}.
Implicit Types (lots : list (ParkingLot G)) (slots : list (ParkingSlot G)).
Implicit Types (m : gmap UUID UUID) (occ : gset UUID).

(** For a positive threshold, [check_containment] compares the covered
    fraction with the threshold. *)
Lemma check_containment_eq_coverage (a b : Polygon G) (thr : Q) :
  (0 < thr)%Q → check_containment a b thr = Qgeb (coverage a b) thr.
Proof.
  intros Hpos. rewrite check_containment_unfold. unfold coverage.
  assert (Hzero : Qgeb 0 thr = false) by (by apply Qgeb_lt).
  destruct (intersection_area G a b); [|done].
  by destruct (Qeq_bool (area G a) 0).
Qed.

Lemma lot_polygons_of_NoDup lots :
  NoDup (lot_id <$> lots) →
  lot_polygons_of lots =
  (λ lot, (lot_id lot, (lot_polygon lot, lot_name lot))) <$> lots.
Proof.
  intros Hnd. unfold lot_polygons_of. apply of_items_NoDup.
  by rewrite <- list_fmap_compose.
Qed.

Lemma first_containing_lot_find lots (slot_poly : Polygon G) :
  NoDup (lot_id <$> lots) →
  first_containing_lot slot_poly (lot_polygons_of lots) =
  lot_id <$>
    List.find (λ lot, Qgeb (coverage slot_poly (lot_polygon lot)) 0.5) lots.
Proof.
  intros Hnd. rewrite lot_polygons_of_NoDup by done.
  unfold first_containing_lot, PyDict.items. clear Hnd.
  induction lots as [|lot lots IH]; [done|].
  rewrite fmap_cons. simpl.
  rewrite check_containment_eq_coverage by done.
  by destruct (Qgeb (coverage slot_poly (lot_polygon lot)) 0.5).
Qed.

Lemma slot_to_lot_map_dom slots lp k l :
  slot_to_lot_map_of slots lp !! k = Some l → k ∈ slot_id <$> slots.
Proof.
  unfold slot_to_lot_map_of.
  induction slots as [|slot slots IH] using rev_ind.
  - simpl. by rewrite lookup_empty.
  - rewrite foldl_app, fmap_app, elem_of_app. simpl.
    destruct (first_containing_lot (slot_polygon slot) lp) as [l'|];
      [|by left; apply IH].
    destruct (decide (slot_id slot = k)) as [<-|Hne].
    + intros _. right. apply list_elem_of_here.
    + rewrite lookup_insert_ne by done. left. by apply IH.
Qed.

Lemma slot_to_lot_map_lookup slots lp slot :
  NoDup (slot_id <$> slots) → slot ∈ slots →
  slot_to_lot_map_of slots lp !! slot_id slot =
  first_containing_lot (slot_polygon slot) lp.
Proof.
  induction slots as [|s slots IH] using rev_ind.
  - intros _ Hin. by apply elem_of_nil in Hin.
  - rewrite fmap_app. intros (Hnd & Hdisj & _)%NoDup_app.
    assert (Hfresh : slot_id s ∉ slot_id <$> slots).
    { intros Hin. apply (Hdisj _ Hin). apply list_elem_of_here. }
    unfold slot_to_lot_map_of. rewrite foldl_app. simpl.
    fold (slot_to_lot_map_of slots lp).
    intros [Hin | ->%list_elem_of_singleton]%elem_of_app.
    + assert (slot_id s ≠ slot_id slot).
      { intros Heq. apply Hfresh. rewrite Heq.
        apply list_elem_of_fmap. by exists slot. }
      destruct (first_containing_lot (slot_polygon s) lp).
      * rewrite lookup_insert_ne by done. by apply IH.
      * by apply IH.
    + destruct (first_containing_lot (slot_polygon s) lp) as [l|] eqn:Hfirst.
      * by rewrite lookup_insert_eq.
      * destruct (slot_to_lot_map_of slots lp !! slot_id s) as [l|] eqn:Hl;
          [|done].
        by apply slot_to_lot_map_dom in Hl.
Qed.

Lemma lot_data_step_keys m occ (d : PyDict.dict UUID LotData)
    (slot : ParkingSlot G) :
  PyDict.keys (lot_data_step m occ d slot) = PyDict.keys d.
Proof.
  unfold lot_data_step. destruct (m !! slot_id slot) as [l|]; [|done].
  destruct (PyDict.get d l) as [data|] eqn:Hget; [|done].
  apply keys_setitem_in. destruct (decide (l ∈ PyDict.keys d)); [done|].
  by rewrite (proj2 (get_None_keys d l)) in Hget.
Qed.

Lemma lot_data_foldl_keys m occ slots (d : PyDict.dict UUID LotData) :
  PyDict.keys (foldl (lot_data_step m occ) d slots) = PyDict.keys d.
Proof.
  revert d. induction slots as [|slot slots IH]; intros d; [done|].
  simpl. by rewrite IH, lot_data_step_keys.
Qed.

(** The counters of a lot after the loop over the slots. *)
Lemma lot_data_foldl m occ slots (d : PyDict.dict UUID LotData) k data :
  PyDict.get d k = Some data →
  PyDict.get (foldl (lot_data_step m occ) d slots) k =
  Some
    (mkLotData (ld_name data)
       (ld_capacity data
        + len (filter (λ slot, m !! slot_id slot = Some k) slots))
       (ld_occupied data
        + len (filter
                 (λ slot, m !! slot_id slot = Some k ∧ slot_id slot ∈ occ)
                 slots))).
Proof.
  revert d data. induction slots as [|slot slots IH]; intros d data Hget.
  - simpl. rewrite Hget. destruct data. unfold len. simpl.
    do 2 f_equal; lia.
  - simpl. rewrite !filter_cons. unfold lot_data_step at 2.
    destruct (m !! slot_id slot) as [l|] eqn:Hl.
    + destruct (decide (l = k)) as [->|Hne].
      * rewrite Hget. erewrite IH by apply get_setitem_eq.
        rewrite decide_True by done. simpl.
        destruct (decide (slot_id slot ∈ occ)) as [Hocc|Hocc].
        -- rewrite bool_decide_true, decide_True by done.
           unfold len. simpl. do 2 f_equal; lia.
        -- rewrite bool_decide_false by done.
           rewrite decide_False by (by intros [_ ?]).
           unfold len. simpl. do 2 f_equal; lia.
      * rewrite decide_False by congruence.
        rewrite decide_False by (intros [? _]; congruence).
        destruct (PyDict.get d l) as [data'|]; [|by apply IH].
        apply IH. by rewrite get_setitem_ne.
    + rewrite decide_False by done.
      rewrite decide_False by (by intros [? _]). by apply IH.
Qed.

Lemma lot_data_init lots lot :
  NoDup (lot_id <$> lots) → lot ∈ lots →
  PyDict.get
    (PyDict.of_items
       ((λ lot, (lot_id lot, mkLotData (lot_name lot) 0 0)) <$> lots))
    (lot_id lot) = Some (mkLotData (lot_name lot) 0 0).
Proof.
  intros Hnd Hin. rewrite of_items_NoDup by (by rewrite <- list_fmap_compose).
  apply elem_of_get.
  - unfold PyDict.keys. by rewrite <- list_fmap_compose.
  - apply list_elem_of_fmap. by exists lot.
Qed.

End membership_facts.

(** C6: every slot is mapped to the first lot, in the order of the lots,
    that covers at least half of it, and to that lot only; the capacity of
    a lot counts the slots mapped to it and its occupancy those of them
    that are occupied; a slot that no lot covers by half is not mapped and
    changes the counters of no lot. *)
Theorem slots_resolve_to_first_lot (G : Shapely)
    (parking_lots : list (ParkingLot G))
    (parking_slots : list (ParkingSlot G)) (occupied_slots : gset UUID)
    (Hlots : NoDup (lot_id <$> parking_lots))
    (Hslots : NoDup (slot_id <$> parking_slots)) :
  let slot_to_lot_map :=
    slot_to_lot_map_of parking_slots (lot_polygons_of parking_lots) in
  let lot_data :=
    lot_data_of parking_lots parking_slots slot_to_lot_map occupied_slots in
  (∀ slot, slot ∈ parking_slots →
     slot_to_lot_map !! slot_id slot =
     lot_id <$>
       List.find
         (λ lot, Qgeb (coverage (slot_polygon slot) (lot_polygon lot)) 0.5)
         parking_lots) ∧
  PyDict.keys lot_data = lot_id <$> parking_lots ∧
  (∀ lot, lot ∈ parking_lots →
     PyDict.get lot_data (lot_id lot) =
     Some
       (mkLotData (lot_name lot)
          (len (filter
                  (λ slot, slot_to_lot_map !! slot_id slot = Some (lot_id lot))
                  parking_slots))
          (len (filter
                  (λ slot,
                     slot_to_lot_map !! slot_id slot = Some (lot_id lot) ∧
                     slot_id slot ∈ occupied_slots)
                  parking_slots)))) ∧
  (∀ slot, slot ∈ parking_slots →
     slot_to_lot_map !! slot_id slot = None →
     (∀ lot, lot ∈ parking_lots →
        (coverage (slot_polygon slot) (lot_polygon lot) < 0.5)%Q) ∧
     ∀ d, lot_data_step slot_to_lot_map occupied_slots d slot = d).
Proof.
  intros slot_to_lot_map lot_data.
  assert (Hmap : ∀ slot, slot ∈ parking_slots →
     slot_to_lot_map !! slot_id slot =
     lot_id <$>
       List.find
         (λ lot, Qgeb (coverage (slot_polygon slot) (lot_polygon lot)) 0.5)
         parking_lots).
  { intros slot Hin. unfold slot_to_lot_map.
    rewrite slot_to_lot_map_lookup by done.
    by apply first_containing_lot_find. }
  split; [done|]. split; [|split].
  - unfold lot_data, lot_data_of. rewrite lot_data_foldl_keys.
    rewrite of_items_NoDup by (by rewrite <- list_fmap_compose).
    unfold PyDict.keys. by rewrite <- list_fmap_compose.
  - intros lot Hin. unfold lot_data, lot_data_of.
    erewrite lot_data_foldl by (by apply lot_data_init). simpl.
    unfold len. do 2 f_equal; lia.
  - intros slot Hin Hnone. split.
    + intros lot Hlot. rewrite Hmap in Hnone by done.
      apply fmap_None in Hnone. apply Qgeb_lt.
      destruct (Qgeb (coverage (slot_polygon slot) (lot_polygon lot)) 0.5)
        eqn:Hge; [|done].
      apply list_elem_of_In in Hlot.
      by apply (find_none _ _ Hnone) in Hlot; rewrite Hge in Hlot.
    + intros d. unfold lot_data_step. by rewrite Hnone.
Qed.

Lemma slots_resolve_to_first_lot_witness :
  slot_to_lot_map_of (parking_slots Example.db)
    (lot_polygons_of (parking_lots Example.db)) !! 11%N = Some 21%N ∧
  PyDict.get
    (lot_data_of (parking_lots Example.db) (parking_slots Example.db)
       (slot_to_lot_map_of (parking_slots Example.db)
          (lot_polygons_of (parking_lots Example.db)))
       {[11%N]})
    21%N = Some (mkLotData "North" 2 1).
Proof.
  assert (Hlots : NoDup (lot_id <$> parking_lots Example.db)) by by_compute.
  assert (Hslots : NoDup (slot_id <$> parking_slots Example.db))
    by by_compute.
  destruct (slots_resolve_to_first_lot BoxKernel.kernel _ _ {[11%N]}
              Hlots Hslots) as (Hmap & _ & Hdata & _).
  split.
  - etrans; [exact (Hmap Example.slot_a (list_elem_of_here _ _))|].
    by vm_compute.
  - etrans; [exact (Hdata Example.lot (list_elem_of_here _ _))|].
    by vm_compute.
Defined.

(** ** Status labels of the lot rollups *)

Section label_facts.
Local Open Scope Q_scope.

Lemma lot_status_label_cases (rate : Q) :
  (0.95 <= rate → lot_status_label rate = "full"%string) ∧
  (0.7 <= rate < 0.95 → lot_status_label rate = "busy"%string) ∧
  (0.3 <= rate < 0.7 → lot_status_label rate = "moderate"%string) ∧
  (rate < 0.3 → lot_status_label rate = "free"%string).
Proof.
  unfold lot_status_label.
  destruct (Qgeb rate 0.95) eqn:H95;
    [apply Qgeb_ge in H95 | apply Qgeb_lt in H95];
  (destruct (Qgeb rate 0.7) eqn:H7;
    [apply Qgeb_ge in H7 | apply Qgeb_lt in H7]);
  (destruct (Qgeb rate 0.3) eqn:H3;
    [apply Qgeb_ge in H3 | apply Qgeb_lt in H3]);
  repeat split; intros; try done; lra.
Qed.

Lemma rate_label_cases (rate : Q) :
  (0.7 < rate → rate_label rate = "busy"%string) ∧
  (0.3 < rate <= 0.7 → rate_label rate = "moderate"%string) ∧
  (rate <= 0.3 → rate_label rate = "free"%string) ∧
  rate_label rate ≠ "full"%string.
Proof.
  unfold rate_label.
  destruct (Qgtb rate 0.7) eqn:H7;
    [apply Qgtb_gt in H7 | apply Qgtb_le in H7];
  (destruct (Qgtb rate 0.3) eqn:H3;
    [apply Qgtb_gt in H3 | apply Qgtb_le in H3]);
  repeat split; intros; try done; lra.
Qed.

End label_facts.

Section rollup_facts.
Context {G : Shapely}.

Lemma lots_status_entries (db : DB G) cam thr entry :
  entry ∈ lots_lots (get_lots_parking_status db cam thr) →
  ls_status entry = None ∨ ∃ item, entry = lot_status_of item.
Proof.
  unfold get_lots_parking_status.
  destruct (latest_processed_video db cam) as [video|];
    [|by intros ?%elem_of_nil].
  destruct (bool_decide (select_lots db cam = []));
    [by intros ?%elem_of_nil|].
  destruct (max_frame_number (select_detections db (video_id video))).
  - cbn [lots_lots]. intros Hin%elem_of_py_sorted.
    apply list_elem_of_fmap in Hin as (item & -> & _). right. by exists item.
  - cbn [lots_lots]. intros (lot & -> & _)%list_elem_of_fmap. by left.
Qed.

(** The lots of the response on the last path of
    [get_lots_parking_status]: one item per item of [lot_data]. *)
Lemma get_lots_parking_status_ok (db : DB G) cam thr video latest_frame :
  latest_processed_video db cam = Some video →
  select_lots db cam ≠ [] →
  max_frame_number (select_detections db (video_id video))
    = Some latest_frame →
  lots_lots (get_lots_parking_status db cam thr) =
  py_sorted (λ x y, Qgeb (ls_occupancy_rate x) (ls_occupancy_rate y))
    (map lot_status_of
       (PyDict.items
          (lot_data_of (select_lots db cam) (select_slots db cam)
             (slot_to_lot_map_of (select_slots db cam)
                (lot_polygons_of (select_lots db cam)))
             (occupied_slots_of
                (filter (λ d, frame_number d = latest_frame)
                   (select_detections db (video_id video)))
                (slot_polygons_of (select_slots db cam)) thr)))).
Proof.
  intros Hvideo Hlots Hframe. unfold get_lots_parking_status.
  rewrite Hvideo. rewrite bool_decide_false by done. by rewrite Hframe.
Qed.

Lemma lot_statistics_entries (lots : list (ParkingLot G))
    (lot_occupancy : gmap UUID LotOccupancy) (total_frames : Z) entry :
  entry ∈ lot_statistics_of lots lot_occupancy total_frames →
  ∃ d, lot_occupancy !! lst_lot_id entry = Some d ∧
       (0 < lo_total_slots d)%Z ∧
       lst_occupancy_rate entry = py_round (lot_rate d total_frames) 2 ∧
       lst_status entry = rate_label (lot_rate d total_frames).
Proof.
  unfold lot_statistics_of. intros Hin%elem_of_py_sorted.
  apply list_elem_of_omap in Hin as (lot & _ & Hsome).
  destruct (lot_occupancy !! lot_id lot) as [d|] eqn:Hd; [|done].
  simpl in Hsome. destruct (Z.gtb_spec (lo_total_slots d) 0); [|done].
  injection Hsome as <-. exists d. simpl. split; [done|]. split; [lia|done].
Qed.

End rollup_facts.

(** The labels of the two lot rollups: the lots-status rollup labels a lot
    from its occupancy rate as [full] from 0.95, [busy] from 0.7,
    [moderate] from 0.3 and [free] below; the lot rollup of the video
    analytics labels a lot [busy] above 0.7, [moderate] above 0.3 and
    [free] otherwise, and never [full]. *)
Theorem lot_rollup_labels (G : Shapely) :
  (∀ (db : DB G) cam thr entry,
     entry ∈ lots_lots (get_lots_parking_status db cam thr) →
     ls_status entry = None ∨ ∃ item, entry = lot_status_of item) ∧
  (∀ item : UUID * LotData,
     let rate :=
       if (ld_capacity item.2 >? 0)%Z
       then int_div (ld_occupied item.2) (ld_capacity item.2) else 0%Q in
     ls_occupancy_rate (lot_status_of item) = py_round rate 2 ∧
     ls_status (lot_status_of item) = Some (lot_status_label rate)) ∧
  (∀ rate : Q,
     ((0.95 <= rate)%Q → lot_status_label rate = "full"%string) ∧
     ((0.7 <= rate < 0.95)%Q → lot_status_label rate = "busy"%string) ∧
     ((0.3 <= rate < 0.7)%Q → lot_status_label rate = "moderate"%string) ∧
     ((rate < 0.3)%Q → lot_status_label rate = "free"%string)) ∧
  (∀ (lots : list (ParkingLot G)) lot_occupancy total_frames entry,
     entry ∈ lot_statistics_of lots lot_occupancy total_frames →
     ∃ d, lot_occupancy !! lst_lot_id entry = Some d ∧
          (0 < lo_total_slots d)%Z ∧
          lst_occupancy_rate entry = py_round (lot_rate d total_frames) 2 ∧
          lst_status entry = rate_label (lot_rate d total_frames)) ∧
  (∀ rate : Q,
     ((0.7 < rate)%Q → rate_label rate = "busy"%string) ∧
     ((0.3 < rate <= 0.7)%Q → rate_label rate = "moderate"%string) ∧
     ((rate <= 0.3)%Q → rate_label rate = "free"%string) ∧
     rate_label rate ≠ "full"%string).
Proof.
  split; [apply lots_status_entries|].
  split; [by intros [lot_id data]|].
  split; [apply lot_status_label_cases|].
  split; [apply lot_statistics_entries|apply rate_label_cases].
Qed.

(** C7 (the code departs from the claim): both slots of the example lot
    are occupied in the only frame, so that the rate of the lot is [1.0] in
    both lot rollups; the lots-status rollup labels it [full], the lot
    rollup of the video analytics labels it [busy], so that a lot with a
    rate of at least 0.95 is not labeled [full] there. *)
Theorem analytics_labels_full_lot_busy :
  (λ e, (ls_id e, ls_occupancy_rate e, ls_status e)) <$>
    lots_lots (get_lots_parking_status Example.db Example.camera 0.3)
    = [(21%N, 1.00%Q, Some "full"%string)] ∧
  (λ e, (lst_lot_id e, lst_occupancy_rate e, lst_status e)) <$>
    match get_video_analytics Example.db 31%N 0.3 with
    | Return r => default [] (va_lot_statistics r)
    | Raise _ _ => []
    end
    = [(21%N, 1.00%Q, "busy"%string)] ∧
  ¬ (∀ e, e ∈ match get_video_analytics Example.db 31%N 0.3 with
              | Return r => default [] (va_lot_statistics r)
              | Raise _ _ => []
              end →
          (0.95 <= lst_occupancy_rate e)%Q → lst_status e = "full"%string).
Proof.
  assert (Hstats :
    match get_video_analytics Example.db 31%N 0.3 with
    | Return r => default [] (va_lot_statistics r)
    | Raise _ _ => []
    end = [mkLotStatistic 21%N "North" 2 1.00 "busy"]) by (by vm_compute).
  split; [by vm_compute|]. rewrite Hstats. split; [done|].
  intros Hall. specialize (Hall _ (list_elem_of_here _ _)).
  simpl in Hall. discriminate Hall. by vm_compute.
Qed.

(** ** Rates *)

Section rate_facts.
Local Open Scope Q_scope.

Lemma round_half_even_bounds (x : Q) (n : Z) :
  0 <= x → x <= inject_Z n → (0 <= round_half_even x <= n)%Z.
Proof.
  intros Hlo Hhi. unfold round_half_even.
  pose proof (Qfloor_le x) as Hfloor.
  assert (Hf0 : (0 <= Qfloor x)%Z).
  { change 0%Z with (Qfloor 0). by apply Qfloor_resp_le. }
  assert (Hfn : (Qfloor x <= n)%Z).
  { rewrite <- (Qfloor_Z n). by apply Qfloor_resp_le. }
  assert (Hnext : 1 # 2 <= x - inject_Z (Qfloor x) → (Qfloor x + 1 <= n)%Z).
  { intros Hhalf. assert (Hlt : inject_Z (Qfloor x) < inject_Z n) by lra.
    rewrite <- Zlt_Qlt in Hlt. lia. }
  destruct (Qcompare_spec (x - inject_Z (Qfloor x)) (1 # 2)) as [Heq|Hlt|Hgt].
  - destruct (Z.even (Qfloor x)); [lia|].
    split; [lia|]. apply Hnext. rewrite Heq. apply Qle_refl.
  - lia.
  - split; [lia|]. apply Hnext. by apply Qlt_le_weak.
Qed.

Lemma py_round_unit (x : Q) : 0 <= x <= 1 → 0 <= py_round x 2 <= 1.
Proof.
  intros [Hlo Hhi]. unfold py_round.
  change (10 ^ Z.of_nat 2)%Z with 100%Z.
  destruct (round_half_even_bounds (x * inject_Z 100) 100) as [Hr0 Hr1].
  - change (inject_Z 100) with (100 # 1). lra.
  - change (inject_Z 100) with (100 # 1). lra.
  - rewrite Zle_Qle in Hr0, Hr1. apply ratio_in_unit; done.
Qed.

Lemma int_div_unit (a b : Z) :
  (0 <= a <= b)%Z → (0 < b)%Z → 0 <= int_div a b <= 1.
Proof.
  intros [Ha Hab] Hb. unfold int_div. apply ratio_in_unit.
  - by rewrite Zle_Qle in Ha.
  - by rewrite Zle_Qle in Hab.
  - by rewrite Zlt_Qlt in Hb.
Qed.

End rate_facts.

Section count_facts.
Context {G : Shapely}.

Lemma size_list_to_set_le (l : list UUID) :
  size (list_to_set l : gset UUID) ≤ length l.
Proof.
  induction l as [|x l IH].
  - by rewrite list_to_set_nil, size_empty.
  - rewrite list_to_set_cons, size_union_alt, size_singleton. simpl.
    assert (size (list_to_set l ∖ {[x]} : gset UUID)
            ≤ size (list_to_set l : gset UUID)).
    { apply subseteq_size. intros y Hy.
      by apply elem_of_difference in Hy as [? _]. }
    lia.
Qed.

Lemma length_setitem {K V : Type} `{EqDecision K} (d : PyDict.dict K V) k v :
  length (PyDict.setitem d k v) ≤ S (length d).
Proof.
  induction d as [|[k' v'] d IH]; simpl; [done|].
  destruct (decide (k = k')); simpl; lia.
Qed.

Lemma length_of_items {K V : Type} `{EqDecision K} (kvs : list (K * V)) :
  length (PyDict.of_items kvs) ≤ length kvs.
Proof.
  unfold PyDict.of_items.
  assert (Hgen : ∀ acc : PyDict.dict K V,
    length (foldl (λ d kv, PyDict.setitem d kv.1 kv.2) acc kvs)
    ≤ length acc + length kvs).
  { induction kvs as [|kv kvs IH]; intros acc; simpl; [lia|].
    specialize (IH (PyDict.setitem acc kv.1 kv.2)).
    pose proof (length_setitem acc kv.1 kv.2). lia. }
  apply (Hgen []).
Qed.

(** No more slots are marked than there are slots. *)
Lemma size_occupied_le (dets : list Detection)
    (slots : list (ParkingSlot G)) (thr : Q) :
  (0 <= Z.of_nat (size (occupied_slots_of dets (slot_polygons_of slots) thr))
   <= len slots)%Z.
Proof.
  split; [lia|]. unfold len. apply inj_le.
  etrans; [apply subseteq_size, occupied_slots_of_keys|].
  etrans; [apply size_list_to_set_le|].
  unfold PyDict.keys, slot_polygons_of. rewrite length_fmap.
  etrans; [apply length_of_items|]. by rewrite length_fmap.
Qed.

Lemma count_step_once (db : DB G) lot (id : UUID) (o f u : Z) :
  ∃ o' f' u',
    count_step db lot (o, f, u) id = (o', f', u') ∧
    (o <= o')%Z ∧ (f <= f')%Z ∧ (u <= u')%Z ∧
    (o' + f' + u' = o + f + u + 1)%Z.
Proof.
  unfold count_step. destruct (latest_event db id lot) as [e|].
  - destruct (String.eqb (event_status e) "occupied").
    + exists (o + 1)%Z, f, u. repeat split; lia.
    + destruct (String.eqb (event_status e) "free").
      * exists o, (f + 1)%Z, u. repeat split; lia.
      * exists o, f, (u + 1)%Z. repeat split; lia.
  - exists o, f, (u + 1)%Z. repeat split; lia.
Qed.

(** The three counters of [get_current_occupancy_stats] only grow, and
    every slot is counted once. *)
Lemma count_step_fold (db : DB G) lot (ids : list UUID) (o f u : Z) :
  ∃ o' f' u',
    foldl (count_step db lot) (o, f, u) ids = (o', f', u') ∧
    (o <= o')%Z ∧ (f <= f')%Z ∧ (u <= u')%Z ∧
    (o' + f' + u' = o + f + u + len ids)%Z.
Proof.
  revert o f u. induction ids as [|id ids IH]; intros o f u.
  - exists o, f, u. unfold len. simpl. repeat split; lia.
  - assert (Hlen : len (id :: ids) = (1 + len ids)%Z)
      by (unfold len; simpl; lia).
    cbn [foldl].
    destruct (count_step_once db lot id o f u)
      as (o1 & f1 & u1 & -> & ? & ? & ? & ?).
    destruct (IH o1 f1 u1) as (o' & f' & u' & -> & ? & ? & ? & ?).
    exists o', f', u'. repeat split; lia.
Qed.

End count_facts.

Section analytics_rate_facts.
Context {G : Shapely}.

(** The rate of a frame of the analytics timeline is a rounded fraction. *)
Lemma analytics_rate_unit (dets : list Detection)
    (slots : list (ParkingSlot G)) (thr : Q) e :
  e ∈ analytics_timeline (len slots)
        (frame_data_of dets (slot_polygons_of slots) thr) →
  (0 <= af_occupancy_rate e <= 1)%Q.
Proof.
  unfold analytics_timeline, sorted_frames.
  intros (data & -> & Hdata)%list_elem_of_fmap. simpl.
  apply list_elem_of_omap in Hdata as (f & _ & Hget).
  apply frame_data_entry in Hget as (_ & _ & Hocc & _).
  apply py_round_unit. unfold frame_rate.
  destruct (Z.gtb_spec (len slots) 0); [|done].
  apply int_div_unit; [|done]. rewrite Hocc. apply size_occupied_le.
Qed.

End analytics_rate_facts.

(** * Further properties *)

(** ** The window of the tracker *)

Section tracker_window_facts.
Import Tracker.

Lemma length_last_n {A : Type} (n : nat) (l : list A) :
  length (last_n n l) = n `min` length l.
Proof. unfold last_n. rewrite length_drop. lia. Qed.

Lemma last_n_app_last_n {A : Type} (n : nat) (l r : list A) :
  last_n n (last_n n l ++ r) = last_n n (l ++ r).
Proof.
  unfold last_n. rewrite !length_app, length_drop.
  destruct (decide (length l ≤ n)) as [Hle|Hgt].
  - replace (length l - n) with 0 by lia. simpl.
    by replace (length l - 0) with (length l) by lia.
  - replace (length l - (length l - n) + length r - n) with (length r)
      by lia.
    replace (length l + length r - n) with (length l - n + length r)
      by lia.
    rewrite <- (drop_drop (l ++ r)).
    by rewrite (drop_app_le l r (length l - n)) by lia.
Qed.

(** One update keeps the last [confirm_frames] samples. *)
Lemma window_after_last_n t sid b :
  (0 < confirm_frames t)%Z →
  (Z.of_nat (length (default [] (state t !! sid))) <= confirm_frames t)%Z →
  window_after t sid b =
  last_n (Z.to_nat (confirm_frames t)) (default [] (state t !! sid) ++ [b]).
Proof.
  intros Hpos Hlen. unfold window_after, last_n, pop0.
  set (w0 := default [] (state t !! sid)) in *.
  rewrite length_app. simpl.
  destruct (Z.gtb_spec (Z.of_nat (length w0 + 1)) (confirm_frames t)).
  - replace (length w0 + 1 - Z.to_nat (confirm_frames t)) with 1 by lia.
    by destruct w0.
  - by replace (length w0 + 1 - Z.to_nat (confirm_frames t)) with 0 by lia.
Qed.

Lemma feed_cons t sid b s :
  feed t sid (b :: s) =
  ((update t sid b).1 :: (feed (update t sid b).2 sid s).1,
   (feed (update t sid b).2 sid s).2).
Proof.
  simpl. by destruct (feed _ sid s).
Qed.

Lemma feed_confirm_frames t sid s :
  confirm_frames (feed t sid s).2 = confirm_frames t.
Proof.
  revert t. induction s as [|b s IH]; intros t; [done|].
  rewrite feed_cons. simpl. by rewrite IH.
Qed.

(** After a run of samples the window holds the last [confirm_frames] of
    them (after what it held before), and the call for sample [i] answered
    from the last [confirm_frames] samples up to [i]. *)
Lemma feed_spec t sid s :
  (0 < confirm_frames t)%Z →
  (Z.of_nat (length (default [] (state t !! sid))) <= confirm_frames t)%Z →
  (s ≠ [] →
   state (feed t sid s).2 !! sid =
   Some (last_n (Z.to_nat (confirm_frames t))
           (default [] (state t !! sid) ++ s))) ∧
  ∀ i, i < length s →
    (feed t sid s).1 !! i =
    Some (verdict (confirm_frames t)
            (last_n (Z.to_nat (confirm_frames t))
               (default [] (state t !! sid) ++ take (S i) s))).
Proof.
  revert t. induction s as [|b s IH]; intros t Hpos Hlen.
  - split; [done|]. simpl. lia.
  - rewrite feed_cons. cbn [fst snd].
    pose proof (window_after_last_n t sid b Hpos Hlen) as Hwin.
    assert (Hres : (update t sid b).1 =
                   verdict (confirm_frames t)
                     (last_n (Z.to_nat (confirm_frames t))
                        (default [] (state t !! sid) ++ [b])))
      by (unfold update; cbn [fst]; by rewrite Hwin).
    assert (Hstate : state (update t sid b).2 !! sid =
                     Some (last_n (Z.to_nat (confirm_frames t))
                             (default [] (state t !! sid) ++ [b])))
      by (unfold update; cbn [snd state]; by rewrite lookup_insert_eq, Hwin).
    assert (Hcf : confirm_frames (update t sid b).2 = confirm_frames t)
      by done.
    revert Hres Hstate Hcf.
    generalize (update t sid b).2 (update t sid b).1. intros t1 r1 -> Hstate Hcf.
    destruct (IH t1) as [IHstate IHres].
    { by rewrite Hcf. }
    { rewrite Hstate, Hcf. simpl. rewrite length_last_n. lia. }
    rewrite Hstate, Hcf in IHstate, IHres. simpl in IHstate, IHres.
    split.
    + intros _. destruct s as [|b' s'].
      * cbn [feed snd]. by rewrite Hstate.
      * rewrite IHstate by done. rewrite last_n_app_last_n.
        by rewrite <- app_assoc.
    + intros [|i] Hi.
      * done.
      * simpl in Hi. cbn [lookup list_lookup]. rewrite IHres by lia.
        rewrite last_n_app_last_n. by rewrite <- app_assoc.
Qed.

End tracker_window_facts.

Section tracker_extras.
Import Tracker.

Lemma feed_length t sid s : length (feed t sid s).1 = length s.
Proof.
  revert t. induction s as [|b s IH]; intros t; [done|].
  rewrite feed_cons. simpl. by rewrite IH.
Qed.

Lemma feed_other_slot t sid sid' s :
  sid ≠ sid' → state (feed t sid s).2 !! sid' = state t !! sid'.
Proof.
  intros Hne. revert t. induction s as [|b s IH]; intros t; [done|].
  rewrite feed_cons. cbn [snd]. rewrite IH.
  unfold update. cbn [snd state]. by rewrite lookup_insert_ne.
Qed.

Lemma any_false_all_false (w : list bool) :
  w ≠ [] → any w = false → all w = false.
Proof. destruct w as [|[] w]; simpl; done. Qed.

End tracker_extras.

(** X1: a fresh tracker that has been fed a non-empty run of samples of one
    slot holds for that slot the last [confirm_frames] samples of the run
    (all of them while there are fewer), at most [confirm_frames] of them,
    and holds nothing for any other slot. *)
Theorem window_holds_last_samples (W : Z) (sid : UUID) (samples : list bool)
    (HW : (0 < W)%Z) (Hne : samples ≠ []) :
  let t := (Tracker.feed (Tracker.init W) sid samples).2 in
  Tracker.state t !! sid = Some (last_n (Z.to_nat W) samples) ∧
  length (last_n (Z.to_nat W) samples) = Z.to_nat W `min` length samples ∧
  ∀ sid', sid' ≠ sid → Tracker.state t !! sid' = None.
Proof.
  split; [|split].
  - destruct (feed_spec (Tracker.init W) sid samples) as [Hstate _];
      [done | simpl; rewrite lookup_empty; simpl; lia |].
    rewrite Hstate by done. simpl. by rewrite lookup_empty.
  - apply length_last_n.
  - intros sid' Hsid. rewrite feed_other_slot by done. apply lookup_empty.
Qed.

Lemma window_holds_last_samples_witness :
  Tracker.state
    (Tracker.feed (Tracker.init 3) 7%N [true; false; true; true; false]).2
    !! 7%N = Some [true; true; false].
Proof.
  exact (proj1 (window_holds_last_samples 3 7%N
                  [true; false; true; true; false] eq_refl
                  ltac:(discriminate))).
Defined.

(** X2: the answer of the call for sample number [i] (from 0) of a run fed
    to a fresh tracker depends on the last [confirm_frames] samples up to
    that one only: it is ["occupied"] exactly when at least
    [confirm_frames] samples were fed and these last ones are all true,
    ["free"] exactly when they are all false, and [None] while fewer than
    [confirm_frames] samples were fed. *)
Theorem update_answers_from_last_samples (W : Z) (sid : UUID)
    (samples : list bool) (i : nat) (r : option string)
    (HW : (0 < W)%Z)
    (Hr : (Tracker.feed (Tracker.init W) sid samples).1 !! i = Some r) :
  let w := last_n (Z.to_nat W) (take (S i) samples) in
  (r = Some "occupied"%string ↔ (W <= Z.of_nat (S i))%Z ∧ all w = true) ∧
  (r = Some "free"%string ↔ (W <= Z.of_nat (S i))%Z ∧ any w = false) ∧
  ((Z.of_nat (S i) < W)%Z → r = None).
Proof.
  intros w.
  assert (Hi : i < length samples).
  { apply lookup_lt_Some in Hr. by rewrite feed_length in Hr. }
  destruct (feed_spec (Tracker.init W) sid samples) as [_ Hres];
    [done | simpl; rewrite lookup_empty; simpl; lia |].
  rewrite Hres in Hr by done. simpl in Hr. rewrite lookup_empty in Hr.
  simpl in Hr. injection Hr as <-. fold w.
  assert (Hlen : length w = Z.to_nat W `min` S i).
  { unfold w. rewrite length_last_n, length_take. lia. }
  unfold Tracker.verdict.
  destruct (Z.eqb_spec (Z.of_nat (length w)) W) as [Hfull|Hshort].
  - assert (w ≠ []) by (intros Hnil; rewrite Hnil in Hfull; simpl in Hfull; lia).
    destruct (all w) eqn:Hall.
    + split; [split; [intros _; split; [lia|done] | done]|].
      split; [|lia]. split; [done|]. intros [_ Hany].
      apply any_false_all_false in Hany; [congruence|done].
    + destruct (any w) eqn:Hany; simpl.
      * split; [split; [done | by intros [_ ?]]|].
        split; [|lia]. split; [done | by intros [_ ?]].
      * split; [split; [done | by intros [_ ?]]|].
        split; [|lia]. split; [intros _; split; [lia|done] | done].
  - split; [split; [done | intros [? _]; lia]|].
    split; [split; [done | intros [? _]; lia] | done].
Qed.

Lemma update_answers_from_last_samples_witness :
  (3 <= Z.of_nat 5)%Z ∧
  all (last_n 3 (take 5 [true; false; true; true; true])) = true.
Proof.
  refine (proj1 (proj1 (update_answers_from_last_samples 3 7%N
            [true; false; true; true; true] 4 (Some "occupied"%string)
            eq_refl _)) eq_refl).
  by vm_compute.
Defined.

(** X3: the updates of two different slots do not interact: made in either
    order they return the same answers and leave the same tracker. *)
Theorem updates_of_slots_commute (t : Tracker.OccupancyTracker)
    (a b : UUID) (x y : bool) (Hab : a ≠ b) :
  (Tracker.update (Tracker.update t a x).2 b y).1 = (Tracker.update t b y).1 ∧
  (Tracker.update (Tracker.update t b y).2 a x).1 = (Tracker.update t a x).1 ∧
  (Tracker.update (Tracker.update t a x).2 b y).2 =
  (Tracker.update (Tracker.update t b y).2 a x).2.
Proof.
  assert (Hwb : Tracker.window_after (Tracker.update t a x).2 b y
                = Tracker.window_after t b y).
  { unfold Tracker.window_after, Tracker.update. cbn [snd Tracker.state
      Tracker.confirm_frames]. by rewrite lookup_insert_ne. }
  assert (Hwa : Tracker.window_after (Tracker.update t b y).2 a x
                = Tracker.window_after t a x).
  { unfold Tracker.window_after, Tracker.update. cbn [snd Tracker.state
      Tracker.confirm_frames]. by rewrite lookup_insert_ne. }
  split; [|split].
  - change ((Tracker.update (Tracker.update t a x).2 b y).1) with
      (Tracker.verdict (Tracker.confirm_frames t)
         (Tracker.window_after (Tracker.update t a x).2 b y)).
    by rewrite Hwb.
  - change ((Tracker.update (Tracker.update t b y).2 a x).1) with
      (Tracker.verdict (Tracker.confirm_frames t)
         (Tracker.window_after (Tracker.update t b y).2 a x)).
    by rewrite Hwa.
  - change ((Tracker.update (Tracker.update t a x).2 b y).2) with
      (Tracker.mkTracker (Tracker.confirm_frames t)
         (<[b := Tracker.window_after (Tracker.update t a x).2 b y]>
            (<[a := Tracker.window_after t a x]> (Tracker.state t)))).
    change ((Tracker.update (Tracker.update t b y).2 a x).2) with
      (Tracker.mkTracker (Tracker.confirm_frames t)
         (<[a := Tracker.window_after (Tracker.update t b y).2 a x]>
            (<[b := Tracker.window_after t b y]> (Tracker.state t)))).
    rewrite Hwa, Hwb. f_equal. by apply insert_insert_ne.
Qed.

Lemma updates_of_slots_commute_witness :
  (Tracker.update (Tracker.update (Tracker.init 3) 1%N true).2 2%N false).2 =
  (Tracker.update (Tracker.update (Tracker.init 3) 2%N false).2 1%N true).2.
Proof.
  exact (proj2 (proj2 (updates_of_slots_commute (Tracker.init 3) 1%N 2%N
                         true false ltac:(discriminate)))).
Defined.

(** ** The video-processing task *)

Section pipeline_facts.
Context {G : Shapely}.

Lemma frames_loop_frames (video : Video) (file : VideoFile) start stride thr
    (frames : list (list RawBox)) (idx : Z) (first_id : UUID) :
  (frames_loop video file start stride thr frames idx first_id).*1 =
  filter (λ i, (i `mod` stride)%Z = 0%Z) (seqZ idx (len frames)).
Proof.
  revert idx first_id. induction frames as [|boxes frames IH];
    intros idx first_id; [done|].
  unfold len. rewrite seqZ_cons by (simpl; lia).
  replace (Z.pred (Z.of_nat (length (boxes :: frames))))
    with (len frames) by (unfold len; simpl; lia).
  rewrite filter_cons. cbn [frames_loop].
  destruct (decide ((idx `mod` stride)%Z = 0%Z)) as [Hdiv|Hdiv].
  - rewrite bool_decide_false by (by intros ?). rewrite fmap_cons.
    cbn [fst]. f_equal. apply IH.
  - rewrite bool_decide_true by done. apply IH.
Qed.

(** The rows added for a frame: accepted boxes only. *)
Lemma frame_detections_row (video : Video) (file : VideoFile) start thr idx
    (boxes : list RawBox) (first_id : UUID) d :
  d ∈ frame_detections video file start thr idx boxes first_id →
  frame_number d = idx ∧
  det_video_id d = video_id video ∧
  det_camera_id d = video_camera_id video ∧
  PyDict.get vehicle_classes (class_id d) = Some (class_name d) ∧
  (thr <= confidence d)%Q ∧
  ∃ box_data, box_data ∈ boxes ∧
    class_id d = rb_cls box_data ∧ confidence d = rb_conf box_data ∧
    bbox d = mkBBox (rb_x1 box_data) (rb_y1 box_data) (rb_x2 box_data)
               (rb_y2 box_data).
Proof.
  unfold frame_detections.
  intros (i & [box_data name] & -> & Hi)%elem_of_lookup_imap.
  apply list_elem_of_lookup_2, list_elem_of_omap in Hi
    as (box' & Hbox & Hsome).
  destruct (PyDict.get vehicle_classes (rb_cls box')) as [name'|] eqn:Hcls;
    [|done].
  simpl in Hsome.
  destruct (Qgeb (rb_conf box') thr) eqn:Hconf; [|done].
  injection Hsome as <- <-. apply Qgeb_ge in Hconf. simpl.
  repeat split; try done. by exists box'.
Qed.

Lemma frames_loop_rows (video : Video) (file : VideoFile) start stride thr
    (frames : list (list RawBox)) (idx : Z) (first_id : UUID) f rows d :
  (f, rows) ∈ frames_loop video file start stride thr frames idx first_id →
  d ∈ rows →
  ∃ boxes i first,
    frames !! i = Some boxes ∧ f = (idx + Z.of_nat i)%Z ∧
    d ∈ frame_detections video file start thr f boxes first.
Proof.
  revert idx first_id. induction frames as [|boxes frames IH];
    intros idx first_id; cbn [frames_loop].
  - by intros ?%elem_of_nil.
  - destruct (bool_decide ((idx `mod` stride)%Z ≠ 0%Z)).
    + intros Hin Hd. destruct (IH _ _ Hin Hd) as (bs & i & fst & ? & -> & ?).
      exists bs, (S i), fst. split; [done|]. split; [lia|done].
    + intros [Heq | Hin]%elem_of_cons Hd.
      * injection Heq as -> ->. exists boxes, 0, first_id.
        split; [done|]. split; [lia|done].
      * destruct (IH _ _ Hin Hd) as (bs & i & fst & ? & -> & ?).
        exists bs, (S i), fst. split; [done|]. split; [lia|done].
Qed.

(** The rows of one frame, box by box: the boxes whose class is in the
    table and whose confidence is not below the threshold, in the order of
    the detector. *)
Lemma imap_accepted_boxes (video : Video) (file : VideoFile)
    (frame_time offset : Q) thr idx (boxes : list RawBox) (h : nat → UUID) :
  Forall2
    (λ box_data d,
       frame_number d = idx ∧
       det_video_id d = video_id video ∧
       det_camera_id d = video_camera_id video ∧
       class_id d = rb_cls box_data ∧
       PyDict.get vehicle_classes (rb_cls box_data) = Some (class_name d) ∧
       confidence d = rb_conf box_data ∧
       bbox d = mkBBox (rb_x1 box_data) (rb_y1 box_data) (rb_x2 box_data)
                  (rb_y2 box_data) ∧
       track_id d = rb_id box_data)
    (filter
       (λ box_data,
          bool_decide (is_Some (PyDict.get vehicle_classes (rb_cls box_data)))
          && Qgeb (rb_conf box_data) thr)
       boxes)
    (imap
       (λ i '(box_data, class_name),
          mkDetection (h i) (video_id video)
            (video_camera_id video) idx frame_time offset
            (rb_cls box_data) class_name (rb_conf box_data)
            (mkBBox (rb_x1 box_data) (rb_y1 box_data) (rb_x2 box_data)
               (rb_y2 box_data))
            (mkBBox (rb_x1 box_data / vf_frame_width file)
               (rb_y1 box_data / vf_frame_height file)
               (rb_x2 box_data / vf_frame_width file)
               (rb_y2 box_data / vf_frame_height file))%Q
            (rb_id box_data))
       (omap
          (λ box_data,
             class_name ← PyDict.get vehicle_classes (rb_cls box_data);
             if Qgeb (rb_conf box_data) thr
             then Some (box_data, class_name) else None)
          boxes)).
Proof.
  generalize (PyDict.get vehicle_classes). intros table.
  revert h. induction boxes as [|box_data boxes IH]; intros h.
  - constructor.
  - rewrite filter_cons. destruct (decide _) as [Hacc|Hacc].
    + apply andb_True in Hacc as [Hsome%bool_decide_unpack Hconf%Is_true_true].
      destruct Hsome as [name Hcls]. csimpl. rewrite Hcls. csimpl.
      rewrite Hconf. constructor; [done|]. apply (IH (h ∘ S)).
    + csimpl. destruct (table (rb_cls box_data)) as [name|] eqn:Hcls; csimpl;
        [destruct (Qgeb (rb_conf box_data) thr) eqn:Hconf|];
        [|apply IH..].
      exfalso. apply Hacc, andb_True. split.
      * apply bool_decide_pack. by eexists.
      * done.
Qed.

Lemma frame_detections_boxes (video : Video) (file : VideoFile) start thr idx
    (boxes : list RawBox) (first_id : UUID) :
  Forall2
    (λ box_data d,
       frame_number d = idx ∧
       det_video_id d = video_id video ∧
       det_camera_id d = video_camera_id video ∧
       class_id d = rb_cls box_data ∧
       PyDict.get vehicle_classes (rb_cls box_data) = Some (class_name d) ∧
       confidence d = rb_conf box_data ∧
       bbox d = mkBBox (rb_x1 box_data) (rb_y1 box_data) (rb_x2 box_data)
                  (rb_y2 box_data) ∧
       track_id d = rb_id box_data)
    (filter
       (λ box_data,
          bool_decide (is_Some (PyDict.get vehicle_classes (rb_cls box_data)))
          && Qgeb (rb_conf box_data) thr)
       boxes)
    (frame_detections video file start thr idx boxes first_id).
Proof.
  unfold frame_detections.
  apply (imap_accepted_boxes video file _ _ thr idx boxes
           (λ i, (first_id + N.of_nat i)%N)).
Qed.

(** Every processed frame is a frame of the file, and its rows are those of
    its boxes. *)
Lemma frames_loop_entries (video : Video) (file : VideoFile) start stride thr
    (frames : list (list RawBox)) (idx : Z) (first_id : UUID) :
  Forall
    (λ entry,
       ∃ i boxes first,
         frames !! i = Some boxes ∧ entry.1 = (idx + Z.of_nat i)%Z ∧
         entry.2 = frame_detections video file start thr entry.1 boxes first)
    (frames_loop video file start stride thr frames idx first_id).
Proof.
  revert idx first_id. induction frames as [|boxes frames IH];
    intros idx first_id; cbn [frames_loop]; [constructor|].
  assert (Hshift : ∀ first,
    Forall
      (λ entry,
         ∃ i bs fst,
           (boxes :: frames) !! i = Some bs ∧
           entry.1 = (idx + Z.of_nat i)%Z ∧
           entry.2 = frame_detections video file start thr entry.1 bs fst)
      (frames_loop video file start stride thr frames (idx + 1) first)).
  { intros first. eapply Forall_impl; [apply IH|].
    intros entry (i & bs & fst & Hi & Hf & Hrows).
    exists (S i), bs, fst. split; [done|]. split; [lia|done]. }
  destruct (bool_decide ((idx `mod` stride)%Z ≠ 0%Z)); [apply Hshift|].
  constructor; [|apply Hshift].
  exists 0, boxes, first_id. split; [done|]. split; [simpl; lia|done].
Qed.

Lemma select_video_add_detections (db : DB G) rows id :
  select_video (add_detections db rows) id = select_video db id.
Proof. done. Qed.

(** The video row a run leaves behind. *)
Lemma process_video_task_video (db : DB G) storage started finished
    upload_time first_id id stride iou conf video :
  select_video db id = Some video →
  let run :=
    process_video_task db storage started finished upload_time first_id id
      stride iou conf in
  ∃ v', select_video (run_db run) id = Some v' ∧
        video_id v' = id ∧ video_camera_id v' = video_camera_id video ∧
        filename v' = filename video ∧
        processing_started_at v' = Some started ∧
        processing_finished_at v' = Some finished ∧
        match run_outcome run with
        | Raise exc msg =>
            processed v' = false ∧ processing_error v' = Some msg
        | Return r =>
            processed v' = true ∧
            processing_error v' = processing_error video
        end.
Proof.
  intros Hvideo. pose proof (select_video_id _ _ _ Hvideo) as Hid.
  assert (Hcommit : ∀ v1 v2 : Video,
    video_id v1 = id → video_id v2 = id →
    select_video (commit_video (commit_video db v1) v2) id = Some v2).
  { intros v1 v2 H1 H2. rewrite <- H2.
    apply select_video_commit. rewrite H2, <- H1.
    rewrite select_video_commit; [done|]. by rewrite H1, Hvideo. }
  assert (Hcommit' : ∀ (v1 v2 : Video) rows,
    video_id v1 = id → video_id v2 = id →
    select_video (commit_video (add_detections (commit_video db v1) rows) v2)
      id = Some v2).
  { intros v1 v2 rows H1 H2. rewrite <- H2.
    apply select_video_commit. rewrite select_video_add_detections.
    rewrite H2, <- H1.
    rewrite select_video_commit; [done|]. by rewrite H1, Hvideo. }
  unfold process_video_task. rewrite Hvideo.
  change (select_slots (commit_video db ?v) ?c) with (select_slots db c).
  destruct (bool_decide (select_slots db (video_camera_id video) = [])).
  - eexists. split; [by apply Hcommit|]. done.
  - cbn [filename]. unfold _process_video_frames. cbn [filename].
    destruct (storage (filename video)) as [file|].
    + eexists. split; [by apply Hcommit'|]. done.
    + eexists. split; [by apply Hcommit|]. done.
Qed.

End pipeline_facts.

(** X4: whenever the task returns, the video is known, its camera has
    slots and its file is stored; the task has processed exactly the frames
    whose index is a multiple of the effective stride, in ascending order;
    the rows it has appended to the stored detections are, frame by frame
    and in the order of the detector, one row for each box of the frame
    whose class is in the table and whose confidence is not below the
    effective threshold, with the frame number, the class, the name the
    table gives it, the confidence, the corners and the track of the box;
    [events_created] is the number of these rows; and slots, lots and
    occupancy events are left as they were. *)
Theorem task_processes_stride_frames (G : Shapely) (db : DB G)
    (storage : string → option VideoFile)
    (started finished upload_time : datetime) (first_id id : UUID)
    (stride : option Z) (iou conf : option Q) (r : TaskResult)
    (Hrun : run_outcome
              (process_video_task db storage started finished upload_time
                 first_id id stride iou conf) = Return r) :
  let run :=
    process_video_task db storage started finished upload_time first_id id
      stride iou conf in
  ∃ video file (frames : list (Z * list Detection)),
    select_video db id = Some video ∧
    select_slots db (video_camera_id video) ≠ [] ∧
    storage (filename video) = Some file ∧
    run_frames run = frames.*1 ∧
    frames.*1 =
      filter (λ i, (i `mod` or_default_Z stride FRAME_STRIDE)%Z = 0%Z)
        (seqZ 0 (len (vf_frames file))) ∧
    detections (run_db run) = detections db ++ concat (frames.*2) ∧
    tr_success r = true ∧ tr_video_id r = id ∧
    tr_events_created r = len (concat (frames.*2)) ∧
    Forall
      (λ entry,
         ∃ boxes,
           vf_frames file !! Z.to_nat entry.1 = Some boxes ∧
           Forall2
             (λ box_data d,
                frame_number d = entry.1 ∧
                det_video_id d = id ∧
                det_camera_id d = video_camera_id video ∧
                class_id d = rb_cls box_data ∧
                PyDict.get vehicle_classes (rb_cls box_data)
                  = Some (class_name d) ∧
                confidence d = rb_conf box_data ∧
                bbox d = mkBBox (rb_x1 box_data) (rb_y1 box_data)
                           (rb_x2 box_data) (rb_y2 box_data) ∧
                track_id d = rb_id box_data)
             (filter
                (λ box_data,
                   bool_decide
                     (is_Some
                        (PyDict.get vehicle_classes (rb_cls box_data)))
                   && Qgeb (rb_conf box_data)
                        (or_default_Q conf CONFIDENCE_THRESHOLD))
                boxes)
             entry.2)
      frames ∧
    parking_slots (run_db run) = parking_slots db ∧
    parking_lots (run_db run) = parking_lots db ∧
    occupancy_events (run_db run) = occupancy_events db.
Proof.
  cbv zeta. revert Hrun. unfold process_video_task.
  destruct (select_video db id) as [video|] eqn:Hvideo; [|done].
  change (select_slots (commit_video db ?v) ?c) with (select_slots db c).
  case_bool_decide as Hslots; [done|].
  unfold _process_video_frames. cbn [filename].
  destruct (storage (filename video)) as [file|] eqn:Hfile; [|done].
  cbn [run_frames run_db run_outcome]. intros [= <-].
  eexists video, file, _.
  split; [done|]. split; [done|]. split; [done|]. split; [reflexivity|].
  split; [apply frames_loop_frames|].
  split; [done|]. split; [done|]. split; [done|]. split; [done|].
  split; [|done].
  eapply Forall_impl; [apply frames_loop_entries|].
  intros entry (i & boxes & first & Hi & Hf & Hrows).
  exists boxes. split.
  { rewrite Hf. by replace (Z.to_nat (0 + Z.of_nat i)) with i by lia. }
  rewrite Hrows.
  eapply Forall2_impl; [apply frame_detections_boxes|].
  intros box_data d (? & Hvid & ? & ? & ? & ? & ? & ?).
  cbn [video_id video_camera_id] in *.
  repeat split; try done.
  rewrite Hvid. by eapply select_video_id.
Qed.

Lemma task_processes_stride_frames_witness :
  ∃ r, run_outcome Example.run = Return r ∧ tr_success r = true.
Proof.
  eexists. split; [reflexivity|].
  destruct (task_processes_stride_frames BoxKernel.kernel Example.uploaded
              Example.storage 0%Q 60%Q 0%Q 41%N 31%N (Some 1%Z) None None _
              eq_refl)
    as (_ & _ & _ & _ & _ & _ & _ & _ & _ & Hok & _).
  exact Hok.
Defined.

(** X5: whatever the outcome, a detection stored after the task either was
    stored before or belongs to the processed video and camera, lies on a
    processed frame (a multiple of the effective stride), has one of the
    ten classes of the table with the name the table gives it, and has a
    confidence of at least the effective threshold; the effective stride
    and threshold are never zero ([0] and [None] select the defaults). *)
Theorem stored_detections_are_accepted (G : Shapely) (db : DB G)
    (storage : string → option VideoFile)
    (started finished upload_time : datetime) (first_id id : UUID)
    (stride : option Z) (iou conf : option Q) :
  let run :=
    process_video_task db storage started finished upload_time first_id id
      stride iou conf in
  or_default_Z stride FRAME_STRIDE ≠ 0%Z ∧
  ¬ (or_default_Q conf CONFIDENCE_THRESHOLD == 0)%Q ∧
  ∀ d, d ∈ detections (run_db run) →
    d ∈ detections db ∨
    (det_video_id d = id ∧
     (∃ video, select_video db id = Some video ∧
               det_camera_id d = video_camera_id video) ∧
     frame_number d ∈ run_frames run ∧
     (frame_number d `mod` or_default_Z stride FRAME_STRIDE)%Z = 0%Z ∧
     (0 <= class_id d <= 9)%Z ∧
     PyDict.get vehicle_classes (class_id d) = Some (class_name d) ∧
     (or_default_Q conf CONFIDENCE_THRESHOLD <= confidence d)%Q).
Proof.
  intros run. split; [|split].
  - destruct stride as [v|]; simpl; [|done].
    by destruct (Z.eqb_spec v 0).
  - destruct conf as [v|]; simpl; [|done].
    destruct (Qeq_bool v 0) eqn:Hv; [done|]. by apply Qeq_bool_neq.
  - unfold run, process_video_task.
    destruct (select_video db id) as [video|] eqn:Hvideo; [|by left].
    change (select_slots (commit_video db ?v) ?c) with (select_slots db c).
    destruct (bool_decide (select_slots db (video_camera_id video) = []));
      [by left|].
    unfold _process_video_frames. cbn [filename].
    destruct (storage (filename video)) as [file|]; [|by left].
    cbn [run_db run_frames detections commit_video add_detections].
    intros d [Hold | Hnew]%elem_of_app; [by left|]. right.
    apply list_elem_of_In, in_concat in Hnew as (rows & Hrows & Hd).
    apply list_elem_of_In, list_elem_of_fmap in Hrows as ([f rows'] & -> & Hin).
    apply list_elem_of_In in Hd. simpl in Hd.
    assert (Hf : f ∈ (frames_loop
                        (mkVideo (video_id video) (video_camera_id video)
                           (filename video) (processed video) (Some started)
                           (processing_finished_at video)
                           (processing_error video))
                        file upload_time (or_default_Z stride FRAME_STRIDE)
                        (or_default_Q conf CONFIDENCE_THRESHOLD)
                        (vf_frames file) 0 first_id).*1).
    { apply list_elem_of_fmap. by exists (f, rows'). }
    destruct (frames_loop_rows _ _ _ _ _ _ _ _ _ _ _ Hin Hd)
      as (boxes & i & first & _ & _ & Hrow).
    apply frame_detections_row in Hrow
      as (Hnum & Hvid & Hcam & Hcls & Hconf & _).
    simpl in Hvid, Hcam.
    split; [by rewrite Hvid; eapply select_video_id|].
    split; [by exists video|]. rewrite Hnum. split; [done|].
    split.
    { rewrite frames_loop_frames in Hf.
      by apply list_elem_of_filter in Hf as [? _]. }
    split; [|done].
    clear -Hcls. unfold vehicle_classes in Hcls. simpl in Hcls.
    repeat (destruct (decide _) in Hcls; [lia|]). done.
Qed.

(** X6: when the stored file of a known video (whose camera has slots) is
    missing, the task raises, processes no frame, stores no detection and
    leaves the video unprocessed with the message of the exception as its
    processing error; and when the video itself is unknown it raises
    [ValueError] and leaves the whole database untouched. *)
Theorem task_fails_without_file (G : Shapely) (db : DB G)
    (storage : string → option VideoFile)
    (started finished upload_time : datetime) (first_id id : UUID)
    (stride : option Z) (iou conf : option Q) (video : Video)
    (Hvideo : select_video db id = Some video)
    (Hslots : select_slots db (video_camera_id video) ≠ [])
    (Hfile : storage (filename video) = None) :
  let run :=
    process_video_task db storage started finished upload_time first_id id
      stride iou conf in
  (∃ exc msg v',
     run_outcome run = Raise exc msg ∧
     select_video (run_db run) id = Some v' ∧
     processed v' = false ∧ processing_error v' = Some msg) ∧
  run_frames run = [] ∧
  detections (run_db run) = detections db ∧
  ∀ unknown,
    select_video db unknown = None →
    ∃ msg,
      process_video_task db storage started finished upload_time first_id
        unknown stride iou conf =
      mkTaskRun (Raise "ValueError" msg) db [].
Proof.
  split; [|split; [|split]].
  - pose proof (process_video_task_video db storage started finished
                  upload_time first_id id stride iou conf video Hvideo)
      as (v' & Hv' & _ & _ & _ & _ & _ & Hout).
    revert Hv' Hout. cbv zeta. unfold process_video_task. rewrite Hvideo.
    change (select_slots (commit_video db ?v) ?c) with (select_slots db c).
    rewrite bool_decide_false by done.
    unfold _process_video_frames. cbn [filename]. rewrite Hfile.
    cbn [run_outcome run_db]. intros Hv' [Hproc Herr].
    by eexists _, _, v'.
  - unfold process_video_task. rewrite Hvideo.
    change (select_slots (commit_video db ?v) ?c) with (select_slots db c).
    rewrite bool_decide_false by done.
    unfold _process_video_frames. cbn [filename]. by rewrite Hfile.
  - unfold process_video_task. rewrite Hvideo.
    change (select_slots (commit_video db ?v) ?c) with (select_slots db c).
    rewrite bool_decide_false by done.
    unfold _process_video_frames. cbn [filename]. by rewrite Hfile.
  - intros unknown Hunknown. unfold process_video_task. rewrite Hunknown.
    by eexists.
Qed.

Lemma task_fails_without_file_witness :
  run_frames
    (process_video_task Example.uploaded (λ _, None) 0%Q 60%Q 0%Q 41%N 31%N
       None None None)
  = [].
Proof.
  refine (proj1 (proj2 (task_fails_without_file BoxKernel.kernel
                   Example.uploaded
                   (λ _, None) 0%Q 60%Q 0%Q 41%N 31%N None None None
                   (mkVideo 31%N Example.camera "north.mp4" false None None
                      None)
                   eq_refl _ eq_refl))).
  discriminate.
Defined.

(** X7: after the task has run for a known video, the processing-status
    endpoint answers for it with the start and finish times of the run;
    after a failure it reports [processed = False], the message of the
    exception and a progress of 50, after a success [processed = True], a
    progress of 100 and the error recorded before the run, which a success
    does not clear. *)
Theorem status_after_task (G : Shapely) (db : DB G)
    (storage : string → option VideoFile)
    (started finished upload_time : datetime) (first_id id : UUID)
    (stride : option Z) (iou conf : option Q) (video : Video)
    (Hvideo : select_video db id = Some video) :
  let run :=
    process_video_task db storage started finished upload_time first_id id
      stride iou conf in
  ∃ st,
    get_video_processing_status (run_db run) id = Return st ∧
    vps_video_id st = id ∧
    vps_processing_started_at st = Some started ∧
    vps_processing_finished_at st = Some finished ∧
    match run_outcome run with
    | Raise exc msg =>
        vps_processed st = false ∧ vps_processing_error st = Some msg ∧
        vps_progress_percentage st = Some 50%Q
    | Return r =>
        vps_processed st = true ∧
        vps_processing_error st = processing_error video ∧
        vps_progress_percentage st = Some 100%Q
    end.
Proof.
  intros run.
  destruct (process_video_task_video db storage started finished upload_time
              first_id id stride iou conf video Hvideo)
    as (v' & Hsel & Hid & _ & _ & Hstart & Hfin & Hout).
  fold run in Hsel, Hout. unfold get_video_processing_status.
  rewrite Hsel. eexists. split; [done|]. cbn.
  split; [done|]. split; [done|]. split; [done|].
  rewrite Hstart. destruct (run_outcome run).
  - destruct Hout as [-> ->]. done.
  - destruct Hout as [-> ->]. done.
Qed.

Lemma status_after_task_witness :
  ∃ st,
    get_video_processing_status (run_db Example.bare_run) 33%N = Return st ∧
    vps_processed st = false ∧
    vps_progress_percentage st = Some 50%Q.
Proof.
  destruct (status_after_task BoxKernel.kernel Example.bare Example.storage
              0%Q 60%Q 0%Q 41%N 33%N None None None
              (mkVideo 33%N Example.bare_camera "north.mp4" false None None
                 None) eq_refl)
    as (st & Hst & _ & _ & _ & Hout).
  exists st. split; [exact Hst|].
  change (run_outcome _) with
    (@Raise TaskResult "ValueError" "No parking slots defined for this camera")
    in Hout.
  destruct Hout as (Hp & _ & Hprog). by split.
Defined.

(** X8: the task writes no occupancy event and changes no slot: whatever
    its outcome, the current-occupancy statistics are the same after it as
    before. *)
Theorem task_keeps_occupancy_stats (G : Shapely) (db : DB G)
    (storage : string → option VideoFile)
    (started finished upload_time : datetime) (first_id id : UUID)
    (stride : option Z) (iou conf : option Q)
    (camera_id parking_lot_id : option UUID) :
  let run :=
    process_video_task db storage started finished upload_time first_id id
      stride iou conf in
  occupancy_events (run_db run) = occupancy_events db ∧
  parking_slots (run_db run) = parking_slots db ∧
  get_current_occupancy_stats (run_db run) camera_id parking_lot_id =
  get_current_occupancy_stats db camera_id parking_lot_id.
Proof.
  intros run.
  assert (Hsame : occupancy_events (run_db run) = occupancy_events db ∧
                  parking_slots (run_db run) = parking_slots db).
  { unfold run, process_video_task.
    destruct (select_video db id) as [video|]; [|done].
    destruct (bool_decide _); [done|].
    by destruct (_process_video_frames _ _ _ _ _ _). }
  destruct Hsame as [Hevents Hslots]. split; [done|]. split; [done|].
  unfold get_current_occupancy_stats, count_step, latest_event, select_slots.
  by rewrite Hevents, Hslots.
Qed.

(** ** The current-occupancy statistics *)

Section event_stats_facts.
Context {G : Shapely}.

Lemma count_step_fold_no_event (db : DB G) lot (ids : list UUID) (o f u : Z) :
  (∀ id, id ∈ ids → latest_event db id lot = None) →
  foldl (count_step db lot) (o, f, u) ids = (o, f, u + len ids)%Z.
Proof.
  revert u. induction ids as [|id ids IH]; intros u Hnone.
  - unfold len. simpl. f_equal. lia.
  - cbn [foldl]. unfold count_step at 2.
    rewrite Hnone by apply list_elem_of_here.
    rewrite IH by (intros id' Hid'; by apply Hnone, list_elem_of_further).
    unfold len. cbn [length]. f_equal. lia.
Qed.

End event_stats_facts.

(** X9: the current-occupancy statistics count every selected slot exactly
    once: the numbers of occupied, free and unknown slots are not negative
    and add up to [total_slots], which is the number of selected slots; a
    slot without any event is counted as unknown, so that without events
    all slots are unknown and the rate is [0]. *)
Theorem occupancy_counters_partition (G : Shapely) (db : DB G)
    (camera_id parking_lot_id : option UUID) :
  let stats := get_current_occupancy_stats db camera_id parking_lot_id in
  let slots :=
    match camera_id with
    | Some c => select_slots db c
    | None => parking_slots db
    end in
  st_total_slots stats = len slots ∧
  (0 <= st_occupied_slots stats)%Z ∧ (0 <= st_free_slots stats)%Z ∧
  (0 <= st_unknown_slots stats)%Z ∧
  (st_occupied_slots stats + st_free_slots stats + st_unknown_slots stats
   = st_total_slots stats)%Z ∧
  (occupancy_events db = [] →
   st_occupied_slots stats = 0%Z ∧ st_free_slots stats = 0%Z ∧
   st_unknown_slots stats = st_total_slots stats ∧
   (st_occupancy_rate stats == 0)%Q).
Proof.
  intros stats slots. unfold stats, get_current_occupancy_stats.
  fold slots. set (slot_ids := map slot_id slots).
  assert (Hlen : len slot_ids = len slots)
    by (unfold len, slot_ids; by rewrite length_map).
  destruct (bool_decide (slot_ids = [])) eqn:Hnil.
  - apply bool_decide_eq_true in Hnil. rewrite <- Hlen, Hnil. by cbn.
  - split; [|split; [|split; [|split; [|split]]]].
    + by destruct (foldl _ _ slot_ids) as [[o f] u].
    + destruct (count_step_fold db parking_lot_id slot_ids 0 0 0)
        as (o & f & u & -> & ? & ? & ? & ?). simpl. lia.
    + destruct (count_step_fold db parking_lot_id slot_ids 0 0 0)
        as (o & f & u & -> & ? & ? & ? & ?). simpl. lia.
    + destruct (count_step_fold db parking_lot_id slot_ids 0 0 0)
        as (o & f & u & -> & ? & ? & ? & ?). simpl. lia.
    + destruct (count_step_fold db parking_lot_id slot_ids 0 0 0)
        as (o & f & u & -> & ? & ? & ? & ?). simpl. lia.
    + intros Hevents. rewrite count_step_fold_no_event.
      * cbn. split; [done|]. split; [done|]. split; [lia|].
        destruct (len slot_ids >? 0)%Z; [|done].
        unfold int_div. unfold Qeq. simpl. lia.
      * intros id _. unfold latest_event. rewrite Hevents.
        by destruct parking_lot_id.
Qed.

(** ** The latest-frame status *)

Section current_status_facts.
Context {G : Shapely}.

(** Members of a set among distinct elements that include the set. *)
Lemma length_filter_elem_of (l : list UUID) (X : gset UUID) :
  NoDup l → X ⊆ list_to_set l →
  length (filter (λ x, x ∈ X) l) = size X.
Proof.
  intros Hnd Hsub. unfold size, set_size. simpl.
  apply Permutation_length, NoDup_Permutation.
  - by apply NoDup_filter.
  - apply NoDup_elements.
  - intros x. rewrite list_elem_of_filter, elem_of_elements. split.
    + by intros [? _].
    + intros Hx. split; [done|].
      by apply Hsub, elem_of_list_to_set in Hx.
Qed.

Lemma slot_status_count (slots : list (ParkingSlot G)) (occ : gset UUID) :
  let listed :=
    map (λ slot,
           mkSlotStatus (slot_id slot) (slot_name slot)
             (if bool_decide (slot_id slot ∈ occ)
              then "occupied" else "free")
             (Some (slot_polygon slot)))
      slots in
  length (filter (λ s, ss_status s = "occupied"%string) listed) =
    length (filter (λ x, x ∈ occ) (slot_id <$> slots)) ∧
  length (filter (λ s, ss_status s = "free"%string) listed) =
    length slots - length (filter (λ x, x ∈ occ) (slot_id <$> slots)) ∧
  length (filter (λ x, x ∈ occ) (slot_id <$> slots)) ≤ length slots.
Proof.
  induction slots as [|slot slots (IH1 & IH2 & IH3)]; [done|].
  cbn [map]. rewrite fmap_cons, !filter_cons. cbn [ss_status].
  destruct (decide (slot_id slot ∈ occ)) as [Hin|Hout].
  - rewrite bool_decide_true by done.
    rewrite decide_True by done. rewrite decide_False by done.
    simpl. rewrite IH1, IH2. lia.
  - rewrite bool_decide_false by done.
    rewrite decide_False by done. rewrite decide_True by done.
    simpl. rewrite IH1, IH2. lia.
Qed.

End current_status_facts.

(** X10: in every variant of the latest-frame status the summary satisfies
    [occupied + free = total_slots]; when the slots of the camera have
    distinct identifiers, the [ok] variant lists every slot once, each as
    occupied or free, and the numbers of slots listed as occupied and as
    free are the [occupied] and [free] of the summary; the [no_detections]
    variant lists every slot as unknown. *)
Theorem status_summary_matches_slots (G : Shapely) (db : DB G) (cam : UUID)
    (thr : Q) (Hids : NoDup (slot_id <$> select_slots db cam)) :
  let r := get_current_parking_status db cam thr in
  (sum_occupied (cs_summary r) + sum_free (cs_summary r)
   = sum_total_slots (cs_summary r))%Z ∧
  (cs_status r = "ok"%string →
   ss_id <$> cs_slots r = slot_id <$> select_slots db cam ∧
   len (filter (λ s, ss_status s = "occupied"%string) (cs_slots r))
     = sum_occupied (cs_summary r) ∧
   len (filter (λ s, ss_status s = "free"%string) (cs_slots r))
     = sum_free (cs_summary r) ∧
   sum_total_slots (cs_summary r) = len (cs_slots r)) ∧
  (cs_status r = "no_detections"%string →
   ss_id <$> cs_slots r = slot_id <$> select_slots db cam ∧
   Forall (λ s, ss_status s = "unknown"%string) (cs_slots r) ∧
   sum_occupied (cs_summary r) = 0%Z).
Proof.
  intros r. unfold r, get_current_parking_status.
  destruct (latest_processed_video db cam) as [video|]; [|done].
  destruct (bool_decide (select_slots db cam = [])); [done|].
  destruct (max_frame_number (select_detections db (video_id video)))
    as [latest|].
  - cbn [cs_summary cs_status cs_slots sum_occupied sum_free sum_total_slots].
    split; [lia|]. split; [|done]. intros _.
    set (occ := occupied_slots_of _ _ thr).
    destruct (slot_status_count (select_slots db cam) occ) as (H1 & H2 & H3).
    assert (Hsize : length (filter (λ x, x ∈ occ)
                              (slot_id <$> select_slots db cam)) = size occ).
    { apply length_filter_elem_of; [done|].
      etrans; [apply occupied_slots_of_keys|].
      intros x. rewrite !elem_of_list_to_set. unfold PyDict.keys.
      unfold slot_polygons_of.
      rewrite of_items_NoDup by (by rewrite <- list_fmap_compose).
      by rewrite <- list_fmap_compose. }
    split; [by rewrite <- list_fmap_compose|].
    unfold len. rewrite H1, H2, Hsize, length_map. rewrite Hsize in H3.
    split; [done|]. split; [lia|done].
  - cbn [cs_summary cs_status cs_slots sum_occupied sum_free sum_total_slots].
    split; [lia|]. split; [done|]. intros _.
    split; [by rewrite <- list_fmap_compose|]. split; [|done].
    apply Forall_forall. by intros s (slot & -> & _)%list_elem_of_fmap.
Qed.

Lemma status_summary_matches_slots_witness :
  len (filter (λ s, ss_status s = "occupied"%string)
         (cs_slots (get_current_parking_status Example.db Example.camera 0.3)))
  = sum_occupied
      (cs_summary (get_current_parking_status Example.db Example.camera 0.3)).
Proof.
  assert (Hids : NoDup (slot_id <$> select_slots Example.db Example.camera))
    by by_compute.
  destruct (status_summary_matches_slots BoxKernel.kernel Example.db
              Example.camera 0.3 Hids) as (_ & Hok & _).
  by destruct Hok as (_ & Hocc & _).
Defined.

(** ** Sums over the timeline *)

Section sum_facts.

Lemma foldl_Zadd (l : list Z) (a : Z) :
  foldl Z.add a l = (a + foldl Z.add 0 l)%Z.
Proof.
  revert a. induction l as [|x l IH]; intros a; cbn [foldl]; [lia|].
  rewrite (IH (a + x)%Z), (IH (0 + x)%Z). lia.
Qed.

Lemma sum_Z_cons (x : Z) (l : list Z) : sum_Z (x :: l) = (x + sum_Z l)%Z.
Proof. unfold sum_Z. cbn [foldl]. rewrite (foldl_Zadd l (0 + x)). lia. Qed.

Lemma sum_Z_Permutation (l k : list Z) : l ≡ₚ k → sum_Z l = sum_Z k.
Proof.
  induction 1 as [|x l k _ IH|x y l|l k m _ IH1 _ IH2]; [done|..].
  - by rewrite !sum_Z_cons, IH.
  - rewrite !sum_Z_cons. lia.
  - by rewrite IH1.
Qed.

(** Counting the elements of a list key by key, over distinct keys that
    include every key of the list, counts every element once. *)
Lemma sum_counts {A K : Type} `{EqDecision K} (key : A → K) (ks : list K)
    (xs : list A) :
  NoDup ks → (∀ x, x ∈ xs → key x ∈ ks) →
  sum_Z ((λ k, len (filter (λ x, key x = k) xs)) <$> ks) = len xs.
Proof.
  intros Hnd. revert xs. induction Hnd as [|k ks Hnotin Hnd IH]; intros xs Hks.
  - destruct xs as [|x xs]; [done|].
    by specialize (Hks x (list_elem_of_here _ _)); apply elem_of_nil in Hks.
  - rewrite fmap_cons, sum_Z_cons.
    assert (Hrest :
      (λ k', len (filter (λ x, key x = k') xs)) <$> ks =
      (λ k', len (filter (λ x, key x = k')
                    (filter (λ x, key x ≠ k) xs))) <$> ks).
    { apply list_fmap_ext. intros i k' Hi. f_equal.
      assert (k' ≠ k) by (intros ->; by apply list_elem_of_lookup_2 in Hi).
      clear -H. induction xs as [|x xs IHxs]; [done|].
      rewrite !filter_cons.
      destruct (decide (key x = k')) as [Hx|Hx].
      - rewrite decide_True by congruence. rewrite filter_cons.
        rewrite decide_True by done. by rewrite IHxs.
      - destruct (decide (key x ≠ k)); [|done].
        rewrite filter_cons. by rewrite decide_False. }
    rewrite Hrest, IH.
    + clear. unfold len. induction xs as [|x xs IHxs]; [done|].
      rewrite !filter_cons.
      destruct (decide (key x = k)).
      * rewrite decide_False by (by intros ?). simpl. lia.
      * rewrite decide_True by done. simpl. lia.
    + intros x [Hne Hx]%list_elem_of_filter.
      by apply Hks, elem_of_cons in Hx as [?|?].
Qed.

Lemma foldl_Qplus_bounds (l : list Q) (a : Q) :
  Forall (λ x, 0 <= x <= 1)%Q l →
  (a <= foldl Qplus a l <= a + inject_Z (len l))%Q.
Proof.
  intros Hall. revert a. induction Hall as [|x l [Hx0 Hx1] _ IH]; intros a.
  - cbn [foldl]. change (inject_Z (len [])) with 0%Q. lra.
  - cbn [foldl]. specialize (IH (a + x)%Q).
    replace (len (x :: l)) with (1 + len l)%Z by (unfold len; simpl; lia).
    rewrite inject_Z_plus. change (inject_Z 1) with 1%Q. lra.
Qed.

End sum_facts.

Section occupancy_stats_extras.
Context {G : Shapely}.

Lemma timeline_detection_counts (db : DB G) vid cam thr :
  te_total_detections <$> os_timeline (get_occupancy_stats db vid cam thr) ≡ₚ
  (λ k, len (filter (λ d, frame_number d = k)
               (order_by_frame_number (select_detections db vid)))) <$>
    PyDict.keys
      (frame_occupancy_of (order_by_frame_number (select_detections db vid))
         (slot_polygons_of (select_slots db cam)) thr).
Proof.
  unfold get_occupancy_stats. cbn [os_timeline].
  rewrite <- list_fmap_compose.
  change (te_total_detections ∘ _) with fo_detections.
  rewrite py_sorted_Permutation.
  unfold PyDict.values, PyDict.keys. rewrite <- !list_fmap_compose.
  match goal with |- ?l ≡ₚ ?k => enough (Heq : l = k) by (by rewrite Heq) end.
  apply list_fmap_ext. intros i [k e] Hi. simpl.
  apply list_elem_of_lookup_2, frame_occupancy_item in Hi.
  by apply frame_occupancy_entry in Hi as (_ & _ & _ & ->).
Qed.

End occupancy_stats_extras.

(** X11: the occupancy timeline accounts for every detection of the video
    exactly once: the [total_detections] of its entries add up to the
    number of stored detections of the video; [frames_analyzed] is the
    number of distinct frame numbers among them, and every entry has
    [occupied_slots + free_slots = total_slots] with no negative count. *)
Theorem timeline_counts_every_detection (G : Shapely) (db : DB G)
    (vid cam : UUID) (thr : Q) :
  let r := get_occupancy_stats db vid cam thr in
  sum_Z (te_total_detections <$> os_timeline r)
    = len (select_detections db vid) ∧
  os_frames_analyzed r =
    Z.of_nat
      (size (list_to_set (frame_number <$> select_detections db vid)
               : gset Z)) ∧
  os_total_slots r = len (select_slots db cam) ∧
  ∀ e, e ∈ os_timeline r →
    te_total_slots e = os_total_slots r ∧
    (te_occupied_slots e + te_free_slots e = te_total_slots e)%Z ∧
    (0 <= te_occupied_slots e)%Z ∧ (0 <= te_free_slots e)%Z.
Proof.
  intros r. split; [|split; [|split]].
  - unfold r. rewrite (sum_Z_Permutation _ _ (timeline_detection_counts _ _ _ _)).
    rewrite sum_counts.
    + unfold len. by rewrite order_by_frame_number_Permutation.
    + apply group_keys_NoDup.
    + intros d Hd. apply group_keys_elem_of. by exists d.
  - assert (Hlen : os_frames_analyzed r
                   = len (te_frame_number <$> os_timeline r)).
    { unfold r, get_occupancy_stats, len. cbn. by rewrite !length_map. }
    rewrite Hlen. unfold r, len.
    rewrite (timeline_frame_numbers db vid cam thr).
    rewrite <- (size_list_to_set (C := gset Z)) by apply group_keys_NoDup.
    do 2 f_equal. apply set_eq. intros f.
    rewrite !elem_of_list_to_set. unfold frame_occupancy_of.
    rewrite group_keys_elem_of, list_elem_of_fmap.
    setoid_rewrite order_by_frame_number_Permutation.
    split; intros (d & ? & ?); by exists d.
  - done.
  - intros e He.
    pose proof (timeline_entry _ _ _ _ _ He) as (_ & _ & Hocc).
    pose proof (size_occupied_le
                  (filter (λ d, frame_number d = te_frame_number e)
                     (order_by_frame_number (select_detections db vid)))
                  (select_slots db cam) thr) as Hle.
    rewrite <- Hocc in Hle. revert He Hle. unfold r, get_occupancy_stats.
    cbn [os_timeline os_total_slots].
    intros (fd & -> & _)%list_elem_of_fmap. cbn. lia.
Qed.

Section average_facts.
Context {G : Shapely}.

Lemma average_unfold (db : DB G) vid cam thr :
  let r := get_occupancy_stats db vid cam thr in
  os_average_occupancy_rate r =
  if bool_decide (os_timeline r = []) then 0%Q
  else (sum_Q (map te_occupancy_rate (os_timeline r))
        / inject_Z (len (os_timeline r)))%Q.
Proof. done. Qed.

Lemma timeline_rate_unit (db : DB G) vid cam thr e :
  e ∈ os_timeline (get_occupancy_stats db vid cam thr) →
  (0 <= te_occupancy_rate e <= 1)%Q.
Proof.
  intros He. pose proof (timeline_entry _ _ _ _ _ He) as (_ & _ & Hocc).
  revert He Hocc. unfold get_occupancy_stats. cbn [os_timeline].
  intros (fd & -> & _)%list_elem_of_fmap.
  cbn [te_occupancy_rate te_total_slots te_occupied_slots te_frame_number].
  intros Hocc.
  destruct (Z.gtb_spec (len (select_slots db cam)) 0); [|done].
  apply int_div_unit; [|done]. rewrite Hocc. apply size_occupied_le.
Qed.

End average_facts.

(** X12: the average occupancy rate of the occupancy statistics is the mean
    of the rates of the timeline and lies between 0 and 1; for a video
    without stored detections the timeline is empty, [frames_analyzed] is
    [0] and the average is [0], with no division. *)
Theorem average_rate_in_unit (G : Shapely) (db : DB G) (vid cam : UUID)
    (thr : Q) :
  let r := get_occupancy_stats db vid cam thr in
  (0 <= os_average_occupancy_rate r <= 1)%Q ∧
  (os_timeline r ≠ [] →
   (os_average_occupancy_rate r * inject_Z (len (os_timeline r))
    == sum_Q (map te_occupancy_rate (os_timeline r)))%Q) ∧
  (select_detections db vid = [] →
   os_timeline r = [] ∧ os_frames_analyzed r = 0%Z ∧
   os_average_occupancy_rate r = 0%Q).
Proof.
  intros r. split; [|split].
  - unfold r. rewrite average_unfold. cbv zeta.
    destruct (bool_decide _) eqn:Hnil; [done|].
    apply bool_decide_eq_false in Hnil.
    destruct (foldl_Qplus_bounds
                (map te_occupancy_rate
                   (os_timeline (get_occupancy_stats db vid cam thr))) 0)
      as [Hlo Hhi].
    { apply Forall_forall. intros x (e & -> & He)%list_elem_of_fmap.
      by eapply timeline_rate_unit. }
    assert (Hlen : len (map te_occupancy_rate
                          (os_timeline (get_occupancy_stats db vid cam thr)))
                   = len (os_timeline (get_occupancy_stats db vid cam thr)))
      by (unfold len; by rewrite length_map).
    rewrite Hlen in Hhi.
    assert (Hpos : (0 < inject_Z
                           (len (os_timeline
                                   (get_occupancy_stats db vid cam thr))))%Q).
    { rewrite <- (Zlt_Qlt 0). unfold len.
      destruct (os_timeline (get_occupancy_stats db vid cam thr));
        [done|simpl; lia]. }
    apply ratio_in_unit; [done| |done]. unfold sum_Q. lra.
  - intros Hne. unfold r in *. rewrite average_unfold. cbv zeta.
    rewrite bool_decide_false by done.
    field. intros Hz.
    assert (Hpos : (0 < inject_Z
                           (len (os_timeline
                                   (get_occupancy_stats db vid cam thr))))%Q).
    { rewrite <- (Zlt_Qlt 0). unfold len.
      destruct (os_timeline (get_occupancy_stats db vid cam thr));
        [done|simpl; lia]. }
    lra.
  - intros Hnone. unfold r, get_occupancy_stats. by rewrite Hnone.
Qed.

(** ** The occupied set as a function of detections and threshold *)

(** X13: the set of slots marked by a list of detections is the union of
    the sets marked by its parts, so that it does not depend on the order of
    the detections and grows with them; it only contains keys of the slot
    mapping, and raising the threshold can only remove slots from it. *)
Theorem occupied_slots_union_and_threshold (G : Shapely)
    (slot_polygons : PyDict.dict UUID (Polygon G * string))
    (ds ds' : list Detection) (thr thr' : Q) :
  occupied_slots_of (ds ++ ds') slot_polygons thr =
    occupied_slots_of ds slot_polygons thr ∪
    occupied_slots_of ds' slot_polygons thr ∧
  (ds ≡ₚ ds' →
   occupied_slots_of ds slot_polygons thr =
   occupied_slots_of ds' slot_polygons thr) ∧
  occupied_slots_of ds slot_polygons thr
    ⊆ list_to_set (PyDict.keys slot_polygons) ∧
  ((thr <= thr')%Q →
   occupied_slots_of ds slot_polygons thr'
     ⊆ occupied_slots_of ds slot_polygons thr).
Proof.
  split; [|split; [|split]].
  - apply set_eq. intros sid.
    rewrite elem_of_union, !elem_of_occupied_slots_of. split.
    + intros (d & poly & name & [Hd|Hd]%elem_of_app & Hin & Hle);
        [left | right]; by exists d, poly, name.
    + intros [(d & poly & name & Hd & Hin & Hle)
             |(d & poly & name & Hd & Hin & Hle)];
        exists d, poly, name; (split; [|done]); apply elem_of_app; auto.
  - intros Hperm. apply set_eq. intros sid.
    rewrite !elem_of_occupied_slots_of.
    by setoid_rewrite Hperm.
  - apply occupied_slots_of_keys.
  - intros Hthr sid. rewrite !elem_of_occupied_slots_of.
    intros (d & poly & name & Hd & Hin & Hle).
    exists d, poly, name. split; [done|]. split; [done|].
    eapply Qle_trans; eassumption.
Qed.

(** X14: at the lower bound [iou_threshold = 0] of the query parameter, the
    aggregation marks every slot of the mapping as soon as the frame has one
    detection (an IoU is never negative), whereas the best-slot loop gives a
    detection whose IoU is [0] with every slot no slot at all. *)
Theorem zero_threshold_marks_every_slot (G : Shapely) (HL : ShapelyLaws G)
    (slot_polygons : PyDict.dict UUID (Polygon G * string))
    (ds : list Detection) (Hne : ds ≠ []) :
  occupied_slots_of ds slot_polygons 0
    = list_to_set (PyDict.keys slot_polygons) ∧
  ∀ det : Polygon G,
    (∀ item, item ∈ PyDict.items slot_polygons →
             (calculate_iou det item.2.1 == 0)%Q) →
    best_slot_id (best_slot det slot_polygons 0) = None.
Proof.
  split.
  - apply set_eq. intros sid. split; [apply occupied_slots_of_keys|].
    rewrite elem_of_list_to_set. unfold PyDict.keys.
    intros ([sid' [poly name]] & -> & Hin)%list_elem_of_fmap.
    apply elem_of_occupied_slots_of.
    destruct ds as [|d ds]; [done|].
    exists d, poly, name. split; [apply list_elem_of_here|].
    split; [done|]. apply calculate_iou_in_unit. exact HL.
  - intros det Hzero.
    pose proof (best_of_foldl det 0 (PyDict.items slot_polygons)) as Hbest.
    fold (best_slot det slot_polygons 0) in Hbest. unfold best_of in Hbest.
    destruct (best_slot_id (best_slot det slot_polygons 0)) as [sid|];
      [|done].
    destruct Hbest as ((pre & poly & name & post & Hitems & _ & Hiou & _)
                       & _ & Hpos & _).
    assert (Hin : (sid, (poly, name)) ∈ PyDict.items slot_polygons).
    { rewrite Hitems. apply elem_of_app. right. apply list_elem_of_here. }
    specialize (Hzero _ Hin). simpl in Hzero.
    rewrite Hiou, Hzero in Hpos. by apply Qlt_irrefl in Hpos.
Qed.

Lemma zero_threshold_marks_every_slot_witness :
  occupied_slots_of (detections Example.db)
    (slot_polygons_of (parking_slots Example.db)) 0
  = list_to_set
      (PyDict.keys (slot_polygons_of (parking_slots Example.db))).
Proof.
  refine (proj1 (zero_threshold_marks_every_slot BoxKernel.kernel kernel_laws
                   (slot_polygons_of (parking_slots Example.db))
                   (detections Example.db) _)).
  discriminate.
Defined.

(** ** [get_frame_detections] *)

Lemma keys_of_items_elem_of {K V : Type} `{EqDecision K}
    (kvs : list (K * V)) (k : K) :
  k ∈ PyDict.keys (PyDict.of_items kvs) ↔ k ∈ kvs.*1.
Proof.
  unfold PyDict.of_items.
  induction kvs as [|[k' v'] kvs IH] using rev_ind.
  - done.
  - rewrite foldl_app, fmap_app. cbn [foldl]. rewrite keys_setitem.
    rewrite elem_of_app, <- IH. simpl.
    destruct (decide
                (k' ∈ PyDict.keys
                        (foldl (λ d kv, PyDict.setitem d kv.1 kv.2) [] kvs)))
      as [Hin|Hnotin].
    + split; [by left|]. intros [?|Hk]; [done|].
      apply list_elem_of_singleton in Hk. by subst.
    + by rewrite elem_of_app.
Qed.

Lemma length_omap_le {A B : Type} (f : A → option B) (l : list A) :
  length (omap f l) ≤ length l.
Proof.
  induction l as [|x l IH]; [done|].
  change (omap f l) with (list_omap A B f l) in IH.
  simpl. destruct (f x); simpl; lia.
Qed.

Lemma omap_fmap_compose {A B C : Type} (f : A → B) (g : B → option C)
    (l : list A) :
  omap g (f <$> l) = omap (λ x, g (f x)) l.
Proof.
  induction l as [|x l IH]; [done|].
  csimpl. by rewrite IH.
Qed.

Section frame_detections_facts.
Context {G : Shapely}.
Implicit Types (sp : PyDict.dict UUID (Polygon G * string)) (thr : Q).

(** What the best-slot loop returns when it returns a slot. *)
Lemma best_slot_reaches (det : Polygon G) sp thr sid :
  best_slot_id (best_slot det sp thr) = Some sid →
  ∃ poly name,
    (sid, (poly, name)) ∈ PyDict.items sp ∧
    best_slot_name (best_slot det sp thr) = Some name ∧
    best_iou (best_slot det sp thr) = calculate_iou det poly ∧
    (thr <= best_iou (best_slot det sp thr))%Q ∧
    (0 < best_iou (best_slot det sp thr))%Q.
Proof.
  intros Hid.
  pose proof (best_of_foldl det thr (PyDict.items sp)) as Hbest.
  fold (best_slot det sp thr) in Hbest. unfold best_of in Hbest.
  rewrite Hid in Hbest.
  destruct Hbest as ((pre & poly & name & post & Hitems & Hname & Hiou & _)
                     & Hthr & Hpos & _).
  exists poly, name. split; [|done].
  rewrite Hitems. apply elem_of_app. right. apply list_elem_of_here.
Qed.

Lemma best_slot_none (det : Polygon G) sp thr :
  best_slot_id (best_slot det sp thr) = None →
  best_slot_name (best_slot det sp thr) = None.
Proof.
  intros Hid.
  pose proof (best_of_foldl det thr (PyDict.items sp)) as Hbest.
  fold (best_slot det sp thr) in Hbest. unfold best_of in Hbest.
  rewrite Hid in Hbest. by destruct Hbest as (? & _).
Qed.

Lemma occupied_slot_ids_foldl sp thr (ds : list Detection)
    (occ : gset UUID) :
  foldl
    (λ occ detection,
       match
         best_slot_id
           (best_slot (bbox_to_polygon (bbox_normalized detection)) sp thr)
       with
       | Some slot_id => {[slot_id]} ∪ occ
       | None => occ
       end)
    occ ds
  = occ ∪
    list_to_set
      (omap
         (λ d, best_slot_id
                 (best_slot (bbox_to_polygon (bbox_normalized d)) sp thr))
         ds).
Proof.
  revert occ. induction ds as [|d ds IH]; intros occ; cbn [foldl].
  - apply set_eq. intros x. rewrite elem_of_union, elem_of_list_to_set.
    split; [by left|]. intros [?|Hx]; [done|]. by apply elem_of_nil in Hx.
  - rewrite IH.
    destruct (best_slot_id
                (best_slot (bbox_to_polygon (bbox_normalized d)) sp thr))
      as [sid|] eqn:Hbest; apply set_eq; intros x;
      rewrite !elem_of_union, !elem_of_list_to_set, !list_elem_of_omap.
    + rewrite elem_of_singleton. split.
      * intros [[->|?]|(d' & Hd' & Hx)]; [|by left|].
        -- right. exists d. split; [apply list_elem_of_here|done].
        -- right. exists d'. split; [by apply list_elem_of_further|done].
      * intros [?|(d' & [->|Hd']%elem_of_cons & Hx)]; [by left; right| |].
        -- left. left. congruence.
        -- right. by exists d'.
    + split.
      * intros [?|(d' & Hd' & Hx)]; [by left|].
        right. exists d'. split; [by apply list_elem_of_further|done].
      * intros [?|(d' & [->|Hd']%elem_of_cons & Hx)]; [by left|congruence|].
        right. by exists d'.
Qed.

(** The occupied slots of a frame are the best slots of its detections. *)
Lemma occupied_slot_ids_as_list sp thr (ds : list Detection) :
  occupied_slot_ids_of ds sp thr =
  list_to_set
    (omap
       (λ d, best_slot_id
               (best_slot (bbox_to_polygon (bbox_normalized d)) sp thr))
       ds).
Proof.
  unfold occupied_slot_ids_of. rewrite occupied_slot_ids_foldl.
  by rewrite (left_id_L ∅ (∪)).
Qed.

Lemma elem_of_occupied_slot_ids_of sp thr (ds : list Detection) sid :
  sid ∈ occupied_slot_ids_of ds sp thr ↔
  ∃ d, d ∈ ds ∧
       best_slot_id
         (best_slot (bbox_to_polygon (bbox_normalized d)) sp thr) = Some sid.
Proof.
  rewrite occupied_slot_ids_as_list, elem_of_list_to_set.
  apply list_elem_of_omap.
Qed.

(** A best slot is also a slot of the any-match aggregation. *)
Lemma occupied_slot_ids_subseteq sp thr (ds : list Detection) :
  occupied_slot_ids_of ds sp thr ⊆ occupied_slots_of ds sp thr.
Proof.
  intros sid (d & Hd & Hid)%elem_of_occupied_slot_ids_of.
  apply best_slot_reaches in Hid as (poly & name & Hin & _ & Hiou & Hthr & _).
  apply elem_of_occupied_slots_of. exists d, poly, name.
  split; [done|]. split; [done|]. by rewrite <- Hiou.
Qed.

Lemma size_occupied_slot_ids_le sp thr (ds : list Detection) :
  size (occupied_slot_ids_of ds sp thr) ≤ length ds.
Proof.
  rewrite occupied_slot_ids_as_list.
  etrans; [apply size_list_to_set_le|]. apply length_omap_le.
Qed.

End frame_detections_facts.

(** X15: [get_frame_detections] lists the detections of the frame in
    order; an entry is in a slot exactly when it names one, and then the
    slot is one of the camera's and its IoU is positive and reaches the
    threshold.  The response without detections has the keys of the empty
    frame; otherwise the occupied slots are the slots named by the entries,
    they are among the slots the any-match aggregation marks for the same
    detections, there are no more of them than detections or slots, and
    free count and rate are consistent with them. *)
Theorem frame_detections_consistent (G : Shapely) (db : DB G)
    (vid cam : UUID) (frame : Z) (thr : Q) :
  let r := get_frame_detections db vid frame cam thr in
  let ds := filter (λ d, frame_number d = frame) (select_detections db vid) in
  let slots := select_slots db cam in
  fdr_frame_number r = frame ∧
  fdr_total_vehicles r = len ds ∧
  fde_id <$> fdr_detections r = det_id <$> ds ∧
  (∀ e, e ∈ fdr_detections r →
     (fde_is_in_slot e = true ↔ is_Some (fde_parking_slot_id e)) ∧
     (is_Some (fde_iou e) ↔ is_Some (fde_parking_slot_id e)) ∧
     (is_Some (fde_parking_slot_name e) ↔ is_Some (fde_parking_slot_id e)) ∧
     ∀ sid, fde_parking_slot_id e = Some sid →
       sid ∈ slot_id <$> slots ∧
       ∃ v, fde_iou e = Some v ∧ (0 < v)%Q ∧ (thr <= v)%Q) ∧
  match fdr_occupancy r with
  | empty_frame_occupancy occ n =>
      ds = [] ∧ occ = [] ∧ n = 0%Z ∧
      fdr_frame_time r = None ∧ fdr_offset_seconds r = None
  | frame_occupancy occ occupied free rate =>
      fdr_frame_time r = frame_time <$> head ds ∧
      is_Some (fdr_frame_time r) ∧
      occ = list_to_set (omap fde_parking_slot_id (fdr_detections r)) ∧
      occ ⊆ occupied_slots_of ds (slot_polygons_of slots) thr ∧
      occupied = Z.of_nat (size occ) ∧
      (occupied <= fdr_total_vehicles r)%Z ∧
      (occupied + free = len slots)%Z ∧
      (0 <= free)%Z ∧
      (0 <= rate <= 1)%Q
  end.
Proof.
  intros r ds slots. subst r. unfold get_frame_detections.
  fold ds. fold slots.
  assert (Hentries : ∀ e,
    e ∈ map (frame_detection_of (slot_polygons_of slots) thr) ds →
    (fde_is_in_slot e = true ↔ is_Some (fde_parking_slot_id e)) ∧
    (is_Some (fde_iou e) ↔ is_Some (fde_parking_slot_id e)) ∧
    (is_Some (fde_parking_slot_name e) ↔ is_Some (fde_parking_slot_id e)) ∧
    ∀ sid, fde_parking_slot_id e = Some sid →
      sid ∈ slot_id <$> slots ∧
      ∃ v, fde_iou e = Some v ∧ (0 < v)%Q ∧ (thr <= v)%Q).
  { intros e (d & -> & Hd)%list_elem_of_fmap.
    unfold frame_detection_of. cbn [fde_is_in_slot fde_parking_slot_id
      fde_iou fde_parking_slot_name].
    set (det := bbox_to_polygon (bbox_normalized d)).
    destruct (best_slot_id (best_slot det (slot_polygons_of slots) thr))
      as [sid|] eqn:Hid.
    - destruct (best_slot_reaches _ _ _ _ Hid)
        as (poly & name & Hin & Hname & _ & Hthr & Hpos).
      rewrite Hname.
      split; [by rewrite bool_decide_eq_true|].
      split; [done|]. split; [done|].
      intros sid' [= <-]. split.
      + assert (Hkey : sid ∈ PyDict.keys (slot_polygons_of slots)).
        { unfold PyDict.keys. apply list_elem_of_fmap.
          by exists (sid, (poly, name)). }
        unfold slot_polygons_of in Hkey.
        apply (proj1 (keys_of_items_elem_of _ _)) in Hkey.
        apply list_elem_of_fmap in Hkey
          as (kv & -> & (slot & -> & Hslot)%list_elem_of_fmap).
        apply list_elem_of_fmap. by exists slot.
      + by eexists.
    - rewrite (best_slot_none _ _ _ Hid).
      split; [|split; [|split]]; done. }
  destruct ds as [|first_detection rest] eqn:Hds.
  { cbn [fdr_frame_number fdr_total_vehicles fdr_detections fdr_occupancy
         fdr_frame_time fdr_offset_seconds].
    split; [done|]. split; [done|]. split; [done|].
    split; [|done]. intros e He. by apply elem_of_nil in He. }
  rewrite <- Hds in *.
  cbn [fdr_frame_number fdr_total_vehicles fdr_detections fdr_occupancy
       fdr_frame_time fdr_offset_seconds].
  split; [done|]. split; [done|].
  split; [by rewrite <- list_fmap_compose|].
  split; [exact Hentries|].
  split; [by rewrite Hds|]. split; [done|].
  split.
  { rewrite occupied_slot_ids_as_list.
    change (map (frame_detection_of (slot_polygons_of slots) thr) ds)
      with (frame_detection_of (slot_polygons_of slots) thr <$> ds).
    by rewrite omap_fmap_compose. }
  split; [apply occupied_slot_ids_subseteq|].
  split; [done|].
  pose proof (size_occupied_slot_ids_le (slot_polygons_of slots) thr ds)
    as Hle.
  pose proof (size_occupied_le ds slots thr) as [_ Hocc].
  pose proof (subseteq_size _ _
                (occupied_slot_ids_subseteq (slot_polygons_of slots) thr ds))
    as Hsub.
  split; [unfold len; lia|]. split; [lia|]. split; [lia|].
  case_bool_decide as Hslots; [done|].
  apply int_div_unit; [lia|].
  unfold len. destruct slots; [done|]. simpl. lia.
Qed.

(** ** [get_detections_by_frames] *)

Lemma StronglySorted_filter {A : Type} (R : A → A → Prop) (P : A → Prop)
    `{∀ x, Decision (P x)} (l : list A) :
  StronglySorted R l → StronglySorted R (filter P l).
Proof.
  induction 1 as [|x l Hsorted IH Hall]; [constructor|].
  rewrite filter_cons. case_decide; [|done].
  constructor; [done|]. apply Forall_forall.
  intros y [_ Hy]%list_elem_of_filter.
  rewrite Forall_forall in Hall. by apply Hall.
Qed.

Lemma StronglySorted_Forall_mono {A : Type} (R R' : A → A → Prop)
    (P : A → Prop) (l : list A) :
  (∀ x y, P x → P y → R x y → R' x y) →
  Forall P l → StronglySorted R l → StronglySorted R' l.
Proof.
  intros HR HP. induction 1 as [|x l Hsorted IH Hall]; [constructor|].
  apply Forall_cons in HP as [Hx HP].
  constructor; [by apply IH|].
  rewrite Forall_forall in Hall, HP. apply Forall_forall.
  intros y Hy. apply HR; auto.
Qed.

Lemma StronglySorted_take_drop {A : Type} (R : A → A → Prop) (l : list A)
    (n m : nat) :
  StronglySorted R l → StronglySorted R (take n (drop m l)).
Proof.
  intros Hl.
  rewrite <- (take_drop m l) in Hl. apply StronglySorted_app_1_r in Hl.
  rewrite <- (take_drop n (drop m l)) in Hl.
  by apply StronglySorted_app_1_l in Hl.
Qed.

Lemma elem_of_take_drop {A : Type} (l : list A) (n m : nat) (x : A) :
  x ∈ take n (drop m l) → x ∈ l.
Proof.
  intros Hx. eapply elem_of_sublist; [exact Hx|].
  etrans; [apply sublist_take|apply sublist_drop].
Qed.

(** Two strictly ascending lists with the same elements are equal. *)
Lemma StronglySorted_lt_unique (l k : list Z) :
  StronglySorted Z.lt l → StronglySorted Z.lt k →
  (∀ x, x ∈ l ↔ x ∈ k) → l = k.
Proof.
  revert k. induction l as [|x l IH]; intros k Hl Hk Hiff.
  - destruct k as [|y k]; [done|].
    exfalso. eapply (not_elem_of_nil y). apply Hiff, list_elem_of_here.
  - destruct k as [|y k].
    { exfalso. eapply (not_elem_of_nil x). apply Hiff, list_elem_of_here. }
    apply StronglySorted_inv in Hl as [Hl Hxl].
    apply StronglySorted_inv in Hk as [Hk Hyk].
    rewrite Forall_forall in Hxl, Hyk.
    assert (Hxy : x = y).
    { assert (Hx : x ∈ y :: k) by apply Hiff, list_elem_of_here.
      assert (Hy : y ∈ x :: l) by apply Hiff, list_elem_of_here.
      apply elem_of_cons in Hx as [?|Hx]; [done|].
      apply elem_of_cons in Hy as [?|Hy]; [done|].
      specialize (Hxl _ Hy). specialize (Hyk _ Hx). lia. }
    subst y. f_equal. apply IH; [done..|].
    intros z. split; intros Hz.
    + assert (Hz' : z ∈ x :: k)
        by (apply Hiff; by apply list_elem_of_further).
      apply elem_of_cons in Hz' as [->|?]; [|done].
      specialize (Hxl _ Hz). lia.
    + assert (Hz' : z ∈ x :: l)
        by (apply Hiff; by apply list_elem_of_further).
      apply elem_of_cons in Hz' as [->|?]; [|done].
      specialize (Hyk _ Hz). lia.
Qed.

Lemma py_sorted_leb_StronglySorted (l : list Z) :
  StronglySorted Z.le (py_sorted Z.leb l).
Proof.
  eapply StronglySorted_mono; [|apply (py_sorted_StronglySorted Z.leb)].
  - intros x y Hxy. simpl in Hxy. lia.
  - intros x y. lia.
  - intros x y z. lia.
Qed.

(** The page of frame numbers: strictly ascending frame numbers of the
    detections. *)
Lemma select_frame_numbers_sorted (ds : list Detection) (limit offset : Z) :
  StronglySorted Z.lt (select_frame_numbers ds limit offset).
Proof.
  unfold select_frame_numbers. apply StronglySorted_take_drop.
  apply StronglySorted_le_NoDup; [apply py_sorted_leb_StronglySorted|].
  rewrite py_sorted_Permutation. apply NoDup_remove_dups.
Qed.

Lemma select_frame_numbers_elem_of (ds : list Detection) (limit offset : Z)
    (f : Z) :
  f ∈ select_frame_numbers ds limit offset →
  ∃ d, d ∈ ds ∧ frame_number d = f.
Proof.
  unfold select_frame_numbers. intros Hf%elem_of_take_drop.
  rewrite elem_of_py_sorted, elem_of_remove_dups in Hf.
  apply list_elem_of_fmap in Hf as (d & -> & Hd). by exists d.
Qed.

Section detections_by_frames_facts.
Context {G : Shapely} (created_at : Detection → datetime).
Implicit Types (sp : PyDict.dict UUID (Polygon G * string)) (thr : Q).

Lemma foldl_append_detection sp thr data (ds : list Detection) :
  foldl (append_detection created_at sp thr) data ds =
  mkFrameDetections (fds_frame_number data) (fds_frame_time data)
    (fds_offset_seconds data)
    (fds_detections data ++ (detection_with_slot created_at sp thr <$> ds))
    (fds_total_vehicles data + len ds).
Proof.
  revert data. induction ds as [|d ds IH]; intros data.
  - destruct data. unfold len. simpl. rewrite app_nil_r. f_equal. lia.
  - cbn [foldl]. rewrite IH. unfold append_detection, len.
    cbn [fds_frame_number fds_frame_time fds_offset_seconds fds_detections
         fds_total_vehicles].
    rewrite fmap_cons, <- app_assoc. cbn [length]. f_equal. lia.
Qed.

(** The entry of a frame in [frames_data]. *)
Lemma frames_data_entry (ds : list Detection) sp thr f e :
  PyDict.get
    (foldl
       (group_step frame_number new_frame_detections
          (append_detection created_at sp thr))
       [] ds) f = Some e →
  filter (λ d, frame_number d = f) ds ≠ [] ∧
  fds_frame_number e = f ∧
  fds_detections e =
    (detection_with_slot created_at sp thr
       <$> filter (λ d, frame_number d = f) ds) ∧
  fds_total_vehicles e = len (filter (λ d, frame_number d = f) ds).
Proof.
  rewrite group_get.
  destruct (filter (λ d, frame_number d = f) ds) as [|d0 rest] eqn:Hf;
    [done|].
  intros [= <-]. split; [done|].
  change (foldl (append_detection created_at sp thr)
            (append_detection created_at sp thr (new_frame_detections d0) d0)
            rest)
    with (foldl (append_detection created_at sp thr)
            (new_frame_detections d0) (d0 :: rest)).
  rewrite foldl_append_detection. simpl. split; [|split; [done|lia]].
  assert (Hd0 : d0 ∈ filter (λ d, frame_number d = f) ds)
    by (rewrite Hf; apply list_elem_of_here).
  by apply list_elem_of_filter in Hd0 as [? _].
Qed.

Lemma frames_data_numbers (ds : list Detection) sp thr :
  fds_frame_number <$>
    PyDict.values
      (foldl
         (group_step frame_number new_frame_detections
            (append_detection created_at sp thr))
         [] ds)
  = PyDict.keys
      (foldl
         (group_step frame_number new_frame_detections
            (append_detection created_at sp thr))
         [] ds).
Proof.
  unfold PyDict.values, PyDict.keys. rewrite <- list_fmap_compose.
  apply list_fmap_ext. intros i [f e] Hi. simpl.
  apply list_elem_of_lookup_2 in Hi.
  apply elem_of_get in Hi; [|apply group_keys_NoDup].
  by apply frames_data_entry in Hi as (_ & ? & _).
Qed.

Lemma order_by_frame_and_creation_Permutation (ds : list Detection) :
  order_by_frame_and_creation created_at ds ≡ₚ ds.
Proof. apply py_sorted_Permutation. Qed.

(** Detections of one frame come in the order of their creation. *)
Lemma order_by_frame_and_creation_frame (ds : list Detection) (f : Z) :
  StronglySorted (λ d e, (created_at d <= created_at e)%Q)
    (filter (λ d, frame_number d = f)
       (order_by_frame_and_creation created_at ds)).
Proof.
  eapply (StronglySorted_Forall_mono _ _ (λ d, frame_number d = f)).
  3: { apply StronglySorted_filter.
       apply (py_sorted_StronglySorted
                (λ d e,
                   (frame_number d <? frame_number e)%Z ||
                   ((frame_number d =? frame_number e)%Z &&
                    Qle_bool (created_at d) (created_at e)))).
       - intros x y.
         destruct (Z.lt_trichotomy (frame_number x) (frame_number y))
           as [Hlt|[Heq|Hgt]].
         + left. apply orb_true_iff. left. lia.
         + destruct (Qlt_le_dec (created_at y) (created_at x)) as [Hc|Hc].
           * right. apply orb_true_iff. right. apply andb_true_iff.
             split; [lia|]. apply Qle_bool_iff. by apply Qlt_le_weak.
           * left. apply orb_true_iff. right. apply andb_true_iff.
             split; [lia|]. by apply Qle_bool_iff.
         + right. apply orb_true_iff. left. lia.
       - intros x y z.
         rewrite !orb_true_iff, !andb_true_iff, !Qle_bool_iff.
         intros [Hxy|[Hxy Hcxy]] [Hyz|[Hyz Hcyz]].
         + left. lia.
         + left. lia.
         + left. lia.
         + right. split; [lia|]. by eapply Qle_trans. }
  - intros x y Hx Hy.
    rewrite orb_true_iff, andb_true_iff, Qle_bool_iff.
    intros [Hlt|[_ Hc]]; [lia|done].
  - apply Forall_forall. by intros d [? _]%list_elem_of_filter.
Qed.

End detections_by_frames_facts.

(** Filtering commutes with the stable sort. *)
Section py_sorted_filter.
Context {A : Type} (before : A → A → bool).
Context (P : A → Prop) `{∀ x, Decision (P x)}.
Hypothesis before_total : ∀ x y, before x y = true ∨ before y x = true.
Hypothesis before_trans :
  ∀ x y z, before x y = true → before y z = true → before x z = true.

Lemma insert_sorted_all (x : A) (l : list A) :
  Forall (λ y, before x y = true) l → insert_sorted before x l = x :: l.
Proof.
  destruct l as [|y l]; [done|].
  intros [Hy _]%Forall_cons. simpl. by rewrite Hy.
Qed.

Lemma filter_insert_sorted (x : A) (l : list A) :
  StronglySorted (λ a b, before a b = true) l →
  filter P (insert_sorted before x l) =
  if decide (P x) then insert_sorted before x (filter P l) else filter P l.
Proof.
  induction 1 as [|y l Hsorted IH Hall]; cbn [insert_sorted].
  - rewrite filter_cons. by destruct (decide (P x)).
  - destruct (before x y) eqn:Hxy.
    + rewrite (filter_cons _ x). destruct (decide (P x)) as [Hx|Hx]; [|done].
      rewrite insert_sorted_all; [done|].
      apply Forall_forall. intros z [_ Hz]%list_elem_of_filter.
      apply elem_of_cons in Hz as [->|Hz]; [done|].
      rewrite Forall_forall in Hall. eapply before_trans; [exact Hxy|].
      by apply Hall.
    + rewrite (filter_cons _ y), IH.
      destruct (decide (P y)) as [Hy|Hy].
      * rewrite (filter_cons P y l), (decide_True _ _ Hy).
        destruct (decide (P x)); [|done].
        cbn [insert_sorted]. by rewrite Hxy.
      * by rewrite (filter_cons P y l), (decide_False _ _ Hy).
Qed.

Lemma filter_py_sorted (l : list A) :
  filter P (py_sorted before l) = py_sorted before (filter P l).
Proof.
  induction l as [|x l IH]; [done|].
  cbn [py_sorted foldr].
  change (foldr (insert_sorted before) [] l) with (py_sorted before l).
  rewrite filter_insert_sorted
    by (by apply py_sorted_StronglySorted).
  rewrite filter_cons, IH. by destruct (decide (P x)).
Qed.

End py_sorted_filter.

Section detections_by_frames_pages.
Context {G : Shapely} (created_at : Detection → datetime).
Implicit Types (db : DB G) (thr : Q).
Implicit Types (sp : PyDict.dict UUID (Polygon G * string)).

Lemma before_creation_total (x y : Detection) :
  (frame_number x <? frame_number y)%Z ||
  ((frame_number x =? frame_number y)%Z &&
   Qle_bool (created_at x) (created_at y)) = true ∨
  (frame_number y <? frame_number x)%Z ||
  ((frame_number y =? frame_number x)%Z &&
   Qle_bool (created_at y) (created_at x)) = true.
Proof.
  destruct (Z.lt_trichotomy (frame_number x) (frame_number y))
    as [Hlt|[Heq|Hgt]].
  - left. apply orb_true_iff. left. lia.
  - destruct (Qlt_le_dec (created_at y) (created_at x)) as [Hc|Hc].
    + right. apply orb_true_iff. right. apply andb_true_iff.
      split; [lia|]. apply Qle_bool_iff. by apply Qlt_le_weak.
    + left. apply orb_true_iff. right. apply andb_true_iff.
      split; [lia|]. by apply Qle_bool_iff.
  - right. apply orb_true_iff. left. lia.
Qed.

Lemma before_creation_trans (x y z : Detection) :
  (frame_number x <? frame_number y)%Z ||
  ((frame_number x =? frame_number y)%Z &&
   Qle_bool (created_at x) (created_at y)) = true →
  (frame_number y <? frame_number z)%Z ||
  ((frame_number y =? frame_number z)%Z &&
   Qle_bool (created_at y) (created_at z)) = true →
  (frame_number x <? frame_number z)%Z ||
  ((frame_number x =? frame_number z)%Z &&
   Qle_bool (created_at x) (created_at z)) = true.
Proof.
  rewrite !orb_true_iff, !andb_true_iff, !Qle_bool_iff.
  intros [Hxy|[Hxy Hcxy]] [Hyz|[Hyz Hcyz]].
  - left. lia.
  - left. lia.
  - left. lia.
  - right. split; [lia|]. by eapply Qle_trans.
Qed.

(** The detections of a frame of the page do not depend on the page. *)
Lemma page_frame_detections (ds : list Detection) (page : list Z) (f : Z) :
  f ∈ page →
  filter (λ d, frame_number d = f)
    (order_by_frame_and_creation created_at
       (filter (λ d, frame_number d ∈ page) ds))
  = order_by_frame_and_creation created_at
      (filter (λ d, frame_number d = f) ds).
Proof.
  intros Hf. unfold order_by_frame_and_creation.
  rewrite filter_py_sorted
    by (intros; first [apply before_creation_total
                      |by eapply before_creation_trans]).
  f_equal. rewrite list_filter_filter. apply list_filter_iff.
  intros d. split; [by intros [? _]|].
  intros Hd. split; [done|]. by rewrite Hd.
Qed.

(** The entry of a frame, as built from all detections of the video. *)
Lemma by_frames_unfold db vid cam thr limit offset :
  get_detections_by_frames created_at db vid cam thr limit offset =
  let page := select_frame_numbers (select_detections db vid) limit offset in
  if bool_decide (page = []) then []
  else
    py_sorted (λ x y, (fds_frame_number x <=? fds_frame_number y)%Z)
      (PyDict.values
         (foldl
            (group_step frame_number new_frame_detections
               (append_detection created_at
                  (slot_polygons_of (select_slots db cam)) thr))
            []
            (order_by_frame_and_creation created_at
               (filter (λ d, frame_number d ∈ page)
                  (select_detections db vid))))).
Proof. done. Qed.

Lemma by_frames_keys (ds : list Detection) sp thr limit offset f :
  f ∈ PyDict.keys
        (foldl
           (group_step frame_number new_frame_detections
              (append_detection created_at sp thr))
           []
           (order_by_frame_and_creation created_at
              (filter
                 (λ d, frame_number d ∈ select_frame_numbers ds limit offset)
                 ds)))
  ↔ f ∈ select_frame_numbers ds limit offset.
Proof.
  rewrite group_keys_elem_of. split.
  - intros (d & Hd & <-).
    rewrite order_by_frame_and_creation_Permutation in Hd.
    by apply list_elem_of_filter in Hd as [? _].
  - intros Hf.
    destruct (select_frame_numbers_elem_of _ _ _ _ Hf) as (d & Hd & <-).
    exists d. split; [|done].
    rewrite order_by_frame_and_creation_Permutation.
    by apply list_elem_of_filter.
Qed.

(** The frame numbers of the response are the page. *)
Lemma by_frames_numbers db vid cam thr limit offset :
  fds_frame_number
    <$> get_detections_by_frames created_at db vid cam thr limit offset
  = select_frame_numbers (select_detections db vid) limit offset.
Proof.
  rewrite by_frames_unfold. cbv zeta.
  case_bool_decide as Hpage; [by rewrite Hpage|].
  apply StronglySorted_lt_unique.
  - apply StronglySorted_le_NoDup.
    + apply StronglySorted_fmap.
      eapply StronglySorted_mono;
        [|apply (py_sorted_StronglySorted
                   (λ x y,
                      (fds_frame_number x <=? fds_frame_number y)%Z))].
      * intros x y Hxy. simpl in Hxy. lia.
      * intros x y. lia.
      * intros x y z. lia.
    + rewrite py_sorted_Permutation, frames_data_numbers.
      apply group_keys_NoDup.
  - apply select_frame_numbers_sorted.
  - intros f. rewrite py_sorted_Permutation, frames_data_numbers.
    apply by_frames_keys.
Qed.

(** An entry of the response: the detections of its frame among all
    detections of the video, in the order of their creation. *)
Lemma by_frames_entry db vid cam thr limit offset e :
  e ∈ get_detections_by_frames created_at db vid cam thr limit offset →
  let ds :=
    order_by_frame_and_creation created_at
      (filter (λ d, frame_number d = fds_frame_number e)
         (select_detections db vid)) in
  ∃ d0 rest,
    ds = d0 :: rest ∧
    e = mkFrameDetections (frame_number d0) (frame_time d0)
          (offset_seconds d0)
          (detection_with_slot created_at
             (slot_polygons_of (select_slots db cam)) thr <$> ds)
          (len ds).
Proof.
  rewrite by_frames_unfold. cbv zeta.
  case_bool_decide as Hpage; [intros He; by apply elem_of_nil in He|].
  intros He. apply elem_of_py_sorted in He. unfold PyDict.values in He.
  apply list_elem_of_fmap in He as ([f e'] & -> & Hitem). simpl.
  assert (Hf : f ∈ select_frame_numbers (select_detections db vid)
                     limit offset).
  { apply (by_frames_keys _ (slot_polygons_of (select_slots db cam)) thr).
    unfold PyDict.keys. apply list_elem_of_fmap. by exists (f, e'). }
  apply elem_of_get in Hitem; [|apply group_keys_NoDup].
  pose proof Hitem as Hentry.
  apply frames_data_entry in Hentry as (_ & -> & _).
  rewrite group_get, page_frame_detections in Hitem by done.
  destruct (order_by_frame_and_creation created_at
              (filter (λ d, frame_number d = f) (select_detections db vid)))
    as [|d0 rest] eqn:Hds; [done|].
  injection Hitem as <-. exists d0, rest. split; [done|].
  change (foldl (append_detection created_at _ thr)
            (append_detection created_at ?sp thr (new_frame_detections d0) d0)
            rest)
    with (foldl (append_detection created_at sp thr)
            (new_frame_detections d0) (d0 :: rest)).
  rewrite foldl_append_detection. simpl. by f_equal.
Qed.

(** The response is a function of the page of frame numbers. *)
Lemma by_frames_as_map db vid cam thr :
  ∃ entry : Z → FrameDetections,
    ∀ limit offset,
      get_detections_by_frames created_at db vid cam thr limit offset =
      entry <$> select_frame_numbers (select_detections db vid) limit offset.
Proof.
  exists (λ f,
    let ds :=
      order_by_frame_and_creation created_at
        (filter (λ d, frame_number d = f) (select_detections db vid)) in
    match ds with
    | [] => mkFrameDetections f 0 0 [] 0
    | d0 :: _ =>
        mkFrameDetections (frame_number d0) (frame_time d0)
          (offset_seconds d0)
          (detection_with_slot created_at
             (slot_polygons_of (select_slots db cam)) thr <$> ds)
          (len ds)
    end).
  intros limit offset. rewrite <- (by_frames_numbers db vid cam thr).
  rewrite <- list_fmap_compose.
  rewrite <- (list_fmap_id
                (get_detections_by_frames created_at db vid cam thr limit
                   offset)) at 1.
  apply list_fmap_ext. intros i e Hi. simpl.
  apply list_elem_of_lookup_2 in Hi.
  destruct (by_frames_entry _ _ _ _ _ _ _ Hi) as (d0 & rest & Hds & He).
  cbv zeta. rewrite Hds. by rewrite Hds in He.
Qed.

End detections_by_frames_pages.

(** X16: [get_detections_by_frames] returns one entry for each frame number
    of the requested page of the video's distinct frame numbers, in
    ascending order, so at most [limit] entries; an entry holds exactly the
    detections of the video in its frame, at least one, in the order of
    their creation, counts them, and carries the time of the first of
    them. *)
Theorem frames_page_lists_whole_frames (G : Shapely)
    (created_at : Detection → datetime) (db : DB G) (vid cam : UUID)
    (thr : Q) (limit offset : Z) :
  let r := get_detections_by_frames created_at db vid cam thr limit offset in
  let ds := select_detections db vid in
  fds_frame_number <$> r = select_frame_numbers ds limit offset ∧
  StronglySorted Z.lt (fds_frame_number <$> r) ∧
  length r ≤ Z.to_nat limit ∧
  ∀ e, e ∈ r →
    dws_detection <$> fds_detections e
      ≡ₚ filter (λ d, frame_number d = fds_frame_number e) ds ∧
    fds_detections e ≠ [] ∧
    fds_total_vehicles e = len (fds_detections e) ∧
    StronglySorted (λ a b, (dws_created_at a <= dws_created_at b)%Q)
      (fds_detections e) ∧
    Some (fds_frame_time e)
      = frame_time <$> head (dws_detection <$> fds_detections e) ∧
    ∀ w, w ∈ fds_detections e →
      dws_created_at w = created_at (dws_detection w) ∧
      (dws_is_in_slot w = true ↔ is_Some (dws_parking_slot_id w)) ∧
      (is_Some (dws_iou w) ↔ is_Some (dws_parking_slot_id w)).
Proof.
  intros r ds.
  assert (Hnumbers : fds_frame_number <$> r
                     = select_frame_numbers ds limit offset)
    by apply by_frames_numbers.
  split; [exact Hnumbers|].
  split; [rewrite Hnumbers; apply select_frame_numbers_sorted|].
  split.
  { rewrite <- (length_fmap fds_frame_number), Hnumbers.
    unfold select_frame_numbers. rewrite length_take. lia. }
  intros e He.
  destruct (by_frames_entry _ _ _ _ _ _ _ _ He) as (d0 & rest & Hds & Hentry).
  set (sp := slot_polygons_of (select_slots db cam)) in *.
  assert (Hid : ∀ l : list Detection,
    dws_detection <$> (detection_with_slot created_at sp thr <$> l) = l).
  { induction l as [|d l IH]; [done|]. rewrite !fmap_cons. by rewrite IH. }
  pose proof (f_equal fds_detections Hentry) as Hdets.
  pose proof (f_equal fds_total_vehicles Hentry) as Htotal.
  pose proof (f_equal fds_frame_time Hentry) as Htime.
  cbn [fds_detections fds_total_vehicles fds_frame_time] in Hdets, Htotal,
    Htime.
  clear Hentry. subst ds.
  rewrite Hdets, Hid.
  split; [apply order_by_frame_and_creation_Permutation|].
  split; [by rewrite Hds|].
  split; [rewrite Htotal; unfold len; by rewrite length_fmap|].
  split.
  { apply StronglySorted_fmap. cbn [detection_with_slot dws_created_at].
    rewrite <- (page_frame_detections created_at _ [fds_frame_number e])
      by apply list_elem_of_here.
    apply order_by_frame_and_creation_frame. }
  split; [by rewrite Hds, Htime|].
  intros w (d & -> & _)%list_elem_of_fmap.
  unfold detection_with_slot.
  cbn [dws_created_at dws_detection dws_is_in_slot dws_parking_slot_id
       dws_iou].
  split; [done|].
  destruct (best_slot_id
              (best_slot (bbox_to_polygon (bbox_normalized d)) sp thr));
    split; done.
Qed.

(** X17: consecutive pages of [get_detections_by_frames] put together are
    the page of their joint size: between two requests no frame is left
    out, repeated or split. *)
Theorem frame_pages_concatenate (G : Shapely)
    (created_at : Detection → datetime) (db : DB G) (vid cam : UUID)
    (thr : Q) (limit limit' offset : Z)
    (Hlimit : (0 <= limit)%Z) (Hlimit' : (0 <= limit')%Z)
    (Hoffset : (0 <= offset)%Z) :
  get_detections_by_frames created_at db vid cam thr limit offset ++
  get_detections_by_frames created_at db vid cam thr limit' (offset + limit)
  = get_detections_by_frames created_at db vid cam thr (limit + limit')
      offset.
Proof.
  destruct (by_frames_as_map created_at db vid cam thr) as (entry & Hmap).
  rewrite !Hmap, <- fmap_app. f_equal.
  unfold select_frame_numbers.
  rewrite !Z2Nat.inj_add by done.
  rewrite <- drop_drop. apply take_take_drop.
Qed.

Lemma frame_pages_concatenate_witness :
  get_detections_by_frames frame_time Example.db 31%N Example.camera (3 # 10)
    1 0 ++
  get_detections_by_frames frame_time Example.db 31%N Example.camera (3 # 10)
    1 (0 + 1)
  = get_detections_by_frames frame_time Example.db 31%N Example.camera
      (3 # 10) (1 + 1) 0.
Proof.
  apply (frame_pages_concatenate BoxKernel.kernel frame_time Example.db 31%N
           Example.camera (3 # 10) 1 1 0); lia.
Defined.

(** ** The rollup of [get_lots_parking_status] *)

Section pydict_values_facts.
Context {K V : Type} `{EqDecision K}.
Implicit Types (d : PyDict.dict K V) (k : K) (v : V).

Lemma elem_of_setitem d k v (kv : K * V) :
  kv ∈ PyDict.setitem d k v → kv = (k, v) ∨ kv ∈ d.
Proof.
  induction d as [|[k' v'] d IH]; cbn [PyDict.setitem].
  - intros ->%list_elem_of_singleton. by left.
  - destruct (decide (k = k')) as [->|Hne].
    + intros [->|Hin]%elem_of_cons; [by left|].
      right. by apply list_elem_of_further.
    + intros [->|Hin]%elem_of_cons; [right; apply list_elem_of_here|].
      destruct (IH Hin) as [?|?]; [by left|].
      right. by apply list_elem_of_further.
Qed.

Lemma elem_of_of_items (kvs : list (K * V)) (kv : K * V) :
  kv ∈ PyDict.of_items kvs → kv ∈ kvs.
Proof.
  unfold PyDict.of_items.
  induction kvs as [|[k v] kvs IH] using rev_ind.
  - done.
  - rewrite foldl_app. cbn [foldl]. intros [->|Hin]%elem_of_setitem.
    + apply elem_of_app. right. apply list_elem_of_here.
    + apply elem_of_app. left. by apply IH.
Qed.

Lemma sum_values_setitem (f : V → Z) d k old v :
  PyDict.get d k = Some old →
  sum_Z (f <$> PyDict.values (PyDict.setitem d k v)) =
  (sum_Z (f <$> PyDict.values d) - f old + f v)%Z.
Proof.
  unfold PyDict.values.
  induction d as [|[k' v'] d IH]; cbn [PyDict.get PyDict.setitem]; [done|].
  destruct (decide (k = k')) as [->|Hne].
  - intros [= ->]. rewrite !fmap_cons, !sum_Z_cons. simpl. lia.
  - intros Hget. rewrite !fmap_cons, !sum_Z_cons, IH by done. simpl. lia.
Qed.

Lemma Forall_values_setitem (P : V → Prop) d k v :
  Forall P (PyDict.values d) → P v →
  Forall P (PyDict.values (PyDict.setitem d k v)).
Proof.
  intros Hd Hv. apply Forall_forall. intros v' Hv'.
  unfold PyDict.values in Hv'.
  apply list_elem_of_fmap in Hv' as ([k0 v0] & -> & Hin). simpl.
  apply elem_of_setitem in Hin as [[= -> ->]|Hin]; [done|].
  rewrite Forall_forall in Hd. apply Hd. unfold PyDict.values.
  apply list_elem_of_fmap. by exists (k0, v0).
Qed.

Lemma get_Some_values d k v :
  PyDict.get d k = Some v → v ∈ PyDict.values d.
Proof.
  intros Hget%get_Some_elem_of. unfold PyDict.values.
  apply list_elem_of_fmap. by exists (k, v).
Qed.

End pydict_values_facts.

Lemma sum_Z_le {A : Type} (f g : A → Z) (l : list A) :
  Forall (λ x, (f x <= g x)%Z) l → (sum_Z (f <$> l) <= sum_Z (g <$> l))%Z.
Proof.
  induction 1 as [|x l Hx _ IH]; [done|].
  rewrite !fmap_cons, !sum_Z_cons. lia.
Qed.

Lemma sum_Z_zero {A : Type} (f : A → Z) (l : list A) :
  Forall (λ x, f x = 0%Z) l → sum_Z (f <$> l) = 0%Z.
Proof.
  induction 1 as [|x l Hx _ IH]; [done|].
  rewrite fmap_cons, sum_Z_cons. lia.
Qed.

Lemma StronglySorted_all {A : Type} (R : A → A → Prop) (l : list A) :
  (∀ x y, x ∈ l → y ∈ l → R x y) → StronglySorted R l.
Proof.
  induction l as [|x l IH]; intros HR; [constructor|].
  constructor.
  - apply IH. intros y z Hy Hz. apply HR; by apply list_elem_of_further.
  - apply Forall_forall. intros y Hy.
    apply HR; [apply list_elem_of_here|by apply list_elem_of_further].
Qed.

Section lots_rollup_facts.
Context {G : Shapely}.
Implicit Types (d : PyDict.dict UUID LotData) (m : gmap UUID UUID).
Implicit Types (occ : gset UUID).

Lemma lot_data_step_bounds m occ d (slot : ParkingSlot G) :
  Forall (λ data, (0 <= ld_occupied data <= ld_capacity data)%Z)
    (PyDict.values d) →
  Forall (λ data, (0 <= ld_occupied data <= ld_capacity data)%Z)
    (PyDict.values (lot_data_step m occ d slot)) ∧
  (sum_Z (ld_capacity <$> PyDict.values (lot_data_step m occ d slot))
   <= sum_Z (ld_capacity <$> PyDict.values d) + 1)%Z.
Proof.
  intros Hd. unfold lot_data_step.
  destruct (m !! slot_id slot) as [lid|]; [|split; [done|lia]].
  destruct (PyDict.get d lid) as [data|] eqn:Hget; [|split; [done|lia]].
  assert (Hdata : (0 <= ld_occupied data <= ld_capacity data)%Z).
  { rewrite Forall_forall in Hd. by eapply Hd, get_Some_values. }
  split.
  - apply Forall_values_setitem; [done|]. simpl. case_bool_decide; lia.
  - rewrite (sum_values_setitem _ _ _ data) by done. simpl. lia.
Qed.

Lemma lot_data_foldl_bounds m occ d (slots : list (ParkingSlot G)) :
  Forall (λ data, (0 <= ld_occupied data <= ld_capacity data)%Z)
    (PyDict.values d) →
  Forall (λ data, (0 <= ld_occupied data <= ld_capacity data)%Z)
    (PyDict.values (foldl (lot_data_step m occ) d slots)) ∧
  (sum_Z (ld_capacity
            <$> PyDict.values (foldl (lot_data_step m occ) d slots))
   <= sum_Z (ld_capacity <$> PyDict.values d) + len slots)%Z.
Proof.
  revert d. induction slots as [|slot slots IH]; intros d Hd.
  - split; [done|]. unfold len. simpl. lia.
  - cbn [foldl].
    destruct (lot_data_step_bounds m occ d slot Hd) as [Hstep Hsum].
    destruct (IH _ Hstep) as [Hall Hle]. split; [done|].
    unfold len in *. cbn [length]. lia.
Qed.

(** The values of [lot_data]: at most as many occupied as counted slots in
    every lot, and no more counted slots than slots. *)
Lemma lot_data_of_bounds (lots : list (ParkingLot G))
    (slots : list (ParkingSlot G)) m occ :
  Forall (λ data, (0 <= ld_occupied data <= ld_capacity data)%Z)
    (PyDict.values (lot_data_of lots slots m occ)) ∧
  (sum_Z (ld_capacity <$> PyDict.values (lot_data_of lots slots m occ))
   <= len slots)%Z.
Proof.
  unfold lot_data_of.
  set (init := PyDict.of_items
                 (map (λ lot, (lot_id lot, mkLotData (lot_name lot) 0 0))
                    lots)).
  assert (Hinit : Forall (λ data, ld_capacity data = 0%Z ∧
                                  ld_occupied data = 0%Z)
                    (PyDict.values init)).
  { apply Forall_forall. intros data Hdata. unfold PyDict.values in Hdata.
    apply list_elem_of_fmap in Hdata as ([k v] & -> & Hin).
    apply elem_of_of_items in Hin.
    apply list_elem_of_fmap in Hin as (lot & [= -> ->] & _). done. }
  destruct (lot_data_foldl_bounds m occ init slots) as [Hall Hle].
  { eapply Forall_impl; [exact Hinit|]. intros data [-> ->]. lia. }
  split; [done|].
  rewrite (sum_Z_zero ld_capacity (PyDict.values init)) in Hle; [lia|].
  eapply Forall_impl; [exact Hinit|]. by intros data [? _].
Qed.

Lemma lot_status_of_bounds (item : UUID * LotData) :
  (0 <= ld_occupied item.2 <= ld_capacity item.2)%Z →
  ls_capacity (lot_status_of item) = ld_capacity item.2 ∧
  ls_occupied (lot_status_of item) = ld_occupied item.2 ∧
  ls_free (lot_status_of item)
    = Some (ld_capacity item.2 - ld_occupied item.2)%Z ∧
  (0 <= ls_occupancy_rate (lot_status_of item) <= 1)%Q.
Proof.
  destruct item as [lid data]. simpl. intros Hdata.
  split; [done|]. split; [done|]. split; [done|].
  apply py_round_unit.
  destruct (ld_capacity data >? 0)%Z eqn:Hcap; [|lra].
  apply int_div_unit; lia.
Qed.

End lots_rollup_facts.

(** X18: in every response of [get_lots_parking_status] a lot has no more
    occupied than counted slots, a rate within [0, 1] and, where [free] is
    given, [free = capacity - occupied]; the totals of the summary are the
    sums over the listed lots, with
    [0 <= total_occupied <= total_capacity <=] the number of slots of the
    camera; the lots are listed by non-increasing rate, and there are no
    more of them than [total_lots]. *)
Theorem lots_rollup_consistent (G : Shapely) (db : DB G) (cam : UUID)
    (thr : Q) :
  let r := get_lots_parking_status db cam thr in
  (∀ e, e ∈ lots_lots r →
     (0 <= ls_occupied e <= ls_capacity e)%Z ∧
     (0 <= ls_occupancy_rate e <= 1)%Q ∧
     ∀ free, ls_free e = Some free →
             free = (ls_capacity e - ls_occupied e)%Z) ∧
  lsum_total_capacity (lots_summary r)
    = sum_Z (map ls_capacity (lots_lots r)) ∧
  lsum_total_occupied (lots_summary r)
    = sum_Z (map ls_occupied (lots_lots r)) ∧
  (0 <= lsum_total_occupied (lots_summary r)
     <= lsum_total_capacity (lots_summary r))%Z ∧
  (lsum_total_capacity (lots_summary r) <= len (select_slots db cam))%Z ∧
  (∀ free, lsum_total_free (lots_summary r) = Some free →
     free = (lsum_total_capacity (lots_summary r)
             - lsum_total_occupied (lots_summary r))%Z) ∧
  (0 <= lsum_avg_occupancy_rate (lots_summary r) <= 1)%Q ∧
  StronglySorted (λ a b, (ls_occupancy_rate b <= ls_occupancy_rate a)%Q)
    (lots_lots r) ∧
  (len (lots_lots r) <= lsum_total_lots (lots_summary r))%Z.
Proof.
  intros r. subst r. unfold get_lots_parking_status.
  assert (Hlen0 : (0 <= len (select_slots db cam))%Z) by (unfold len; lia).
  destruct (latest_processed_video db cam) as [video|].
  2: { cbn [lots_lots lots_summary lsum_total_capacity lsum_total_occupied
            lsum_total_free lsum_avg_occupancy_rate lsum_total_lots].
       split; [intros e He; by apply elem_of_nil in He|].
       repeat (split; [done || lia || (by constructor) || lra|]).
       done. }
  case_bool_decide as Hlots.
  { cbn [lots_lots lots_summary lsum_total_capacity lsum_total_occupied
         lsum_total_free lsum_avg_occupancy_rate lsum_total_lots].
    split; [intros e He; by apply elem_of_nil in He|].
    repeat (split; [done || lia || (by constructor) || lra|]).
    done. }
  destruct (max_frame_number (select_detections db (video_id video)))
    as [latest_frame|].
  2: { cbn [lots_lots lots_summary lsum_total_capacity lsum_total_occupied
            lsum_total_free lsum_avg_occupancy_rate lsum_total_lots].
       split.
       { intros e (lot & -> & _)%list_elem_of_fmap. simpl.
         split; [lia|]. split; [lra|]. done. }
       split.
       { symmetry. apply (sum_Z_zero ls_capacity).
         apply Forall_forall. by intros e (lot & -> & _)%list_elem_of_fmap. }
       split.
       { symmetry. apply (sum_Z_zero ls_occupied).
         apply Forall_forall. by intros e (lot & -> & _)%list_elem_of_fmap. }
       split; [lia|]. split; [done|]. split; [done|]. split; [lra|].
       split.
       { apply StronglySorted_all.
         intros x y (lx & -> & _)%list_elem_of_fmap
           (ly & -> & _)%list_elem_of_fmap. simpl. lra. }
       unfold len. rewrite length_map. lia. }
  set (lot_data :=
         lot_data_of (select_lots db cam) (select_slots db cam)
           (slot_to_lot_map_of (select_slots db cam)
              (lot_polygons_of (select_lots db cam)))
           (occupied_slots_of
              (filter (λ d, frame_number d = latest_frame)
                 (select_detections db (video_id video)))
              (slot_polygons_of (select_slots db cam)) thr)).
  cbn [lots_lots lots_summary lsum_total_capacity lsum_total_occupied
       lsum_total_free lsum_avg_occupancy_rate lsum_total_lots].
  destruct (lot_data_of_bounds (select_lots db cam) (select_slots db cam)
              (slot_to_lot_map_of (select_slots db cam)
                 (lot_polygons_of (select_lots db cam)))
              (occupied_slots_of
                 (filter (λ d, frame_number d = latest_frame)
                    (select_detections db (video_id video)))
                 (slot_polygons_of (select_slots db cam)) thr))
    as [Hall Hcap].
  fold lot_data in Hall, Hcap.
  assert (Hitems : ∀ item, item ∈ PyDict.items lot_data →
            (0 <= ld_occupied item.2 <= ld_capacity item.2)%Z).
  { intros [k data] Hin. rewrite Forall_forall in Hall. apply Hall.
    unfold PyDict.values. apply list_elem_of_fmap. by exists (k, data). }
  assert (Hocc_le :
    (sum_Z (ld_occupied <$> PyDict.values lot_data)
     <= sum_Z (ld_capacity <$> PyDict.values lot_data))%Z).
  { apply sum_Z_le. eapply Forall_impl; [exact Hall|].
    by intros data [_ ?]. }
  assert (Hocc_0 :
    (0 <= sum_Z (ld_occupied <$> PyDict.values lot_data))%Z).
  { rewrite <- (sum_Z_zero (λ _ : LotData, 0%Z) (PyDict.values lot_data))
      by (by apply Forall_forall).
    apply sum_Z_le. eapply Forall_impl; [exact Hall|].
    by intros data [? _]. }
  change (map ld_capacity (PyDict.values lot_data))
    with (ld_capacity <$> PyDict.values lot_data).
  change (map ld_occupied (PyDict.values lot_data))
    with (ld_occupied <$> PyDict.values lot_data).
  split.
  { intros e He. apply elem_of_py_sorted in He.
    apply list_elem_of_fmap in He as (item & -> & Hitem).
    destruct (lot_status_of_bounds item (Hitems _ Hitem))
      as (-> & -> & -> & Hrate).
    split; [by apply Hitems|]. split; [done|]. by intros free [= <-]. }
  split.
  { apply sum_Z_Permutation.
    change (map ls_capacity ?l) with (ls_capacity <$> l).
    rewrite py_sorted_Permutation.
    change (map lot_status_of ?l) with (lot_status_of <$> l).
    unfold PyDict.values, PyDict.items.
    rewrite <- !list_fmap_compose.
    match goal with
    | |- ?l ≡ₚ ?k => enough (Heq : l = k) by (by rewrite Heq)
    end.
    apply list_fmap_ext. by intros i [k data] _. }
  split.
  { apply sum_Z_Permutation.
    change (map ls_occupied ?l) with (ls_occupied <$> l).
    rewrite py_sorted_Permutation.
    change (map lot_status_of ?l) with (lot_status_of <$> l).
    unfold PyDict.values, PyDict.items.
    rewrite <- !list_fmap_compose.
    match goal with
    | |- ?l ≡ₚ ?k => enough (Heq : l = k) by (by rewrite Heq)
    end.
    apply list_fmap_ext. by intros i [k data] _. }
  split; [lia|]. split; [done|].
  split; [by intros free [= <-]|].
  split.
  { apply py_round_unit.
    destruct (sum_Z (ld_capacity <$> PyDict.values lot_data) >? 0)%Z
      eqn:Hpos; [|lra].
    apply int_div_unit; lia. }
  split.
  { eapply StronglySorted_mono;
      [|apply (py_sorted_StronglySorted
                 (λ x y, Qgeb (ls_occupancy_rate x) (ls_occupancy_rate y)))].
    - intros x y Hxy. by apply Qgeb_ge in Hxy.
    - intros x y. rewrite !Qgeb_ge.
      destruct (Qlt_le_dec (ls_occupancy_rate x) (ls_occupancy_rate y));
        [right; by apply Qlt_le_weak|by left].
    - intros x y z. rewrite !Qgeb_ge. intros ? ?. by eapply Qle_trans. }
  unfold len. rewrite length_py_sorted, length_map.
  unfold PyDict.items, lot_data, lot_data_of.
  rewrite <- (length_fmap fst).
  change (fst <$> ?d) with (PyDict.keys d).
  rewrite lot_data_foldl_keys. unfold PyDict.keys. rewrite length_fmap.
  apply inj_le. etrans; [apply length_of_items|]. by rewrite length_map.
Qed.

(** ** Slot statistics of [get_video_analytics] *)

Lemma length_filter_fmap_ext {A B : Type} (g : A → B) (P : A → Prop)
    (Q : B → Prop) `{∀ x, Decision (P x)} `{∀ y, Decision (Q y)}
    (l : list A) :
  (∀ x, x ∈ l → P x ↔ Q (g x)) →
  length (filter P l) = length (filter Q (g <$> l)).
Proof.
  induction l as [|x l IH]; intros HPQ; [done|].
  rewrite fmap_cons, !filter_cons.
  assert (Hx : P x ↔ Q (g x)) by apply HPQ, list_elem_of_here.
  assert (Hl : length (filter P l) = length (filter Q (g <$> l))).
  { apply IH. intros y Hy. by apply HPQ, list_elem_of_further. }
  destruct (decide (P x)) as [HP|HP], (decide (Q (g x))) as [HQ|HQ];
    cbn [length]; tauto || lia.
Qed.

Lemma alter_succ_foldr (l : list UUID) (m : gmap UUID Z) (sid : UUID) :
  NoDup l →
  foldr (λ slot_id acc, alter Z.succ slot_id acc) m l !! sid =
  (λ z, if decide (sid ∈ l) then Z.succ z else z) <$> m !! sid.
Proof.
  induction 1 as [|x l Hx Hnd IH]; cbn [foldr].
  - by destruct (m !! sid).
  - rewrite lookup_alter. destruct (decide (x = sid)) as [->|Hne].
    + rewrite IH. destruct (m !! sid); [|done]. simpl.
      rewrite (decide_False _ _ Hx).
      by rewrite decide_True by apply list_elem_of_here.
    + rewrite IH. destruct (m !! sid); [|done]. simpl. f_equal.
      destruct (decide (sid ∈ l)) as [Hin|Hnotin].
      * by rewrite decide_True by (by apply list_elem_of_further).
      * rewrite decide_False; [done|].
        intros [?|?]%elem_of_cons; [by subst|done].
Qed.

Section slot_statistics_facts.
Context {G : Shapely}.
Implicit Types (sp : PyDict.dict UUID (Polygon G * string)) (thr : Q).

Lemma occupied_slots_of_Permutation (ds ds' : list Detection) sp thr :
  ds ≡ₚ ds' → occupied_slots_of ds sp thr = occupied_slots_of ds' sp thr.
Proof.
  intros Hperm. apply set_eq. intros sid.
  rewrite !elem_of_occupied_slots_of. by setoid_rewrite Hperm.
Qed.

Lemma slot_occupancy_foldl (vs : list FrameData) (m : gmap UUID Z)
    (sid : UUID) :
  foldl
    (λ slot_occupancy data,
       foldr (λ slot_id acc, alter Z.succ slot_id acc) slot_occupancy
         (elements (fd_occupied_slots data)))
    m vs !! sid
  = (λ z, z + len (filter (λ data, sid ∈ fd_occupied_slots data) vs))%Z
      <$> m !! sid.
Proof.
  revert m. induction vs as [|data vs IH]; intros m; cbn [foldl].
  - destruct (m !! sid); [|done]. simpl. f_equal. unfold len. simpl. lia.
  - rewrite IH, alter_succ_foldr by apply NoDup_elements.
    rewrite filter_cons.
    destruct (m !! sid) as [z|]; [|done]. simpl. f_equal.
    destruct (decide (sid ∈ fd_occupied_slots data)) as [Hin|Hnotin].
    + rewrite decide_True by (by apply elem_of_elements).
      unfold len. cbn [length]. lia.
    + rewrite decide_False by (by rewrite elem_of_elements). done.
Qed.

Lemma slot_occupancy_init (ks : list UUID) (sid : UUID) :
  (list_to_map (map (λ slot_id, (slot_id, 0%Z)) ks) : gmap UUID Z) !! sid =
  if decide (sid ∈ ks) then Some 0%Z else None.
Proof.
  induction ks as [|k ks IH]; cbn [map].
  - by rewrite decide_False by apply not_elem_of_nil.
  - rewrite list_to_map_cons. destruct (decide (k = sid)) as [->|Hne].
    + rewrite lookup_insert_eq.
      by rewrite decide_True by apply list_elem_of_here.
    + rewrite lookup_insert_ne by done. rewrite IH.
      destruct (decide (sid ∈ ks)) as [Hin|Hnotin].
      * by rewrite decide_True by (by apply list_elem_of_further).
      * rewrite decide_False; [done|].
        intros [?|?]%elem_of_cons; [by subst|done].
Qed.

(** [slot_occupancy[slot_id]]: in how many values of [frame_data] the slot
    is marked. *)
Lemma slot_occupancy_lookup sp (frame_data : PyDict.dict Z FrameData)
    (sid : UUID) :
  sid ∈ PyDict.keys sp →
  slot_occupancy_of sp frame_data !! sid =
  Some (len (filter (λ data, sid ∈ fd_occupied_slots data)
               (PyDict.values frame_data))).
Proof.
  intros Hkey. unfold slot_occupancy_of.
  rewrite slot_occupancy_foldl, slot_occupancy_init.
  by rewrite decide_True by done.
Qed.

Lemma frame_data_item (dets : list Detection) sp thr f data :
  (f, data) ∈ PyDict.items (frame_data_of dets sp thr) →
  PyDict.get (frame_data_of dets sp thr) f = Some data.
Proof. apply elem_of_get, group_keys_NoDup. Qed.

Lemma frame_data_numbers (dets : list Detection) sp thr :
  fd_frame_number <$> PyDict.values (frame_data_of dets sp thr) =
  PyDict.keys (frame_data_of dets sp thr).
Proof.
  unfold PyDict.values, PyDict.keys. rewrite <- list_fmap_compose.
  apply list_fmap_ext. intros i [f data] Hi. simpl.
  apply list_elem_of_lookup_2, frame_data_item in Hi.
  by apply frame_data_entry in Hi as (_ & ? & _).
Qed.

Lemma frame_data_keys_Permutation (dets ds : list Detection) sp thr :
  dets ≡ₚ ds →
  PyDict.keys (frame_data_of dets sp thr)
    ≡ₚ remove_dups (frame_number <$> ds).
Proof.
  intros Hperm. apply NoDup_Permutation.
  - apply group_keys_NoDup.
  - apply NoDup_remove_dups.
  - intros f. unfold frame_data_of.
    rewrite group_keys_elem_of, elem_of_remove_dups, list_elem_of_fmap.
    setoid_rewrite Hperm. split; intros (d & ? & ?); by exists d.
Qed.

(** The marked frames of a slot, counted over the frame numbers of the
    detections. *)
Lemma occupied_frames_count (dets ds : list Detection) sp thr (sid : UUID) :
  dets ≡ₚ ds →
  len (filter (λ data, sid ∈ fd_occupied_slots data)
         (PyDict.values (frame_data_of dets sp thr))) =
  len (filter
         (λ f, sid ∈ occupied_slots_of
                       (filter (λ d, frame_number d = f) ds) sp thr)
         (remove_dups (frame_number <$> ds))).
Proof.
  intros Hperm. unfold len. f_equal.
  rewrite <- (frame_data_keys_Permutation dets ds sp thr Hperm).
  rewrite <- frame_data_numbers.
  apply length_filter_fmap_ext.
  intros data Hdata. unfold PyDict.values in Hdata.
  apply list_elem_of_fmap in Hdata as ([f data'] & -> & Hitem). simpl.
  apply frame_data_item, frame_data_entry in Hitem as (_ & -> & -> & _).
  by rewrite (occupied_slots_of_Permutation _ _ sp thr
                (filter_Permutation _ _ _ Hperm)).
Qed.

Lemma size_frame_set (dets ds : list Detection) :
  dets ≡ₚ ds →
  size (list_to_set (map frame_number dets) : gset Z) =
  length (remove_dups (frame_number <$> ds)).
Proof.
  intros Hperm.
  rewrite <- (size_list_to_set (C := gset Z)) by apply NoDup_remove_dups.
  f_equal. apply set_eq. intros f.
  rewrite !elem_of_list_to_set, elem_of_remove_dups.
  change (map frame_number dets) with (frame_number <$> dets).
  by rewrite Hperm.
Qed.

(** The entries of [slot_statistics]. *)
Lemma slot_statistics_entry (slots : list (ParkingSlot G))
    (slot_occupancy : gmap UUID Z) (total_frames : Z) e :
  e ∈ slot_statistics_of slots slot_occupancy total_frames →
  ∃ slot, slot ∈ slots ∧ sst_slot_id e = slot_id slot ∧
    sst_slot_name e = slot_name slot ∧
    sst_occupied_frames e = default 0%Z (slot_occupancy !! slot_id slot) ∧
    sst_total_frames e = total_frames ∧
    sst_occupancy_rate e =
      py_round
        (if (total_frames >? 0)%Z
         then int_div (sst_occupied_frames e) total_frames else 0%Q) 2.
Proof.
  unfold slot_statistics_of. intros He%elem_of_py_sorted.
  apply list_elem_of_fmap in He as (slot & -> & Hslot).
  exists slot. by simpl.
Qed.

Lemma slot_statistics_sorted (slots : list (ParkingSlot G))
    (slot_occupancy : gmap UUID Z) (total_frames : Z) :
  StronglySorted (λ a b, (sst_occupancy_rate b <= sst_occupancy_rate a)%Q)
    (slot_statistics_of slots slot_occupancy total_frames).
Proof.
  unfold slot_statistics_of.
  eapply StronglySorted_mono;
    [|apply (py_sorted_StronglySorted
               (λ x y, Qgeb (sst_occupancy_rate x) (sst_occupancy_rate y)))].
  - intros x y Hxy. by apply Qgeb_ge in Hxy.
  - intros x y. rewrite !Qgeb_ge.
    destruct (Qlt_le_dec (sst_occupancy_rate x) (sst_occupancy_rate y));
      [right; by apply Qlt_le_weak|by left].
  - intros x y z. rewrite !Qgeb_ge. intros ? ?. by eapply Qle_trans.
Qed.

Lemma slot_statistics_ids (slots : list (ParkingSlot G))
    (slot_occupancy : gmap UUID Z) (total_frames : Z) :
  sst_slot_id <$> slot_statistics_of slots slot_occupancy total_frames
    ≡ₚ slot_id <$> slots.
Proof.
  unfold slot_statistics_of. rewrite py_sorted_Permutation.
  change (map ?f slots) with (f <$> slots).
  by rewrite <- list_fmap_compose.
Qed.

End slot_statistics_facts.

(** X19: a known video without detections is answered with the empty
    response, which has no slot statistics and reports zero parking slots,
    whatever slots the camera has (the endpoint returns before it builds a
    polygon); and whenever the endpoint answers for a video with
    detections, [frames_analyzed] is the number of distinct frame numbers
    and [slot_statistics] lists every slot of the camera once, by
    non-increasing rate, each with the number of frames in which some
    detection reaches the threshold with it, which is at most
    [total_frames], and a rate within [0, 1]. *)
Theorem slot_statistics_count_frames (G : Shapely) (db : DB G) (id : UUID)
    (thr : Q) (video : Video) (Hvideo : select_video db id = Some video) :
  let ds := select_detections db id in
  let slots := select_slots db (video_camera_id video) in
  let frames := remove_dups (frame_number <$> ds) in
  (ds = [] →
   get_video_analytics db id thr =
   Return (mkVideoAnalytics id 0 None 0 0 0 [] [] None)) ∧
  ∀ r, get_video_analytics db id thr = Return r → ds ≠ [] →
    va_frames_analyzed r = Some (len frames) ∧
    va_total_parking_slots r = len slots ∧
    sst_slot_id <$> va_slot_statistics r ≡ₚ slot_id <$> slots ∧
    StronglySorted (λ a b, (sst_occupancy_rate b <= sst_occupancy_rate a)%Q)
      (va_slot_statistics r) ∧
    ∀ e, e ∈ va_slot_statistics r →
      sst_total_frames e = len frames ∧
      sst_occupied_frames e =
        len (filter
               (λ f, sst_slot_id e
                       ∈ occupied_slots_of
                           (filter (λ d, frame_number d = f) ds)
                           (slot_polygons_of slots) thr)
               frames) ∧
      (0 <= sst_occupied_frames e <= sst_total_frames e)%Z ∧
      (0 <= sst_occupancy_rate e <= 1)%Q.
Proof.
  cbv zeta. split.
  { intros Hnil. unfold get_video_analytics. by rewrite Hvideo, Hnil. }
  intros r Hr Hne. unfold get_video_analytics in Hr. rewrite Hvideo in Hr.
  destruct (len (select_detections db id) =? 0)%Z eqn:Hlen.
  - exfalso. apply Hne.
    apply Z.eqb_eq in Hlen. unfold len in Hlen.
    destruct (select_detections db id); [done|]. simpl in Hlen. lia.
  - injection Hr as <-.
    cbn [va_slot_statistics va_frames_analyzed va_total_parking_slots].
    set (ds := select_detections db id) in *.
    set (slots := select_slots db (video_camera_id video)).
    set (sp := slot_polygons_of slots).
    assert (Hperm : order_by_frame_number ds ≡ₚ ds)
      by apply order_by_frame_number_Permutation.
    assert (Hframes :
      Z.of_nat (size (list_to_set (map frame_number (order_by_frame_number ds))
                      : gset Z))
      = len (remove_dups (frame_number <$> ds))).
    { unfold len. f_equal. by apply size_frame_set. }
    rewrite Hframes.
    split; [done|]. split; [done|].
    split; [apply slot_statistics_ids|].
    split; [apply slot_statistics_sorted|].
    intros e He.
    apply slot_statistics_entry in He
      as (slot & Hslot & Hid & _ & Hocc & Htotal & Hrate).
    assert (Hkey : slot_id slot ∈ PyDict.keys sp).
    { unfold sp, slot_polygons_of. apply keys_of_items_elem_of.
      apply list_elem_of_fmap.
      exists (slot_id slot, (slot_polygon slot, slot_name slot)).
      split; [done|]. apply list_elem_of_fmap. by exists slot. }
    rewrite (slot_occupancy_lookup sp _ _ Hkey) in Hocc. simpl in Hocc.
    rewrite (occupied_frames_count _ ds sp thr _ Hperm) in Hocc.
    rewrite <- Hid in Hocc.
    split; [done|]. split; [done|].
    assert (Hbounds : (0 <= sst_occupied_frames e <= sst_total_frames e)%Z).
    { rewrite Hocc, Htotal. unfold len. split; [lia|].
      apply inj_le, length_filter. }
    split; [done|].
    rewrite Hrate. apply py_round_unit.
    rewrite Htotal in Hbounds.
    destruct (len (remove_dups (frame_number <$> ds)) >? 0)%Z eqn:Hpos;
      [|lra].
    apply int_div_unit; lia.
Qed.

Lemma slot_statistics_count_frames_witness :
  ∃ r, get_video_analytics Example.db 31%N (3 # 10) = Return r ∧
       va_frames_analyzed r = Some 1%Z ∧ va_total_parking_slots r = 2%Z.
Proof.
  eexists. split; [reflexivity|].
  destruct (slot_statistics_count_frames BoxKernel.kernel Example.db 31%N
              (3 # 10) Example.video eq_refl) as [_ Hfull].
  destruct (Hfull _ eq_refl ltac:(discriminate)) as (Hframes & Hslots & _).
  split; [exact Hframes | exact Hslots].
Defined.

(** ** The timeline of [get_video_analytics] *)

Section analytics_timeline_extras.
Context {G : Shapely}.
Implicit Types (sp : PyDict.dict UUID (Polygon G * string)) (thr : Q).

Lemma omap_get_frame_numbers (dets : list Detection) sp thr (l : list Z) :
  (∀ f, f ∈ l → f ∈ PyDict.keys (frame_data_of dets sp thr)) →
  fd_frame_number <$> omap (PyDict.get (frame_data_of dets sp thr)) l = l.
Proof.
  induction l as [|f l IH]; intros Hl; [done|].
  assert (Hf : f ∈ PyDict.keys (frame_data_of dets sp thr))
    by apply Hl, list_elem_of_here.
  destruct (PyDict.get (frame_data_of dets sp thr) f) as [data|] eqn:Hget.
  - csimpl. rewrite Hget. csimpl.
    rewrite IH by (intros f' Hf'; by apply Hl, list_elem_of_further).
    by apply frame_data_entry in Hget as (_ & -> & _).
  - by apply get_None_keys in Hget.
Qed.

(** The frames of the timeline before it is cut: the distinct frame numbers
    of the detections, ascending. *)
Lemma sorted_frames_numbers (dets ds : list Detection) sp thr :
  dets ≡ₚ ds →
  fd_frame_number <$> sorted_frames (frame_data_of dets sp thr) =
  py_sorted Z.leb (remove_dups (frame_number <$> ds)).
Proof.
  intros Hperm. unfold sorted_frames.
  rewrite omap_get_frame_numbers
    by (intros f Hf; by apply elem_of_py_sorted in Hf).
  apply StronglySorted_lt_unique.
  - apply StronglySorted_le_NoDup; [apply py_sorted_leb_StronglySorted|].
    rewrite py_sorted_Permutation. apply group_keys_NoDup.
  - apply StronglySorted_le_NoDup; [apply py_sorted_leb_StronglySorted|].
    rewrite py_sorted_Permutation. apply NoDup_remove_dups.
  - intros f. rewrite !elem_of_py_sorted.
    by rewrite (frame_data_keys_Permutation dets ds sp thr Hperm).
Qed.

Lemma analytics_timeline_numbers total (dets : list Detection) sp thr :
  af_frame_number <$> analytics_timeline total (frame_data_of dets sp thr) =
  fd_frame_number <$> sorted_frames (frame_data_of dets sp thr).
Proof.
  unfold analytics_timeline.
  change (map ?f ?l) with (f <$> l). by rewrite <- list_fmap_compose.
Qed.

Lemma fmap_last_n {A B : Type} (f : A → B) (n : nat) (l : list A) :
  f <$> last_n n l = last_n n (f <$> l).
Proof. unfold last_n. by rewrite fmap_drop, length_fmap. Qed.

(** What an entry of the timeline says about its frame. *)
Lemma analytics_timeline_counts (dets ds : list Detection)
    (slots : list (ParkingSlot G)) thr e :
  dets ≡ₚ ds →
  e ∈ analytics_timeline (len slots)
        (frame_data_of dets (slot_polygons_of slots) thr) →
  let here := filter (λ d, frame_number d = af_frame_number e) ds in
  af_total_vehicles e = len here ∧
  af_occupied_slots e =
    Z.of_nat (size (occupied_slots_of here (slot_polygons_of slots) thr)) ∧
  (af_occupied_slots e + af_free_slots e = len slots)%Z ∧
  (0 <= af_occupied_slots e <= len slots)%Z.
Proof.
  intros Hperm. unfold analytics_timeline, sorted_frames.
  intros (data & -> & Hdata)%list_elem_of_fmap. simpl.
  apply list_elem_of_omap in Hdata as (f & _ & Hget).
  apply frame_data_entry in Hget as (_ & -> & -> & ->).
  rewrite (occupied_slots_of_Permutation _ _ _ thr
             (filter_Permutation _ _ _ Hperm)).
  split.
  { unfold len. f_equal. apply Permutation_length.
    by apply filter_Permutation. }
  split; [done|]. split; [lia|]. apply size_occupied_le.
Qed.

End analytics_timeline_extras.

(** X20: whenever [get_video_analytics] answers, its [occupancy_timeline]
    holds the last 50 of the video's distinct frame numbers in ascending
    order, all of them when there are at most 50; an entry counts the
    detections of its frame and the slots they mark, and its occupied and
    free slots add up to the slots of the camera. *)
Theorem analytics_timeline_last_frames (G : Shapely) (db : DB G) (id : UUID)
    (thr : Q) (video : Video) (r : VideoAnalytics)
    (Hvideo : select_video db id = Some video)
    (Hr : get_video_analytics db id thr = Return r) :
  let ds := select_detections db id in
  let slots := select_slots db (video_camera_id video) in
  let frames := py_sorted Z.leb (remove_dups (frame_number <$> ds)) in
  af_frame_number <$> va_occupancy_timeline r = last_n 50 frames ∧
  length (va_occupancy_timeline r) = 50 `min` length frames ∧
  StronglySorted Z.lt (af_frame_number <$> va_occupancy_timeline r) ∧
  ∀ e, e ∈ va_occupancy_timeline r →
    let here := filter (λ d, frame_number d = af_frame_number e) ds in
    here ≠ [] ∧
    af_total_vehicles e = len here ∧
    af_occupied_slots e =
      Z.of_nat
        (size (occupied_slots_of here (slot_polygons_of slots) thr)) ∧
    (af_occupied_slots e + af_free_slots e = len slots)%Z ∧
    (0 <= af_occupied_slots e <= len slots)%Z.
Proof.
  unfold get_video_analytics in Hr. rewrite Hvideo in Hr.
  destruct (len (select_detections db id) =? 0)%Z eqn:Hlen.
  - injection Hr as <-. cbv zeta. cbn [va_occupancy_timeline].
    apply Z.eqb_eq in Hlen. unfold len in Hlen.
    destruct (select_detections db id) as [|d ds]; [|simpl in Hlen; lia].
    split; [done|]. split; [done|]. split; [constructor|].
    intros e He. by apply elem_of_nil in He.
  - injection Hr as <-. cbv zeta. cbn [va_occupancy_timeline].
    set (ds := select_detections db id).
    set (slots := select_slots db (video_camera_id video)).
    assert (Hperm : order_by_frame_number ds ≡ₚ ds)
      by apply order_by_frame_number_Permutation.
    assert (Hnumbers :
      af_frame_number
        <$> last_n 50
              (analytics_timeline (len slots)
                 (frame_data_of (order_by_frame_number ds)
                    (slot_polygons_of slots) thr))
      = last_n 50 (py_sorted Z.leb (remove_dups (frame_number <$> ds)))).
    { rewrite fmap_last_n, analytics_timeline_numbers.
      by rewrite (sorted_frames_numbers _ ds). }
    split; [exact Hnumbers|].
    split.
    { rewrite <- (length_fmap af_frame_number), Hnumbers.
      apply length_last_n. }
    split.
    { rewrite Hnumbers. unfold last_n.
      rewrite <- (take_ge (drop _ _) (length (py_sorted Z.leb
                    (remove_dups (frame_number <$> ds))))).
      - apply StronglySorted_take_drop.
        apply StronglySorted_le_NoDup; [apply py_sorted_leb_StronglySorted|].
        rewrite py_sorted_Permutation. apply NoDup_remove_dups.
      - rewrite length_drop. lia. }
    intros e He%elem_of_last_n.
    pose proof (analytics_timeline_entry _ _ _ _ _ He) as [Hne _].
    destruct (analytics_timeline_counts _ ds slots thr e Hperm He)
      as (Hveh & Hocc & Hsum & Hbounds).
    split; [|done].
    intros Hnil. apply Hne.
    apply Permutation_nil_r. rewrite <- Hnil.
    by apply filter_Permutation.
Qed.

Lemma analytics_timeline_last_frames_witness :
  ∃ r, get_video_analytics Example.db 31%N (3 # 10) = Return r ∧
       length (va_occupancy_timeline r) = 1.
Proof.
  eexists. split; [reflexivity|].
  destruct (analytics_timeline_last_frames BoxKernel.kernel Example.db 31%N
              (3 # 10) Example.video _ eq_refl eq_refl) as (_ & Hlen & _).
  exact Hlen.
Defined.

(** ** Average and peak of [get_video_analytics] *)

Section rounding_facts.
Local Open Scope Q_scope.

Lemma round_half_even_mono (x y : Q) :
  x <= y → (round_half_even x <= round_half_even y)%Z.
Proof.
  intros Hxy. unfold round_half_even.
  pose proof (Qfloor_resp_le _ _ Hxy) as Hfg.
  pose proof (Qfloor_le x) as Hx0. pose proof (Qlt_floor x) as Hx1.
  pose proof (Qfloor_le y) as Hy0. pose proof (Qlt_floor y) as Hy1.
  revert Hfg Hx0 Hx1 Hy0 Hy1.
  generalize (Qfloor x) (Qfloor y). intros f g Hfg Hx0 Hx1 Hy0 Hy1.
  destruct (Z.eq_dec f g) as [<-|Hne].
  - destruct (Qcompare_spec (x - inject_Z f) (1 # 2)) as [Hx|Hx|Hx],
             (Qcompare_spec (y - inject_Z f) (1 # 2)) as [Hy|Hy|Hy];
      try (destruct (Z.even f)); try lia; exfalso; lra.
  - assert (f + 1 <= g)%Z by lia.
    destruct (x - inject_Z f ?= 1 # 2), (y - inject_Z g ?= 1 # 2);
      destruct (Z.even f), (Z.even g); lia.
Qed.

(** Rounding moves a number by at most one half. *)
Lemma round_half_even_error (x : Q) :
  x - (1 # 2) <= inject_Z (round_half_even x) <= x + (1 # 2).
Proof.
  unfold round_half_even.
  pose proof (Qfloor_le x) as Hlo. pose proof (Qlt_floor x) as Hhi.
  rewrite inject_Z_plus in Hhi. change (inject_Z 1) with 1 in Hhi.
  destruct (Qcompare_spec (x - inject_Z (Qfloor x)) (1 # 2)) as [Heq|Hlt|Hgt].
  - destruct (Z.even (Qfloor x)).
    + lra.
    + rewrite inject_Z_plus. change (inject_Z 1) with 1. lra.
  - lra.
  - rewrite inject_Z_plus. change (inject_Z 1) with 1. lra.
Qed.

Lemma py_round_error_1 (x : Q) :
  x - (1 # 20) <= py_round x 1 <= x + (1 # 20).
Proof.
  unfold py_round. change (10 ^ Z.of_nat 1)%Z with 10%Z.
  pose proof (round_half_even_error (x * inject_Z 10)) as Herr.
  revert Herr. generalize (inject_Z (round_half_even (x * inject_Z 10))).
  intros z Herr. change (inject_Z 10) with (10 # 1) in *.
  unfold Qdiv. change (/ (10 # 1)) with (1 # 10). lra.
Qed.

Lemma py_round_error_2 (x : Q) :
  x - (1 # 200) <= py_round x 2 <= x + (1 # 200).
Proof.
  unfold py_round. change (10 ^ Z.of_nat 2)%Z with 100%Z.
  pose proof (round_half_even_error (x * inject_Z 100)) as Herr.
  revert Herr. generalize (inject_Z (round_half_even (x * inject_Z 100))).
  intros z Herr. change (inject_Z 100) with (100 # 1) in *.
  unfold Qdiv. change (/ (100 # 1)) with (1 # 100). lra.
Qed.

Lemma py_round_mono (x y : Q) (ndigits : nat) :
  x <= y → py_round x ndigits <= py_round y ndigits.
Proof.
  intros Hxy. unfold py_round.
  assert (Hpos : 0 < inject_Z (10 ^ Z.of_nat ndigits)).
  { rewrite <- (Zlt_Qlt 0). apply Z.pow_pos_nonneg; lia. }
  unfold Qdiv. apply Qmult_le_compat_r.
  - rewrite <- Zle_Qle. apply round_half_even_mono.
    apply Qmult_le_compat_r; [done|]. by apply Qlt_le_weak.
  - apply Qinv_le_0_compat. by apply Qlt_le_weak.
Qed.

Lemma foldl_Qplus_le (l : list Q) (a M : Q) :
  Forall (λ x, x <= M) l →
  foldl Qplus a l <= a + inject_Z (len l) * M.
Proof.
  intros Hall. revert a. induction Hall as [|x l Hx _ IH]; intros a.
  - cbn [foldl]. change (inject_Z (len [])) with 0%Q. lra.
  - cbn [foldl]. specialize (IH (a + x)%Q).
    replace (len (x :: l)) with (1 + len l)%Z by (unfold len; simpl; lia).
    rewrite inject_Z_plus. change (inject_Z 1) with 1%Q. lra.
Qed.

(** [max(l)] on a non-empty list, as the fold of the endpoint. *)
Lemma foldl_Qmax_spec (r : Q) (rs : list Q) :
  Forall (λ x, x <= foldl Qmax r rs) (r :: rs) ∧
  Exists (λ x, foldl Qmax r rs == x) (r :: rs).
Proof.
  revert r. induction rs as [|x rs IH]; intros r; cbn [foldl].
  - split; [constructor; [lra|constructor]|]. by left.
  - destruct (IH (Qmax r x)) as [Hall Hex].
    apply Forall_cons in Hall as [Hmax Hall].
    destruct (Q.max_spec r x) as [[Hlt Heq]|[Hle Heq]].
    + split.
      * constructor; [lra|]. constructor; [lra|done].
      * apply Exists_cons in Hex as [Hex|Hex].
        -- right. left. lra.
        -- right. by right.
    + split.
      * constructor; [lra|]. constructor; [lra|done].
      * apply Exists_cons in Hex as [Hex|Hex].
        -- left. lra.
        -- right. by right.
Qed.

End rounding_facts.

Section analytics_summary_facts.
Context {G : Shapely}.

Lemma frame_rate_unit (dets : list Detection) (slots : list (ParkingSlot G))
    (thr : Q) data :
  data ∈ sorted_frames (frame_data_of dets (slot_polygons_of slots) thr) →
  (0 <= frame_rate (len slots) data <= 1)%Q.
Proof.
  unfold sorted_frames.
  intros (f & _ & Hget)%list_elem_of_omap.
  apply frame_data_entry in Hget as (_ & _ & Hocc & _).
  unfold frame_rate.
  destruct (Z.gtb_spec (len slots) 0); [|done].
  apply int_div_unit; [|done]. rewrite Hocc. apply size_occupied_le.
Qed.

(** Mean and maximum of a non-empty list of rates. *)
Lemma mean_le_max (r : Q) (rs : list Q) :
  Forall (λ x, 0 <= x <= 1)%Q (r :: rs) →
  (0 <= sum_Q (r :: rs) / inject_Z (len (r :: rs))
     <= foldl Qmax r rs)%Q ∧
  (foldl Qmax r rs <= 1)%Q.
Proof.
  intros Hunit.
  destruct (foldl_Qmax_spec r rs) as [Hall Hex].
  assert (Hpos : (0 < inject_Z (len (r :: rs)))%Q).
  { rewrite <- (Zlt_Qlt 0). unfold len. simpl. lia. }
  pose proof (foldl_Qplus_le (r :: rs) 0 (foldl Qmax r rs) Hall) as Hsum.
  pose proof (foldl_Qplus_bounds (r :: rs) 0 Hunit) as [Hsum0 _].
  fold (sum_Q (r :: rs)) in Hsum, Hsum0.
  split; [split|].
  - apply Qle_shift_div_l; [done|]. lra.
  - apply Qle_shift_div_r; [done|]. lra.
  - apply Exists_exists in Hex as (x & Hx & Heq).
    rewrite Forall_forall in Hunit. destruct (Hunit x Hx). lra.
Qed.

End analytics_summary_facts.

(** X21: whenever [get_video_analytics] answers, the average and the peak
    occupancy rate of its summary lie within [0, 1], no entry of the
    timeline has a rate above the peak, and when the detections of the
    video lie on at most 50 frames, so that the timeline is not cut, the
    peak is the rate of one of the entries of the timeline. *)
Theorem analytics_average_and_peak (G : Shapely) (db : DB G) (id : UUID)
    (thr : Q) (r : VideoAnalytics)
    (Hr : get_video_analytics db id thr = Return r) :
  let ds := select_detections db id in
  (0 <= va_average_occupancy_rate r <= 1)%Q ∧
  (0 <= va_peak_occupancy_rate r <= 1)%Q ∧
  (∀ e, e ∈ va_occupancy_timeline r →
        (af_occupancy_rate e <= va_peak_occupancy_rate r)%Q) ∧
  (ds ≠ [] → length (remove_dups (frame_number <$> ds)) ≤ 50 →
   ∃ e, e ∈ va_occupancy_timeline r ∧
        (af_occupancy_rate e == va_peak_occupancy_rate r)%Q).
Proof.
  unfold get_video_analytics in Hr.
  destruct (select_video db id) as [video|]; [|done].
  destruct (len (select_detections db id) =? 0)%Z eqn:Hlen.
  - injection Hr as <-. cbv zeta.
    cbn [va_average_occupancy_rate va_peak_occupancy_rate
         va_occupancy_timeline].
    split; [done|]. split; [done|]. split.
    { intros e He. by apply elem_of_nil in He. }
    intros Hne _. exfalso. apply Hne.
    apply Z.eqb_eq in Hlen. unfold len in Hlen.
    destruct (select_detections db id); [done|]. simpl in Hlen. lia.
  - injection Hr as <-. cbv zeta.
    cbn [va_average_occupancy_rate va_peak_occupancy_rate
         va_occupancy_timeline].
    set (ds := select_detections db id).
    set (slots := select_slots db (video_camera_id video)).
    set (frame_data :=
           frame_data_of (order_by_frame_number ds)
             (slot_polygons_of slots) thr).
    assert (Hperm : order_by_frame_number ds ≡ₚ ds)
      by apply order_by_frame_number_Permutation.
    assert (Hunit : Forall (λ x, 0 <= x <= 1)%Q
                      (map (frame_rate (len slots))
                         (sorted_frames frame_data))).
    { apply Forall_forall. intros x (data & -> & Hdata)%list_elem_of_fmap.
      by eapply frame_rate_unit. }
    assert (Hcount : length (analytics_timeline (len slots) frame_data)
                     = length (remove_dups (frame_number <$> ds))).
    { rewrite <- (length_fmap af_frame_number).
      unfold frame_data.
      rewrite analytics_timeline_numbers, (sorted_frames_numbers _ ds)
        by done.
      apply length_py_sorted. }
    destruct (map (frame_rate (len slots)) (sorted_frames frame_data))
      as [|rate rates] eqn:Hrates.
    + rewrite bool_decide_true by done.
      apply fmap_nil_inv in Hrates.
      unfold analytics_timeline in *. rewrite Hrates in *.
      split; [done|]. split; [done|]. split.
      { intros e He. by apply elem_of_nil in He. }
      intros Hne _. exfalso. apply Hne.
      simpl in Hcount. symmetry in Hcount.
      apply length_zero_iff_nil in Hcount.
      destruct ds as [|d ds']; [done|].
      assert (Hd : frame_number d ∈ remove_dups (frame_number <$> d :: ds'))
        by (apply elem_of_remove_dups; left).
      rewrite Hcount in Hd. by apply elem_of_nil in Hd.
    + rewrite bool_decide_false by done.
      destruct (mean_le_max rate rates Hunit) as [[Hmean0 Hmean] Hmax].
      destruct (foldl_Qmax_spec rate rates) as [Hall Hex].
      assert (Hmax0 : (0 <= foldl Qmax rate rates)%Q)
        by (eapply Qle_trans; eassumption).
      split.
      { split.
        - eapply Qle_trans; [|apply py_round_mono; exact Hmean0].
          by vm_compute.
        - eapply Qle_trans;
            [apply py_round_mono; eapply Qle_trans; eassumption|].
          by vm_compute. }
      split.
      { split.
        - eapply Qle_trans; [|apply py_round_mono; exact Hmax0].
          by vm_compute.
        - eapply Qle_trans; [apply py_round_mono; exact Hmax|].
          by vm_compute. }
      split.
      { intros e He%elem_of_last_n.
        unfold analytics_timeline in He.
        apply list_elem_of_fmap in He as (data & -> & Hdata).
        cbn [af_occupancy_rate]. apply py_round_mono.
        rewrite Forall_forall in Hall. apply Hall. rewrite <- Hrates.
        apply list_elem_of_fmap. by exists data. }
      intros _ Hfew.
      apply Exists_exists in Hex as (x & Hx & Heq).
      rewrite <- Hrates in Hx.
      apply list_elem_of_fmap in Hx as (data & -> & Hdata).
      eexists. split.
      * unfold last_n. rewrite Hcount.
        replace (length (remove_dups (frame_number <$> ds)) - 50) with 0
          by lia.
        rewrite drop_0. unfold analytics_timeline.
        apply list_elem_of_fmap. by exists data.
      * cbn [af_occupancy_rate].
        apply Qle_antisym; apply py_round_mono; rewrite Heq; apply Qle_refl.
Qed.

Lemma analytics_average_and_peak_witness :
  ∃ r, get_video_analytics Example.db 31%N (3 # 10) = Return r ∧
       (0 <= va_peak_occupancy_rate r <= 1)%Q.
Proof.
  eexists. split; [reflexivity|].
  destruct (analytics_average_and_peak BoxKernel.kernel Example.db 31%N
              (3 # 10) _ eq_refl) as (_ & Hpeak & _).
  exact Hpeak.
Defined.

(** ** The vehicle-class breakdown of [get_video_analytics] *)

Section vehicle_breakdown_facts.

Lemma foldl_count_class (data : VehicleCount) (ds : list Detection) :
  foldl count_class data ds =
  mkVehicleCount (vc_count data + len ds)
    (foldl Qplus (vc_total_confidence data) (confidence <$> ds)).
Proof.
  revert data. induction ds as [|d ds IH]; intros data.
  - destruct data. unfold len. simpl. f_equal. lia.
  - cbn [foldl]. rewrite IH. unfold count_class, len.
    cbn [vc_count vc_total_confidence]. rewrite fmap_cons. cbn [foldl length].
    f_equal. lia.
Qed.

(** The entry of a class in [vehicle_counts]. *)
Lemma vehicle_counts_entry (ds : list Detection) (c : string) data :
  PyDict.get (vehicle_counts_of ds) c = Some data →
  filter (λ d, class_name d = c) ds ≠ [] ∧
  vc_count data = len (filter (λ d, class_name d = c) ds) ∧
  vc_total_confidence data =
    sum_Q (confidence <$> filter (λ d, class_name d = c) ds).
Proof.
  unfold vehicle_counts_of. rewrite group_get.
  destruct (filter (λ d, class_name d = c) ds) as [|d0 rest] eqn:Hf; [done|].
  intros [= <-]. split; [done|].
  change (foldl count_class (count_class (mkVehicleCount 0 0) d0) rest)
    with (foldl count_class (mkVehicleCount 0 0) (d0 :: rest)).
  rewrite foldl_count_class. cbn [vc_count vc_total_confidence].
  split; [lia|done].
Qed.

Lemma vehicle_counts_item (ds : list Detection) (c : string) data :
  (c, data) ∈ PyDict.items (vehicle_counts_of ds) →
  PyDict.get (vehicle_counts_of ds) c = Some data.
Proof. apply elem_of_get, group_keys_NoDup. Qed.

Lemma vehicle_breakdown_names (ds : list Detection) (total : Z) :
  vb_class_name <$> vehicle_breakdown_of ds total
    ≡ₚ PyDict.keys (vehicle_counts_of ds).
Proof.
  unfold vehicle_breakdown_of, PyDict.keys.
  change (map ?f ?l) with (f <$> l).
  transitivity
    (fst <$> py_sorted
               (λ x y : string * VehicleCount,
                  (vc_count y.2 <=? vc_count x.2)%Z)
               (PyDict.items (vehicle_counts_of ds))).
  - match goal with
    | |- ?l ≡ₚ ?k => enough (Heq : l = k) by (by rewrite Heq)
    end.
    rewrite <- list_fmap_compose.
    apply list_fmap_ext. by intros i [c data] _.
  - by rewrite py_sorted_Permutation.
Qed.

Lemma vehicle_breakdown_entry (ds : list Detection) (total : Z) e :
  e ∈ vehicle_breakdown_of ds total →
  ∃ data,
    PyDict.get (vehicle_counts_of ds) (vb_class_name e) = Some data ∧
    vb_count e = vc_count data ∧
    vb_percentage e = py_round (int_div (vc_count data) total * 100) 1 ∧
    vb_avg_confidence e =
      py_round (vc_total_confidence data / inject_Z (vc_count data)) 2.
Proof.
  unfold vehicle_breakdown_of.
  intros ([c data] & -> & Hitem)%list_elem_of_fmap.
  apply elem_of_py_sorted, vehicle_counts_item in Hitem.
  by exists data.
Qed.

End vehicle_breakdown_facts.

(** X22: the vehicle breakdown of the analytics has one entry for each
    class name among the detections of the video, by non-increasing count;
    an entry counts the detections of its class, at least one; its
    percentage lies within [0, 100] and less than 0.1 away from the share
    of the class in percent; its average confidence lies within [0, 1] when
    the confidences of the class do; the counts add up to
    [total_detections]. *)
Theorem vehicle_breakdown_counts (G : Shapely) (db : DB G) (id : UUID) :
  let ds := order_by_frame_number (select_detections db id) in
  let total := len (select_detections db id) in
  let breakdown := vehicle_breakdown_of ds total in
  NoDup (vb_class_name <$> breakdown) ∧
  (∀ c, c ∈ vb_class_name <$> breakdown ↔
        ∃ d, d ∈ select_detections db id ∧ class_name d = c) ∧
  sum_Z (vb_count <$> breakdown) = total ∧
  StronglySorted (λ a b, (vb_count b <= vb_count a)%Z) breakdown ∧
  ∀ e, e ∈ breakdown →
    let here := filter (λ d, class_name d = vb_class_name e) ds in
    let share := (int_div (vb_count e) total * 100)%Q in
    vb_count e = len here ∧
    (1 <= vb_count e <= total)%Z ∧
    (0 <= vb_percentage e <= 100)%Q ∧
    (share - (1 # 10) < vb_percentage e)%Q ∧
    (vb_percentage e < share + (1 # 10))%Q ∧
    (Forall (λ d, 0 <= confidence d <= 1)%Q here →
     (0 <= vb_avg_confidence e <= 1)%Q).
Proof.
  intros ds total breakdown.
  assert (Hperm : ds ≡ₚ select_detections db id)
    by apply order_by_frame_number_Permutation.
  assert (Htotal : total = len ds).
  { unfold total, len. f_equal. by rewrite Hperm. }
  assert (Hentry : ∀ e, e ∈ breakdown →
    let here := filter (λ d, class_name d = vb_class_name e) ds in
    here ≠ [] ∧ vb_count e = len here ∧
    vb_percentage e = py_round (int_div (vb_count e) total * 100) 1 ∧
    vb_avg_confidence e =
      py_round (sum_Q (confidence <$> here) / inject_Z (len here)) 2).
  { intros e He.
    apply vehicle_breakdown_entry in He as (data & Hget & Hc & Hp & Ha).
    apply vehicle_counts_entry in Hget as (Hne & Hcount & Hconf).
    cbv zeta. rewrite Hc, Hp, Ha, Hcount, Hconf. done. }
  split.
  { unfold breakdown. rewrite vehicle_breakdown_names.
    apply group_keys_NoDup. }
  split.
  { intros c. unfold breakdown. rewrite vehicle_breakdown_names.
    unfold vehicle_counts_of. rewrite group_keys_elem_of.
    by setoid_rewrite Hperm. }
  split.
  { rewrite Htotal.
    rewrite <- (sum_counts class_name (vb_class_name <$> breakdown) ds).
    - f_equal. rewrite <- list_fmap_compose.
      apply list_fmap_ext. intros i e Hi. simpl.
      apply list_elem_of_lookup_2 in Hi.
      by destruct (Hentry e Hi) as (_ & -> & _).
    - unfold breakdown. rewrite vehicle_breakdown_names.
      apply group_keys_NoDup.
    - intros d Hd. unfold breakdown. rewrite vehicle_breakdown_names.
      unfold vehicle_counts_of. rewrite group_keys_elem_of. by exists d. }
  split.
  { unfold breakdown, vehicle_breakdown_of.
    change (map ?f ?l) with (f <$> l).
    apply StronglySorted_fmap.
    eapply StronglySorted_mono;
      [|apply (py_sorted_StronglySorted
                 (λ x y : string * VehicleCount,
                    (vc_count y.2 <=? vc_count x.2)%Z))].
    - intros [c1 d1] [c2 d2] Hxy. simpl in *. lia.
    - intros x y. lia.
    - intros x y z. lia. }
  intros e He. destruct (Hentry e He) as (Hne & Hcount & Hp & Ha).
  cbv zeta in *.
  set (here := filter (λ d, class_name d = vb_class_name e) ds) in *.
  assert (Hbounds : (1 <= vb_count e <= total)%Z).
  { rewrite Hcount, Htotal. unfold len. split.
    - destruct here; [done|]. simpl. lia.
    - apply inj_le, length_filter. }
  split; [done|]. split; [done|].
  assert (Hunit : (0 <= int_div (vb_count e) total <= 1)%Q)
    by (apply int_div_unit; lia).
  pose proof (py_round_error_1 (int_div (vb_count e) total * 100)) as Herr.
  rewrite <- Hp in Herr.
  split.
  { rewrite Hp. split.
    - eapply Qle_trans; [|apply py_round_mono
                            with (x := 0%Q) (y := (_ * 100)%Q); lra].
      by vm_compute.
    - eapply Qle_trans; [apply py_round_mono
                           with (x := (_ * 100)%Q) (y := 100%Q); lra|].
      by vm_compute. }
  split; [lra|]. split; [lra|].
  intros Hconf. rewrite Ha. apply py_round_unit.
  assert (Hconf' : Forall (λ x, 0 <= x <= 1)%Q (confidence <$> here))
    by (by apply Forall_fmap).
  pose proof (foldl_Qplus_bounds _ 0 Hconf') as [Hsum0 Hsum1].
  fold (sum_Q (confidence <$> here)) in Hsum0, Hsum1.
  assert (Hlen : len (confidence <$> here) = len here)
    by (unfold len; by rewrite length_fmap).
  rewrite Hlen in Hsum1.
  apply ratio_in_unit; [done|lra|].
  rewrite <- (Zlt_Qlt 0). rewrite <- Hcount. lia.
Qed.

(** ** [debug_slot_lot_mapping] *)

Lemma Forall2_fmap_eq {A B C : Type} (f : A → C) (g : B → C) (l : list A)
    (k : list B) :
  Forall2 (λ x y, f x = g y) l k → f <$> l = g <$> k.
Proof.
  induction 1 as [|x y l k Hxy _ IH]; [done|].
  by rewrite !fmap_cons, Hxy, IH.
Qed.

Section debug_mapping_facts.
Context {G : Shapely}.
Implicit Types (lp : PyDict.dict UUID (Polygon G * string)).

Lemma lot_match_of_None (slot_poly : Polygon G)
    (item : UUID * (Polygon G * string)) :
  lot_match_of slot_poly item = None ↔
  intersection_area G slot_poly item.2.1 = None.
Proof.
  destruct item as [lid [poly name]]. simpl.
  by destruct (intersection_area G slot_poly poly).
Qed.

Hypothesis area_nonneg' : ∀ p : Polygon G, (0 <= area G p)%Q.

(** With non-negative areas the flag of a match is the containment test of
    the mapping. *)
Lemma lot_match_of_Some (slot_poly : Polygon G)
    (item : UUID * (Polygon G * string)) m :
  lot_match_of slot_poly item = Some m →
  lm_lot_id m = item.1 ∧
  lm_meets_threshold m = check_containment slot_poly item.2.1 0.5 ∧
  lm_iou m = py_round (calculate_iou slot_poly item.2.1) 4.
Proof.
  destruct item as [lid [poly name]]. simpl.
  rewrite check_containment_unfold.
  destruct (intersection_area G slot_poly poly) as [i|]; [|done].
  simpl. intros [= <-]. simpl. split; [done|]. split; [|done].
  pose proof (area_nonneg' slot_poly) as Harea.
  destruct (Qgtb (area G slot_poly) 0) eqn:Hpos.
  - apply Qgtb_gt in Hpos.
    destruct (Qeq_bool (area G slot_poly) 0) eqn:Hz; [|done].
    apply Qeq_bool_iff in Hz. lra.
  - apply Qgtb_le in Hpos.
    destruct (Qeq_bool (area G slot_poly) 0) eqn:Hz; [done|].
    apply Qeq_bool_neq in Hz. exfalso. apply Hz. lra.
Qed.

Lemma slot_info_of_None lp (slot : ParkingSlot G) :
  slot_info_of lp slot = None ↔
  ∃ item, item ∈ PyDict.items lp ∧
          intersection_area G (slot_polygon slot) item.2.1 = None.
Proof.
  unfold slot_info_of.
  destruct (mapM (lot_match_of (slot_polygon slot)) (PyDict.items lp))
    as [ms|] eqn:Hms; simpl.
  - split; [done|]. intros (item & Hitem & Hnone).
    assert (Hex : mapM (lot_match_of (slot_polygon slot)) (PyDict.items lp)
                  = None).
    { apply mapM_None, Exists_exists. exists item.
      split; [done|]. by apply lot_match_of_None. }
    by rewrite Hms in Hex.
  - split; [intros _|done].
    apply mapM_None, Exists_exists in Hms as (item & Hitem & Hnone).
    exists item. split; [done|]. by apply lot_match_of_None.
Qed.

Lemma slot_info_of_Some lp (slot : ParkingSlot G) info :
  slot_info_of lp slot = Some info →
  si_slot_id info = slot_id slot ∧
  StronglySorted (λ a b, (lm_iou b <= lm_iou a)%Q) (si_lot_matches info) ∧
  (λ m, (lm_lot_id m, lm_meets_threshold m)) <$> si_lot_matches info
    ≡ₚ (λ item, (item.1, check_containment (slot_polygon slot) item.2.1 0.5))
         <$> PyDict.items lp.
Proof.
  unfold slot_info_of.
  destruct (mapM (lot_match_of (slot_polygon slot)) (PyDict.items lp))
    as [ms|] eqn:Hms; [|done].
  simpl. intros [= <-]. simpl. split; [done|]. split.
  - eapply StronglySorted_mono;
      [|apply (py_sorted_StronglySorted
                 (λ x y, Qgeb (lm_iou x) (lm_iou y)))].
    + intros x y Hxy. by apply Qgeb_ge in Hxy.
    + intros x y. rewrite !Qgeb_ge.
      destruct (Qlt_le_dec (lm_iou x) (lm_iou y));
        [right; by apply Qlt_le_weak|by left].
    + intros x y z. rewrite !Qgeb_ge. intros ? ?. by eapply Qle_trans.
  - rewrite py_sorted_Permutation.
    match goal with
    | |- ?l ≡ₚ ?k => enough (Heq : l = k) by (by rewrite Heq)
    end.
    symmetry. apply Forall2_fmap_eq.
    apply mapM_Some_1 in Hms.
    eapply Forall2_impl; [exact Hms|].
    intros item m Hm. simpl.
    apply lot_match_of_Some in Hm as (-> & -> & _). done.
Qed.

(** The mapping assigns a lot exactly when some item passes the
    containment test. *)
Lemma first_containing_lot_is_Some lp (slot_poly : Polygon G) :
  is_Some (first_containing_lot slot_poly lp) ↔
  ∃ item, item ∈ PyDict.items lp ∧
          check_containment slot_poly item.2.1 0.5 = true.
Proof.
  unfold first_containing_lot. rewrite fmap_is_Some.
  split.
  - intros [[lid [poly name]] Hfind].
    apply find_some in Hfind as [Hin Hcheck].
    exists (lid, (poly, name)). split; [|done]. by apply list_elem_of_In.
  - intros ([lid [poly name]] & Hin & Hcheck).
    destruct (List.find _ (PyDict.items lp)) as [found|] eqn:Hfind;
      [done|].
    apply list_elem_of_In in Hin.
    apply (find_none _ _ Hfind) in Hin. simpl in Hin, Hcheck.
    by rewrite Hcheck in Hin.
Qed.

End debug_mapping_facts.

(** X23: [debug_slot_lot_mapping] answers with an error object when the
    camera has no lots, or lots but no slots, in both cases before it
    builds a polygon; otherwise it raises whenever the overlay of some slot
    with some lot fails, a failure the containment test of the mapping
    itself swallows; and whenever it returns a mapping, it reports every
    slot in order, the lots of a slot by non-increasing rounded IoU, and,
    areas being non-negative, the flag [meets_threshold] of a lot is the
    containment test of the mapping, so that a slot is assigned a lot
    exactly when one of its matches has the flag. *)
Theorem debug_mapping_flags (G : Shapely)
    (Harea : ∀ p : Polygon G, (0 <= area G p)%Q) (db : DB G) (cam : UUID) :
  let lots := select_lots db cam in
  let slots := select_slots db cam in
  let lp := lot_polygons_of lots in
  (lots = [] →
   debug_slot_lot_mapping db cam =
   Return (debug_error "No parking lots found for this camera")) ∧
  (lots ≠ [] → slots = [] →
   debug_slot_lot_mapping db cam =
   Return (debug_error "No parking slots found for this camera")) ∧
  (lots ≠ [] →
   ∀ slot item,
     slot ∈ slots → item ∈ PyDict.items lp →
     intersection_area G (slot_polygon slot) item.2.1 = None →
     check_containment (slot_polygon slot) item.2.1 0.5 = false ∧
     ∃ exc msg, debug_slot_lot_mapping db cam = Raise exc msg) ∧
  ∀ cid total_lots total_slots listed mapping,
    debug_slot_lot_mapping db cam =
      Return (debug_mapping cid total_lots total_slots listed mapping) →
    lots ≠ [] ∧ slots ≠ [] ∧
    cid = cam ∧ total_lots = len lots ∧ total_slots = len slots ∧
    Forall2
      (λ slot info,
         si_slot_id info = slot_id slot ∧
         StronglySorted (λ a b, (lm_iou b <= lm_iou a)%Q)
           (si_lot_matches info) ∧
         (λ m, (lm_lot_id m, lm_meets_threshold m)) <$> si_lot_matches info
           ≡ₚ (λ item,
                 (item.1,
                  check_containment (slot_polygon slot) item.2.1 0.5))
                <$> PyDict.items lp ∧
         (is_Some (first_containing_lot (slot_polygon slot) lp) ↔
          ∃ m, m ∈ si_lot_matches info ∧ lm_meets_threshold m = true))
      slots mapping.
Proof.
  intros lots slots lp. unfold debug_slot_lot_mapping.
  fold lots. fold slots. fold lp.
  split; [intros ->; by rewrite bool_decide_true|].
  split.
  { intros Hlots ->. by rewrite bool_decide_false, bool_decide_true. }
  split.
  - intros Hlots slot item Hslot Hitem Hnone.
    split; [rewrite check_containment_unfold; by rewrite Hnone|].
    assert (Hslots : slots ≠ []).
    { intros Hnil. rewrite Hnil in Hslot. by apply elem_of_nil in Hslot. }
    rewrite !bool_decide_false by done.
    assert (Hex : mapM (slot_info_of lp) slots = None).
    { apply mapM_None, Exists_exists. exists slot. split; [done|].
      apply slot_info_of_None. by exists item. }
    rewrite Hex. by eexists _, _.
  - intros cid total_lots total_slots listed mapping.
    case_bool_decide as Hlots; [done|].
    case_bool_decide as Hslots; [done|].
    destruct (mapM (slot_info_of lp) slots) as [results|] eqn:Hmap; [|done].
    intros [= <- <- <- <- <-].
    split; [done|]. split; [done|].
    split; [done|]. split; [done|]. split; [done|].
    apply mapM_Some_1 in Hmap.
    eapply Forall2_impl; [exact Hmap|].
    intros slot info Hinfo. simpl in Hinfo.
    apply (slot_info_of_Some Harea) in Hinfo as (Hid & Hsorted & Hflags).
    split; [done|]. split; [done|]. split; [done|].
    rewrite first_containing_lot_is_Some. split.
    + intros (item & Hitem & Hcheck).
      assert (Hpair : (item.1, true)
                ∈ (λ m, (lm_lot_id m, lm_meets_threshold m))
                    <$> si_lot_matches info).
      { rewrite Hflags. apply list_elem_of_fmap. exists item.
        split; [by rewrite Hcheck|done]. }
      apply list_elem_of_fmap in Hpair as (m & [= _ Hm] & Hin).
      by exists m.
    + intros (m & Hin & Hm).
      assert (Hpair : (lm_lot_id m, true)
                ∈ (λ item,
                     (item.1,
                      check_containment (slot_polygon slot) item.2.1 0.5))
                    <$> PyDict.items lp).
      { rewrite <- Hflags. apply list_elem_of_fmap. exists m.
        split; [by rewrite Hm|done]. }
      apply list_elem_of_fmap in Hpair as (item & [= _ Hcheck] & Hitem).
      by exists item.
Qed.

Lemma debug_mapping_flags_witness :
  ∃ listed mapping,
    debug_slot_lot_mapping Example.db Example.camera =
      Return (debug_mapping Example.camera 1 2 listed mapping) ∧
    length mapping = 2.
Proof.
  eexists _, _. split; [reflexivity|].
  pose proof (debug_mapping_flags BoxKernel.kernel
                (@area_nonneg BoxKernel.kernel kernel_laws) Example.db
                Example.camera) as (_ & _ & _ & Hret).
  destruct (Hret _ _ _ _ _ eq_refl) as (_ & _ & _ & _ & _ & Hall).
  symmetry. exact (Forall2_length _ _ _ Hall).
Defined.

(** ** Lot statistics of [get_video_analytics] *)

Section lot_statistics_facts.
Context {G : Shapely}.
Implicit Types (sp : PyDict.dict UUID (Polygon G * string)) (thr : Q).

(** A slot is counted in at most every frame. *)
Lemma slot_occupancy_bounds sp (frame_data : PyDict.dict Z FrameData)
    (sid : UUID) :
  (0 <= default 0 (slot_occupancy_of sp frame_data !! sid)
     <= len (PyDict.values frame_data))%Z.
Proof.
  unfold slot_occupancy_of. rewrite slot_occupancy_foldl, slot_occupancy_init.
  destruct (decide (sid ∈ PyDict.keys sp)); simpl.
  - unfold len. split; [lia|]. rewrite Z.add_0_l. apply inj_le, length_filter.
  - unfold len. lia.
Qed.

Lemma lot_occupancy_foldl_bounds (slot_occupancy : gmap UUID Z)
    (slot_to_lot_map : gmap UUID UUID) (T n : Z)
    (slots : list (ParkingSlot G)) (lot_occupancy : gmap UUID LotOccupancy) :
  (∀ sid, 0 <= default 0 (slot_occupancy !! sid) <= T)%Z →
  (∀ k d, lot_occupancy !! k = Some d →
          (0 <= lo_total_slots d <= n)%Z ∧
          (0 <= lo_occupied_frames d <= lo_total_slots d * T)%Z) →
  ∀ k d,
    foldl
      (λ lot_occupancy slot,
         match slot_to_lot_map !! slot_id slot with
         | Some lot_id =>
             alter
               (λ d, mkLotOccupancy
                       (lo_occupied_frames d
                        + default 0%Z (slot_occupancy !! slot_id slot))
                       (lo_total_slots d + 1))
               lot_id lot_occupancy
         | None => lot_occupancy
         end)
      lot_occupancy slots !! k = Some d →
    (0 <= lo_total_slots d <= n + len slots)%Z ∧
    (0 <= lo_occupied_frames d <= lo_total_slots d * T)%Z.
Proof.
  intros Hso. revert lot_occupancy n.
  induction slots as [|slot slots IH]; intros lot_occupancy n Hinv k d.
  - cbn [foldl]. intros Hd. destruct (Hinv k d Hd). unfold len. simpl.
    split; [lia|done].
  - cbn [foldl]. intros Hd.
    replace (n + len (slot :: slots))%Z with ((n + 1) + len slots)%Z
      by (unfold len; cbn [length]; lia).
    eapply IH; [|exact Hd]. clear Hd k d.
    intros k d. destruct (slot_to_lot_map !! slot_id slot) as [lid|].
    + rewrite lookup_alter_Some.
      intros [(<- & x & Hx & ->)|(Hne & Hd)].
      * destruct (Hinv _ _ Hx) as [Ht Ho].
        specialize (Hso (slot_id slot)). simpl. split; [lia|nia].
      * destruct (Hinv _ _ Hd). split; [lia|done].
    + intros Hd. destruct (Hinv _ _ Hd). split; [lia|done].
Qed.

(** The values of [lot_occupancy]. *)
Lemma lot_occupancy_of_bounds (lots : list (ParkingLot G))
    (slots : list (ParkingSlot G)) (slot_to_lot_map : gmap UUID UUID)
    (slot_occupancy : gmap UUID Z) (T : Z) k d :
  (∀ sid, 0 <= default 0 (slot_occupancy !! sid) <= T)%Z →
  lot_occupancy_of lots slots slot_to_lot_map slot_occupancy !! k = Some d →
  (0 <= lo_total_slots d <= len slots)%Z ∧
  (0 <= lo_occupied_frames d <= lo_total_slots d * T)%Z.
Proof.
  intros Hso Hd. unfold lot_occupancy_of in Hd.
  replace (len slots) with (0 + len slots)%Z by lia.
  eapply lot_occupancy_foldl_bounds; [exact Hso| |exact Hd].
  intros k' d' Hinit. apply elem_of_list_to_map_2 in Hinit.
  apply list_elem_of_fmap in Hinit as (lot & [= -> ->] & _). simpl. lia.
Qed.

Lemma lot_rate_unit (d : LotOccupancy) (T : Z) :
  (0 < lo_total_slots d)%Z →
  (0 <= lo_occupied_frames d <= lo_total_slots d * T)%Z →
  (0 <= lot_rate d T <= 1)%Q.
Proof.
  intros Hslots [Hocc0 Hocc]. unfold lot_rate.
  destruct (Z.gtb_spec T 0) as [HT|HT]; [|lra].
  unfold int_div.
  assert (Hs : (0 < inject_Z (lo_total_slots d))%Q)
    by (by rewrite <- (Zlt_Qlt 0)).
  assert (Ht : (0 < inject_Z T)%Q) by (by rewrite <- (Zlt_Qlt 0)).
  assert (Ho0 : (0 <= inject_Z (lo_occupied_frames d))%Q)
    by (by rewrite <- (Zle_Qle 0)).
  assert (Ho : (inject_Z (lo_occupied_frames d)
                <= inject_Z (lo_total_slots d) * inject_Z T)%Q).
  { rewrite <- inject_Z_mult. by rewrite <- Zle_Qle. }
  split.
  - apply Qle_shift_div_l; [done|]. rewrite Qmult_0_l.
    apply Qle_shift_div_l; [done|]. lra.
  - apply Qle_shift_div_r; [done|]. rewrite Qmult_1_l.
    apply Qle_shift_div_r; [done|]. lra.
Qed.

(** The entries of [lot_statistics]. *)
Lemma lot_statistics_entry (lots : list (ParkingLot G))
    (lot_occupancy : gmap UUID LotOccupancy) (total_frames : Z) e :
  e ∈ lot_statistics_of lots lot_occupancy total_frames →
  ∃ lot d,
    lot ∈ lots ∧ lst_lot_id e = lot_id lot ∧ lst_lot_name e = lot_name lot ∧
    lot_occupancy !! lot_id lot = Some d ∧
    (0 < lo_total_slots d)%Z ∧
    lst_total_slots e = lo_total_slots d ∧
    lst_occupancy_rate e = py_round (lot_rate d total_frames) 2.
Proof.
  unfold lot_statistics_of. intros Hin%elem_of_py_sorted.
  apply list_elem_of_omap in Hin as (lot & Hlot & Hsome).
  destruct (lot_occupancy !! lot_id lot) as [d|] eqn:Hd; [|done].
  simpl in Hsome. destruct (Z.gtb_spec (lo_total_slots d) 0); [|done].
  injection Hsome as <-. exists lot, d. simpl.
  split; [done|]. split; [done|]. split; [done|]. split; [done|].
  split; [lia|done].
Qed.

Lemma lot_statistics_sorted (lots : list (ParkingLot G))
    (lot_occupancy : gmap UUID LotOccupancy) (total_frames : Z) :
  StronglySorted (λ a b, (lst_occupancy_rate b <= lst_occupancy_rate a)%Q)
    (lot_statistics_of lots lot_occupancy total_frames).
Proof.
  unfold lot_statistics_of.
  eapply StronglySorted_mono;
    [|apply (py_sorted_StronglySorted
               (λ x y, Qgeb (lst_occupancy_rate x) (lst_occupancy_rate y)))].
  - intros x y Hxy. by apply Qgeb_ge in Hxy.
  - intros x y. rewrite !Qgeb_ge.
    destruct (Qlt_le_dec (lst_occupancy_rate x) (lst_occupancy_rate y));
      [right; by apply Qlt_le_weak|by left].
  - intros x y z. rewrite !Qgeb_ge. intros ? ?. by eapply Qle_trans.
Qed.

End lot_statistics_facts.

(** X24: whenever [get_video_analytics] answers, its [lot_statistics] are
    absent if the video has no detections; otherwise they list lots of the
    camera by non-increasing rate, only lots that hold a slot, each with at
    most as many slots as the camera has and a rate within [0, 1]. *)
Theorem analytics_lot_statistics_bounded (G : Shapely) (db : DB G)
    (id : UUID) (thr : Q) (video : Video) (r : VideoAnalytics)
    (Hvideo : select_video db id = Some video)
    (Hr : get_video_analytics db id thr = Return r) :
  let lots := select_lots db (video_camera_id video) in
  let slots := select_slots db (video_camera_id video) in
  match va_lot_statistics r with
  | None => select_detections db id = []
  | Some statistics =>
      select_detections db id ≠ [] ∧
      (lots = [] → statistics = []) ∧
      StronglySorted
        (λ a b, (lst_occupancy_rate b <= lst_occupancy_rate a)%Q)
        statistics ∧
      ∀ e, e ∈ statistics →
        lst_lot_id e ∈ lot_id <$> lots ∧
        (1 <= lst_total_slots e <= len slots)%Z ∧
        (0 <= lst_occupancy_rate e <= 1)%Q
  end.
Proof.
  unfold get_video_analytics in Hr. rewrite Hvideo in Hr.
  destruct (len (select_detections db id) =? 0)%Z eqn:Hlen.
  - injection Hr as <-. cbv zeta. cbn [va_lot_statistics].
    apply Z.eqb_eq in Hlen. unfold len in Hlen.
    destruct (select_detections db id); [done|]. simpl in Hlen. lia.
  - injection Hr as <-. cbv zeta. cbn [va_lot_statistics].
    split.
    { intros Hnil. rewrite Hnil in Hlen. done. }
    case_bool_decide as Hlots.
    { split; [done|]. split; [constructor|].
      intros e He. by apply elem_of_nil in He. }
    split; [done|]. split; [apply lot_statistics_sorted|].
    intros e He.
    apply lot_statistics_entry in He
      as (lot & d & Hlot & Hid & _ & Hd & Hpos & Htotal & Hrate).
    set (ds := order_by_frame_number (select_detections db id)) in *.
    set (slots := select_slots db (video_camera_id video)) in *.
    set (frame_data := frame_data_of ds (slot_polygons_of slots) thr) in *.
    assert (Hframes : Z.of_nat (size (list_to_set (map frame_number ds)
                                      : gset Z))
                      = len (PyDict.values frame_data)).
    { unfold len. f_equal. rewrite (size_frame_set ds ds) by done.
      rewrite <- (frame_data_keys_Permutation ds ds (slot_polygons_of slots)
                    thr) by done.
      unfold PyDict.values, PyDict.keys. by rewrite !length_fmap. }
    rewrite Hframes in Hrate.
    apply (lot_occupancy_of_bounds _ _ _ _ (len (PyDict.values frame_data)))
      in Hd as [Hslots Hocc];
      [|intros sid; apply slot_occupancy_bounds].
    split.
    { rewrite Hid. apply list_elem_of_fmap. by exists lot. }
    split; [lia|].
    rewrite Hrate. apply py_round_unit. by apply lot_rate_unit.
Qed.

Lemma analytics_lot_statistics_bounded_witness :
  ∃ r statistics,
    get_video_analytics Example.db 31%N (3 # 10) = Return r ∧
    va_lot_statistics r = Some statistics ∧
    ∀ e, e ∈ statistics → (0 <= lst_occupancy_rate e <= 1)%Q.
Proof.
  eexists. eexists. split; [reflexivity|]. split; [reflexivity|].
  pose proof (analytics_lot_statistics_bounded BoxKernel.kernel Example.db
                31%N (3 # 10) Example.video _ eq_refl eq_refl)
    as (_ & _ & _ & Hall).
  intros e He. by apply Hall.
Defined.

(** ** The two scales of the occupancy rate *)

Section rate_scale_facts.
Context {G : Shapely}.

(** The first counter of [get_current_occupancy_stats] counts the slots
    whose latest event says [occupied]. *)
Lemma count_step_fold_occupied (db : DB G) lot (ids : list UUID)
    (o f u : Z) :
  (foldl (count_step db lot) (o, f, u) ids).1.1 =
  (o + len (filter
              (λ sid,
                 event_status <$> latest_event db sid lot
                 = Some "occupied"%string)
              ids))%Z.
Proof.
  revert o f u. induction ids as [|sid ids IH]; intros o f u.
  - unfold len. simpl. lia.
  - cbn [foldl]. rewrite filter_cons. unfold count_step at 2.
    destruct (latest_event db sid lot) as [e|].
    + destruct (String.eqb_spec (event_status e) "occupied") as [Heq|Hne].
      * rewrite decide_True by (simpl; by rewrite Heq). rewrite IH.
        unfold len. cbn [length]. lia.
      * rewrite decide_False by (by intros [= ?]).
        destruct (String.eqb (event_status e) "free"); by rewrite IH.
    + rewrite decide_False by done. by rewrite IH.
Qed.

End rate_scale_facts.

(** C10: the current-occupancy statistics count the selected slots and,
    among them, those whose latest event says [occupied]; their rate is the
    percentage [occupied_slots / total_slots * 100], between 0 and 100,
    when a slot is selected, and [0.0] when none is.  The latest-frame
    status gives the rate as a fraction between 0 and 1: in its [ok]
    variant the camera has slots and the rate is [occupied / total_slots]
    to within a hundredth, in the other variants it is 0.  The occupancy
    timeline gives the fraction [occupied_slots / total_slots] of the slots
    of the camera, and the analytics a rate between 0 and 1 as well. *)
Theorem occupancy_rate_scales (G : Shapely) (db : DB G)
    (camera_id parking_lot_id : option UUID) (cam vid : UUID) (thr : Q) :
  let slots :=
    match camera_id with
    | Some c => select_slots db c
    | None => parking_slots db
    end in
  let occupied :=
    len (filter
           (λ sid,
              event_status <$> latest_event db sid parking_lot_id
              = Some "occupied"%string)
           (slot_id <$> slots)) in
  let stats := get_current_occupancy_stats db camera_id parking_lot_id in
  let status := get_current_parking_status db cam thr in
  let summary := cs_summary status in
  st_total_slots stats = len slots ∧
  st_occupied_slots stats = occupied ∧
  (slots = [] → st_occupancy_rate stats = 0%Q) ∧
  (slots ≠ [] →
   st_occupancy_rate stats = (int_div occupied (len slots) * 100)%Q) ∧
  (0 <= st_occupancy_rate stats <= 100)%Q ∧
  (0 <= sum_occupancy_rate summary <= 1)%Q ∧
  (cs_status status = "ok"%string →
   sum_total_slots summary = len (select_slots db cam) ∧
   (0 < sum_total_slots summary)%Z ∧
   (0 <= sum_occupied summary <= sum_total_slots summary)%Z ∧
   (int_div (sum_occupied summary) (sum_total_slots summary) - (1 # 100)
      < sum_occupancy_rate summary)%Q ∧
   (sum_occupancy_rate summary
      < int_div (sum_occupied summary) (sum_total_slots summary)
        + (1 # 100))%Q) ∧
  (cs_status status ≠ "ok"%string → sum_occupancy_rate summary = 0%Q) ∧
  (∀ e, e ∈ os_timeline (get_occupancy_stats db vid cam thr) →
        te_total_slots e = len (select_slots db cam) ∧
        (0 <= te_occupied_slots e <= len (select_slots db cam))%Z ∧
        (0 <= te_occupancy_rate e <= 1)%Q ∧
        te_occupancy_rate e =
          if (te_total_slots e >? 0)%Z
          then int_div (te_occupied_slots e) (te_total_slots e) else 0%Q) ∧
  (∀ r e, get_video_analytics db vid thr = Return r →
          e ∈ va_occupancy_timeline r →
          (0 <= af_occupancy_rate e <= 1)%Q).
Proof.
  intros slots occupied stats status summary.
  assert (Hlen : len (slot_id <$> slots) = len slots)
    by (unfold len; by rewrite length_fmap).
  assert (Hocc : (0 <= occupied <= len slots)%Z).
  { unfold occupied. rewrite <- Hlen. unfold len. split; [lia|].
    apply inj_le, length_filter. }
  assert (Hstats :
    st_total_slots stats = len slots ∧
    st_occupied_slots stats = occupied ∧
    (slots = [] → st_occupancy_rate stats = 0%Q) ∧
    (slots ≠ [] →
     st_occupancy_rate stats = (int_div occupied (len slots) * 100)%Q)).
  { unfold stats, get_current_occupancy_stats. fold slots.
    change (map slot_id slots) with (slot_id <$> slots).
    case_bool_decide as Hnil.
    - apply fmap_nil_inv in Hnil. unfold occupied. rewrite Hnil.
      by cbn.
    - assert (Hne : slots ≠ []) by (by intros ->).
      pose proof (count_step_fold_occupied db parking_lot_id
                    (slot_id <$> slots) 0 0 0) as Hcount.
      destruct (foldl _ _ (slot_id <$> slots)) as [[o f] u].
      cbn [fst] in Hcount. rewrite Z.add_0_l in Hcount.
      cbn [st_total_slots st_occupied_slots st_occupancy_rate].
      rewrite Hlen. split; [done|]. split; [done|]. split; [done|].
      intros _. rewrite Hcount.
      destruct (Z.gtb_spec (len slots) 0) as [|Hle]; [done|].
      destruct slots; [done|]. unfold len in Hle. simpl in Hle. lia. }
  destruct Hstats as (Htotal & Hoccupied & Hnone & Hsome).
  split; [done|]. split; [done|]. split; [done|]. split; [done|].
  split.
  { destruct slots as [|slot slots'] eqn:Hslots.
    - rewrite Hnone by done. done.
    - rewrite Hsome by done.
      assert (Hpos : (0 < len (slot :: slots'))%Z)
        by (unfold len; simpl; lia).
      pose proof (int_div_unit _ _ Hocc Hpos). lra. }
  assert (Hsummary :
    cs_status status ≠ "ok"%string ∧ sum_occupancy_rate summary = 0%Q ∨
    cs_status status = "ok"%string ∧
    sum_total_slots summary = len (select_slots db cam) ∧
    (0 < sum_total_slots summary)%Z ∧
    (0 <= sum_occupied summary <= sum_total_slots summary)%Z ∧
    sum_occupancy_rate summary =
      py_round (int_div (sum_occupied summary) (sum_total_slots summary)) 2).
  { unfold summary, status, get_current_parking_status.
    destruct (latest_processed_video db cam) as [video|]; [|by left].
    case_bool_decide as Hnil; [by left|].
    assert (0 < len (select_slots db cam))%Z
      by (unfold len; destruct (select_slots db cam); [done|simpl; lia]).
    destruct (max_frame_number (select_detections db (video_id video)));
      [|by left].
    right.
    cbn [cs_status cs_summary sum_total_slots sum_occupied
         sum_occupancy_rate].
    split; [done|]. split; [done|]. split; [done|].
    split; [apply size_occupied_le|].
    by destruct (Z.gtb_spec (len (select_slots db cam)) 0); [|lia]. }
  split.
  { destruct Hsummary as [[_ ->]|(_ & _ & Hpos & Hbounds & ->)]; [done|].
    apply py_round_unit. by apply int_div_unit. }
  split.
  { intros Hok.
    destruct Hsummary as [[Hne _]|(_ & Hslots & Hpos & Hbounds & Hrate)];
      [done|].
    split; [done|]. split; [done|]. split; [done|].
    pose proof (py_round_error_2
                  (int_div (sum_occupied summary) (sum_total_slots summary)))
      as Herr.
    rewrite <- Hrate in Herr. split; lra. }
  split.
  { intros Hne. by destruct Hsummary as [[_ ->]|[Hok _]]. }
  split.
  - intros e He. pose proof (timeline_entry _ _ _ _ _ He) as (_ & _ & Hsize).
    revert He Hsize. unfold get_occupancy_stats. cbn [os_timeline].
    intros (fd & -> & _)%list_elem_of_fmap.
    cbn [te_occupancy_rate te_total_slots te_occupied_slots te_frame_number].
    intros Hsize. split; [done|].
    assert (Hbounds : (0 <= Z.of_nat (size (fo_occupied_slots fd))
                       <= len (select_slots db cam))%Z).
    { rewrite Hsize. apply size_occupied_le. }
    split; [done|]. split; [|done].
    destruct (Z.gtb_spec (len (select_slots db cam)) 0); [|done].
    by apply int_div_unit.
  - intros r e. unfold get_video_analytics.
    destruct (select_video db vid) as [video|]; [|done].
    destruct (len (select_detections db vid) =? 0)%Z.
    + intros [= <-]. simpl. by intros ?%elem_of_nil.
    + intros [= <-]. cbn [va_occupancy_timeline].
      intros He%elem_of_last_n. by eapply analytics_rate_unit.
Qed.

(** ** One detection, two occupied slots *)

(** C2: the per-frame aggregation of [get_occupancy_stats] and
    [get_current_parking_status] does not give a detection to one slot.  In
    the example the only frame holds one car, whose IoU with each of the
    two adjacent slots is 1/3, above the threshold 0.3: the timeline and
    the latest-frame status report two occupied slots for this frame, while
    [get_frame_detections], which keeps the best slot of a detection,
    assigns the car to the first slot and reports one occupied slot for the
    same frame. *)
Theorem frame_occupancy_endpoints_disagree :
  let sp := slot_polygons_of (select_slots Example.db Example.camera) in
  let car_polygon :=
    bbox_to_polygon (G := BoxKernel.kernel)
      (bbox_normalized Example.car) in
  select_detections Example.db 31%N = [Example.car] ∧
  frame_number Example.car = 0%Z ∧
  (calculate_iou car_polygon (slot_polygon Example.slot_a) == 1 # 3)%Q ∧
  (calculate_iou car_polygon (slot_polygon Example.slot_b) == 1 # 3)%Q ∧
  (λ e, (te_frame_number e, te_total_detections e, te_occupied_slots e)) <$>
    os_timeline (get_occupancy_stats Example.db 31%N Example.camera 0.3)
    = [(0, 1, 2)%Z] ∧
  sum_occupied
    (cs_summary
       (get_current_parking_status Example.db Example.camera 0.3)) = 2%Z ∧
  fde_parking_slot_id <$>
    fdr_detections
      (get_frame_detections Example.db 31%N 0 Example.camera 0.3)
    = [Some 11%N] ∧
  match
    fdr_occupancy (get_frame_detections Example.db 31%N 0 Example.camera 0.3)
  with
  | frame_occupancy occupied_slots occupied_count _ _ =>
      elements occupied_slots = [11%N] ∧ occupied_count = 1%Z
  | empty_frame_occupancy _ _ => False
  end.
Proof.
  cbv zeta. split; [done|]. split; [done|].
  split; [by vm_compute|]. split; [by vm_compute|].
  split; [by vm_compute|]. split; [by vm_compute|].
  split; [by vm_compute|].
  by vm_compute.
Qed.

(** ** IoU and containment on areas in double precision *)

Section float_facts.
Import PyFloat.
Local Open Scope Q_scope.

Lemma overflow_threshold_large : 1 < overflow_threshold.
Proof. by vm_compute. Qed.

Lemma Qle_bool_false (x y : Q) : Qle_bool x y = false ↔ y < x.
Proof. apply (Qgeb_lt y x). Qed.

(** A number within the range is kept, in lowest terms. *)
Lemma of_Q_within (q : Q) :
  - overflow_threshold < q → q < overflow_threshold →
  of_Q q = finite (Qred q).
Proof.
  intros Hlo Hhi. unfold of_Q.
  rewrite (proj2 (Qle_bool_false _ _) Hhi).
  by rewrite (proj2 (Qle_bool_false _ _) Hlo).
Qed.

Lemma of_Q_finite (q r : Q) :
  of_Q q = finite r →
  r = Qred q ∧ - overflow_threshold < q ∧ q < overflow_threshold.
Proof.
  unfold of_Q.
  destruct (Qle_bool overflow_threshold q) eqn:Hhi; [done|].
  destruct (Qle_bool q (- overflow_threshold)) eqn:Hlo; [done|].
  intros [= <-]. by rewrite !Qle_bool_false in *.
Qed.

Lemma of_Q_unit (q : Q) : 0 <= q <= 1 → of_Q q = finite (Qred q).
Proof.
  intros [Hlo Hhi]. pose proof overflow_threshold_large.
  apply of_Q_within; lra.
Qed.


(** The quotient of two numbers [0 <= i <= u] with [0 < u]. *)
Lemma div_ordered (i u : Q) :
  0 <= i → i <= u → 0 < u →
  div (finite i) (finite u) = Some (finite (Qred (i / u))) ∧
  0 <= Qred (i / u) <= 1.
Proof.
  intros Hi Hiu Hu. pose proof (ratio_in_unit i u Hi Hiu Hu) as Hunit.
  split; [|by rewrite Qred_correct].
  unfold div. destruct (Qeq_bool u 0) eqn:Hz.
  - apply Qeq_bool_iff in Hz. lra.
  - by rewrite of_Q_unit.
Qed.

Section generic.
Context (G : Shapely).

Lemma float_calculate_iou_unfold (a b : Polygon G) :
  calculate_iou a b =
  match intersection_area G a b, union_area G a b with
  | Some i, Some u =>
      if gt0 u then default (finite 0) (div i u) else finite 0
  | _, _ => finite 0
  end.
Proof.
  unfold calculate_iou, try_except.
  destruct (intersection_area G a b) as [i|]; simpl; [|done].
  destruct (union_area G a b) as [u|]; simpl; [|done].
  by destruct (gt0 u).
Qed.


End generic.

(** The box kernel: an intersection lies inside the union. *)
Lemma box_inter_le_union (a b : BoxKernel.Rect) :
  0 <= BoxKernel.rect_inter a b ∧
  BoxKernel.rect_inter a b
    <= BoxKernel.rect_area a + BoxKernel.rect_area b
       - BoxKernel.rect_inter a b.
Proof.
  pose proof (rect_inter_nonneg a b).
  pose proof (rect_inter_le_area a b).
  pose proof (rect_inter_le_area b a) as Hb.
  rewrite (rect_inter_comm b a) in Hb. split; lra.
Qed.

End float_facts.

(** Within the range of the doubles the IoU of two rectangles is the
    rational IoU that the endpoints are stated with. *)
Lemma box_calculate_iou_within (a b : BoxKernel.Rect) (u : Q) :
  PyFloat.union_area PyFloat.box_kernel a b = Some (PyFloat.finite u) →
  PyFloat.calculate_iou (G := PyFloat.box_kernel) a b =
  PyFloat.finite (Qred (calculate_iou (G := BoxKernel.kernel) a b)).
Proof.
  intros [= Hu]. destruct (box_inter_le_union a b) as [Hi0 Hiu].
  apply of_Q_finite in Hu as (-> & Hlo & Hhi).
  pose proof overflow_threshold_large.
  rewrite float_calculate_iou_unfold, calculate_iou_unfold. simpl.
  rewrite (of_Q_within (BoxKernel.rect_inter a b)) by lra.
  rewrite (of_Q_within _ Hlo Hhi). cbn [PyFloat.gt0].
  destruct (Qgtb (Qred _) 0) eqn:Hpos; [|done].
  apply Qgtb_gt in Hpos.
  destruct (div_ordered (Qred (BoxKernel.rect_inter a b))
              (Qred (BoxKernel.rect_area a + BoxKernel.rect_area b
                     - BoxKernel.rect_inter a b)))
    as [-> _]; [by rewrite Qred_correct|by rewrite !Qred_correct|done|].
  done.
Qed.





